(** * Tilt Runner: the motion and collision core

    A shallow embedding of the [Ball] class and of the [PhysicsEngine] class
    of the game, and the properties of the design document that concern them.

    The program computes with JavaScript numbers.  The embedding is written
    once, over an interface [Number] that lists the operations the two classes
    use, and is read at two instances:

    - [binary64], the IEEE 754 double precision floats of the kernel, the
      numbers the program runs on; at this instance every definition computes;
    - [R], the real numbers, the exact arithmetic in which the design document
      states its metric properties (speeds, distances, containment).

    Properties that only depend on the control flow are proved for every
    instance, and those that only depend on the order of the numbers are
    proved at [binary64] as well, NaN and infinities included.  Properties
    that depend on arithmetic laws are proved at [R], where there is no
    rounding, no overflow and no NaN: they say what the arithmetic of the
    program approximates.  The runs at [binary64] give the program's own
    results on the scenarios, and show where doubles part from exact
    arithmetic. *)

From Stdlib Require Import Reals Lra Psatz QArith Floats ZArith Uint63.
From Stdlib Require Import List Bool Lia.
Import ListNotations.

Close Scope Q_scope.

(** ** Numbers *)

Class Number (num : Type) : Type := {
  lit   : Q -> num;                (* a decimal literal of the source text *)
  add   : num -> num -> num;
  sub   : num -> num -> num;
  mul   : num -> num -> num;
  div   : num -> num -> num;
  opp   : num -> num;
  ltb   : num -> num -> bool;
  Math_sqrt : num -> num;
  Math_abs  : num -> num;
  Math_max  : num -> num -> num;
  Math_min  : num -> num -> num
}.

Declare Scope num_scope.
Delimit Scope num_scope with num.
Notation "a + b" := (add a b) : num_scope.
Notation "a - b" := (sub a b) : num_scope.
Notation "a * b" := (mul a b) : num_scope.
Notation "a / b" := (div a b) : num_scope.
Notation "- a" := (opp a) : num_scope.
Notation "a <? b" := (ltb a b) : num_scope.
Notation "a >? b" := (ltb b a) : num_scope.

(** Exact arithmetic.  [sqrt] is the real square root; the program only
    takes roots of sums of squares. *)

Definition Rltb (a b : R) : bool := if Rlt_dec a b then true else false.

#[export] Instance real : Number R := {|
  lit := Q2R;
  add := Rplus;
  sub := Rminus;
  mul := Rmult;
  div := Rdiv;
  opp := Ropp;
  ltb := Rltb;
  Math_sqrt := R_sqrt.sqrt;
  Math_abs := Rabs;
  Math_max := Rmax;
  Math_min := Rmin
|}.

(** Double precision.  A decimal literal [n/d] with [n] and [d] below [2^53]
    is the correctly rounded quotient of two exact integers, which is the
    double the JavaScript parser assigns to it.  [Math.max] and [Math.min]
    propagate NaN and order [-0] below [+0]. *)

Module F64.
Import PrimFloat.
Local Open Scope float_scope.

Definition of_Z (z : Z) : float :=
  match z with
  | Zneg p => - of_uint63 (Uint63.of_Z (Zpos p))
  | _ => of_uint63 (Uint63.of_Z z)
  end.

Definition of_Q (q : Q) : float := of_Z (Qnum q) / of_Z (Zpos (Qden q)).

Definition max (a b : float) : float :=
  if is_nan a || is_nan b then nan
  else if a <? b then b
  else if b <? a then a
  else if is_zero a then a + b else a.

Definition min (a b : float) : float :=
  if is_nan a || is_nan b then nan
  else if a <? b then a
  else if b <? a then b
  else if is_zero a then - (- a + - b) else a.
End F64.

#[export] Instance binary64 : Number float := {|
  lit := F64.of_Q;
  add := PrimFloat.add;
  sub := PrimFloat.sub;
  mul := PrimFloat.mul;
  div := PrimFloat.div;
  opp := PrimFloat.opp;
  ltb := PrimFloat.ltb;
  Math_sqrt := PrimFloat.sqrt;
  Math_abs := PrimFloat.abs;
  Math_max := F64.max;
  Math_min := F64.min
|}.

(** The one law of the order that the boundary check relies on.  It holds
    at both instances; at [binary64] for infinities and NaN as well. *)

Class IrreflexiveLt (num : Type) `{Number num} : Prop :=
  ltb_irrefl : forall a : num, (a <? a)%num = false.

(** ** Obstacles and goal

    The rectangles and the circle of the arena, as the engine keeps them in
    [this.obstacles] and [this.goal]; their DOM elements are left to the
    engine. *)

Module Obstacle.
Section WithNumber.
Context {num : Type}.

Record t : Type := {
  x : num;
  y : num;
  width : num;
  height : num;
  originalX : num;
  originalY : num;
  moveSpeed : num;
  moveDirection : num;
  moveRadius : num
}.

End WithNumber.
Arguments t num : clear implicits.
End Obstacle.

Module Goal.
Section WithNumber.
Context {num : Type}.

Record t : Type := {
  x : num;
  y : num;
  radius : num
}.

End WithNumber.
Arguments t num : clear implicits.
End Goal.

(** ** The page

    What the classes read from the DOM: the bounding rectangles of the game
    container ([#gameArea .border-neon-blue]), of the goal ([#goal]) and of
    the obstacles ([.obstacle]), each absent when the element is.  The
    ball looks the container up under the [#gameArea] element it found
    when it was made, the engine under the document; the page is taken to
    keep that element, so both find the same container. *)

Module DOM.
Section WithNumber.
Context {num : Type}.

Record Rect : Type := {
  left : num;
  top : num;
  width : num;
  height : num
}.

Record Document : Type := {
  gameContainer : option Rect;
  goalElement : option Rect;
  obstacleElements : list Rect
}.

End WithNumber.
Arguments Rect num : clear implicits.
Arguments Document num : clear implicits.
End DOM.

(** ** The ball (class [Ball])

    A method of the class is a function from the object before the call to
    the object after it; a method that returns a value returns it next to the
    object.  The DOM element of the ball is kept as the two style coordinates
    that [updatePosition] writes, and the visual and haptic effect of
    [onCollision] as the number of times it was triggered. *)

Module Ball.
Section WithNumber.
Context {num : Type} {N : Number num}.
Local Open Scope num_scope.

Record Bounds : Type := {
  left : num;
  right : num;
  top : num;
  bottom : num
}.

Record t : Type := {
  x : num;
  y : num;
  startX : num;
  startY : num;
  radius : num;
  vx : num;
  vy : num;
  friction : num;
  bounce : num;
  maxSpeed : num;
  acceleration : num;
  bounds : Bounds;
  isColliding : bool;
  styleLeft : num;
  styleTop : num;
  shakes : nat
}.

Definition set_x (v : num) (this : t) : t :=
  {| x := v; y := y this; startX := startX this; startY := startY this;
     radius := radius this; vx := vx this; vy := vy this;
     friction := friction this; bounce := bounce this;
     maxSpeed := maxSpeed this; acceleration := acceleration this;
     bounds := bounds this; isColliding := isColliding this;
     styleLeft := styleLeft this; styleTop := styleTop this;
     shakes := shakes this |}.

Definition set_y (v : num) (this : t) : t :=
  {| x := x this; y := v; startX := startX this; startY := startY this;
     radius := radius this; vx := vx this; vy := vy this;
     friction := friction this; bounce := bounce this;
     maxSpeed := maxSpeed this; acceleration := acceleration this;
     bounds := bounds this; isColliding := isColliding this;
     styleLeft := styleLeft this; styleTop := styleTop this;
     shakes := shakes this |}.

Definition set_vx (v : num) (this : t) : t :=
  {| x := x this; y := y this; startX := startX this; startY := startY this;
     radius := radius this; vx := v; vy := vy this;
     friction := friction this; bounce := bounce this;
     maxSpeed := maxSpeed this; acceleration := acceleration this;
     bounds := bounds this; isColliding := isColliding this;
     styleLeft := styleLeft this; styleTop := styleTop this;
     shakes := shakes this |}.

Definition set_vy (v : num) (this : t) : t :=
  {| x := x this; y := y this; startX := startX this; startY := startY this;
     radius := radius this; vx := vx this; vy := v;
     friction := friction this; bounce := bounce this;
     maxSpeed := maxSpeed this; acceleration := acceleration this;
     bounds := bounds this; isColliding := isColliding this;
     styleLeft := styleLeft this; styleTop := styleTop this;
     shakes := shakes this |}.

Definition set_bounds (v : Bounds) (this : t) : t :=
  {| x := x this; y := y this; startX := startX this; startY := startY this;
     radius := radius this; vx := vx this; vy := vy this;
     friction := friction this; bounce := bounce this;
     maxSpeed := maxSpeed this; acceleration := acceleration this;
     bounds := v; isColliding := isColliding this;
     styleLeft := styleLeft this; styleTop := styleTop this;
     shakes := shakes this |}.

Definition set_isColliding (v : bool) (this : t) : t :=
  {| x := x this; y := y this; startX := startX this; startY := startY this;
     radius := radius this; vx := vx this; vy := vy this;
     friction := friction this; bounce := bounce this;
     maxSpeed := maxSpeed this; acceleration := acceleration this;
     bounds := bounds this; isColliding := v;
     styleLeft := styleLeft this; styleTop := styleTop this;
     shakes := shakes this |}.

Definition set_style (l u : num) (this : t) : t :=
  {| x := x this; y := y this; startX := startX this; startY := startY this;
     radius := radius this; vx := vx this; vy := vy this;
     friction := friction this; bounce := bounce this;
     maxSpeed := maxSpeed this; acceleration := acceleration this;
     bounds := bounds this; isColliding := isColliding this;
     styleLeft := l; styleTop := u;
     shakes := shakes this |}.

Definition set_shakes (v : nat) (this : t) : t :=
  {| x := x this; y := y this; startX := startX this; startY := startY this;
     radius := radius this; vx := vx this; vy := vy this;
     friction := friction this; bounce := bounce this;
     maxSpeed := maxSpeed this; acceleration := acceleration this;
     bounds := bounds this; isColliding := isColliding this;
     styleLeft := styleLeft this; styleTop := styleTop this;
     shakes := v |}.

(** [updateBounds], from the size of the container. *)
Definition updateBounds (containerWidth containerHeight : num) (this : t) : t :=
  set_bounds {| left := radius this;
                right := containerWidth - radius this;
                top := radius this;
                bottom := containerHeight - radius this |} this.

Definition updatePosition (this : t) : t :=
  set_style (x this) (y this) this.

Definition onCollision (this : t) : t :=
  set_shakes (S (shakes this)) this.

(** The constructor, [radius] being given ([12] by default). *)
Definition new (containerWidth containerHeight : num) (x0 y0 radius0 : num)
    : t :=
  let this :=
    {| x := x0; y := y0; startX := x0; startY := y0;
       radius := radius0; vx := lit 0; vy := lit 0;
       friction := lit 0.95; bounce := lit 0.7;
       maxSpeed := lit 8; acceleration := lit 0.3;
       bounds := {| left := lit 0; right := lit 0;
                    top := lit 0; bottom := lit 0 |};
       isColliding := false;
       styleLeft := lit 0; styleTop := lit 0; shakes := 0 |} in
  let this := updateBounds containerWidth containerHeight this in
  updatePosition this.

Definition applyForce (forceX forceY : num) (this : t) : t :=
  let this := set_vx (vx this + forceX * acceleration this) this in
  let this := set_vy (vy this + forceY * acceleration this) this in
  let speed := Math_sqrt (vx this * vx this + vy this * vy this) in
  if speed >? maxSpeed this then
    let this := set_vx ((vx this / speed) * maxSpeed this) this in
    set_vy ((vy this / speed) * maxSpeed this) this
  else this.

Definition checkBoundaryCollisions (this : t) : t :=
  let collided := false in
  let '(this, collided) :=
    if x this <? left (bounds this) then
      let this := set_x (left (bounds this)) this in
      let this := set_vx (- vx this * bounce this) this in
      (this, true)
    else (this, collided) in
  let '(this, collided) :=
    if x this >? right (bounds this) then
      let this := set_x (right (bounds this)) this in
      let this := set_vx (- vx this * bounce this) this in
      (this, true)
    else (this, collided) in
  let '(this, collided) :=
    if y this <? top (bounds this) then
      let this := set_y (top (bounds this)) this in
      let this := set_vy (- vy this * bounce this) this in
      (this, true)
    else (this, collided) in
  let '(this, collided) :=
    if y this >? bottom (bounds this) then
      let this := set_y (bottom (bounds this)) this in
      let this := set_vy (- vy this * bounce this) this in
      (this, true)
    else (this, collided) in
  let this :=
    if collided && negb (isColliding this) then onCollision this else this in
  set_isColliding collided this.

Definition update (this : t) : t :=
  let this := set_vx (vx this * friction this) this in
  let this := set_vy (vy this * friction this) this in
  let this := set_x (x this + vx this) this in
  let this := set_y (y this + vy this) this in
  let this := checkBoundaryCollisions this in
  let this := updatePosition this in
  let this :=
    if Math_abs (vx this) <? lit 0.1 then set_vx (lit 0) this else this in
  if Math_abs (vy this) <? lit 0.1 then set_vy (lit 0) this else this.

Definition checkObstacleCollision (obstacle : Obstacle.t num) (this : t)
    : bool * t :=
  let dx :=
    x this
    - Math_max (Obstacle.x obstacle)
        (Math_min (x this) (Obstacle.x obstacle + Obstacle.width obstacle)) in
  let dy :=
    y this
    - Math_max (Obstacle.y obstacle)
        (Math_min (y this) (Obstacle.y obstacle + Obstacle.height obstacle)) in
  ((dx * dx + dy * dy) <? (radius this * radius this), this).

Definition checkGoalCollision (goal : Goal.t num) (this : t) : bool * t :=
  let dx := x this - Goal.x goal in
  let dy := y this - Goal.y goal in
  let distance := Math_sqrt (dx * dx + dy * dy) in
  (distance <? (radius this + Goal.radius goal), this).

Definition handleObstacleCollision (obstacle : Obstacle.t num) (this : t) : t :=
  let centerX := Obstacle.x obstacle + Obstacle.width obstacle / lit 2 in
  let centerY := Obstacle.y obstacle + Obstacle.height obstacle / lit 2 in
  let dx := x this - centerX in
  let dy := y this - centerY in
  let distance := Math_sqrt (dx * dx + dy * dy) in
  let this :=
    if distance >? lit 0 then
      let normalX := dx / distance in
      let normalY := dy / distance in
      let this := set_vx (normalX * maxSpeed this * lit 0.8) this in
      let this := set_vy (normalY * maxSpeed this * lit 0.8) this in
      let this :=
        set_x
          (centerX
           + normalX
             * (radius this
                + Math_max (Obstacle.width obstacle) (Obstacle.height obstacle)
                  / lit 2
                + lit 5)) this in
      set_y
        (centerY
         + normalY
           * (radius this
              + Math_max (Obstacle.width obstacle) (Obstacle.height obstacle)
                / lit 2
              + lit 5)) this
    else this in
  onCollision this.

Definition reset (this : t) : t :=
  let this := set_x (startX this) this in
  let this := set_y (startY this) this in
  let this := set_vx (lit 0) this in
  let this := set_vy (lit 0) this in
  let this := set_isColliding false this in
  updatePosition this.

Definition getPosition (this : t) : num * num * num :=
  (x this, y this, radius this).

Definition getVelocity (this : t) : num * num * num :=
  (vx this, vy this, Math_sqrt (vx this * vx this + vy this * vy this)).

End WithNumber.
Arguments t num : clear implicits.
Arguments Bounds num : clear implicits.
End Ball.

(** ** The simulation loop (class [PhysicsEngine])

    The engine talks to three things outside itself: the clock
    ([performance.now], read where the source reads it and passed in here),
    the frame scheduler ([requestAnimationFrame], kept as the number of
    callbacks handed over and not yet run) and the document, on which it
    dispatches its two custom events.  [dispatchEvent] runs the registered
    listeners before it returns, so the listeners are a parameter of every
    method that dispatches: [listeners ev] is what they do to the engine.
    [Math.sin] and [Math.cos] are parameters too. *)

Module PhysicsEngine.
Section WithNumber.
Context {num : Type} {N : Number num}.
Local Open Scope num_scope.

Inductive Event : Type :=
| obstacleHit (obstacle : Obstacle.t num)
| goalReached.

Record t : Type := {
  gravity_x : num;
  gravity_y : num;
  sensitivity_mobile : num;
  sensitivity_desktop : num;
  obstacles : list (Obstacle.t num);
  goal : option (Goal.t num);
  ball : option (Ball.t num);
  isRunning : bool;
  lastTime : num;
  deltaTime : num;
  pendingFrames : nat;        (* requestAnimationFrame callbacks not yet run *)
  dispatched : list Event;    (* events dispatched so far, latest first *)
  obstacleShakes : nat;       (* 'shake' effects put on obstacle elements *)
  goalPulse : bool            (* 'animate-pulse' on the goal element *)
}.

Definition set_gravity (gx gy : num) (this : t) : t :=
  {| gravity_x := gx; gravity_y := gy;
     sensitivity_mobile := sensitivity_mobile this;
     sensitivity_desktop := sensitivity_desktop this;
     obstacles := obstacles this; goal := goal this; ball := ball this;
     isRunning := isRunning this; lastTime := lastTime this;
     deltaTime := deltaTime this; pendingFrames := pendingFrames this;
     dispatched := dispatched this; obstacleShakes := obstacleShakes this;
     goalPulse := goalPulse this |}.

Definition set_obstacles (v : list (Obstacle.t num)) (this : t) : t :=
  {| gravity_x := gravity_x this; gravity_y := gravity_y this;
     sensitivity_mobile := sensitivity_mobile this;
     sensitivity_desktop := sensitivity_desktop this;
     obstacles := v; goal := goal this; ball := ball this;
     isRunning := isRunning this; lastTime := lastTime this;
     deltaTime := deltaTime this; pendingFrames := pendingFrames this;
     dispatched := dispatched this; obstacleShakes := obstacleShakes this;
     goalPulse := goalPulse this |}.

Definition set_ball (v : option (Ball.t num)) (this : t) : t :=
  {| gravity_x := gravity_x this; gravity_y := gravity_y this;
     sensitivity_mobile := sensitivity_mobile this;
     sensitivity_desktop := sensitivity_desktop this;
     obstacles := obstacles this; goal := goal this; ball := v;
     isRunning := isRunning this; lastTime := lastTime this;
     deltaTime := deltaTime this; pendingFrames := pendingFrames this;
     dispatched := dispatched this; obstacleShakes := obstacleShakes this;
     goalPulse := goalPulse this |}.

Definition set_isRunning (v : bool) (this : t) : t :=
  {| gravity_x := gravity_x this; gravity_y := gravity_y this;
     sensitivity_mobile := sensitivity_mobile this;
     sensitivity_desktop := sensitivity_desktop this;
     obstacles := obstacles this; goal := goal this; ball := ball this;
     isRunning := v; lastTime := lastTime this;
     deltaTime := deltaTime this; pendingFrames := pendingFrames this;
     dispatched := dispatched this; obstacleShakes := obstacleShakes this;
     goalPulse := goalPulse this |}.

Definition set_times (last delta : num) (this : t) : t :=
  {| gravity_x := gravity_x this; gravity_y := gravity_y this;
     sensitivity_mobile := sensitivity_mobile this;
     sensitivity_desktop := sensitivity_desktop this;
     obstacles := obstacles this; goal := goal this; ball := ball this;
     isRunning := isRunning this; lastTime := last;
     deltaTime := delta; pendingFrames := pendingFrames this;
     dispatched := dispatched this; obstacleShakes := obstacleShakes this;
     goalPulse := goalPulse this |}.

Definition set_pendingFrames (v : nat) (this : t) : t :=
  {| gravity_x := gravity_x this; gravity_y := gravity_y this;
     sensitivity_mobile := sensitivity_mobile this;
     sensitivity_desktop := sensitivity_desktop this;
     obstacles := obstacles this; goal := goal this; ball := ball this;
     isRunning := isRunning this; lastTime := lastTime this;
     deltaTime := deltaTime this; pendingFrames := v;
     dispatched := dispatched this; obstacleShakes := obstacleShakes this;
     goalPulse := goalPulse this |}.

Definition set_dispatched (v : list Event) (this : t) : t :=
  {| gravity_x := gravity_x this; gravity_y := gravity_y this;
     sensitivity_mobile := sensitivity_mobile this;
     sensitivity_desktop := sensitivity_desktop this;
     obstacles := obstacles this; goal := goal this; ball := ball this;
     isRunning := isRunning this; lastTime := lastTime this;
     deltaTime := deltaTime this; pendingFrames := pendingFrames this;
     dispatched := v; obstacleShakes := obstacleShakes this;
     goalPulse := goalPulse this |}.

Definition set_obstacleShakes (v : nat) (this : t) : t :=
  {| gravity_x := gravity_x this; gravity_y := gravity_y this;
     sensitivity_mobile := sensitivity_mobile this;
     sensitivity_desktop := sensitivity_desktop this;
     obstacles := obstacles this; goal := goal this; ball := ball this;
     isRunning := isRunning this; lastTime := lastTime this;
     deltaTime := deltaTime this; pendingFrames := pendingFrames this;
     dispatched := dispatched this; obstacleShakes := v;
     goalPulse := goalPulse this |}.

Definition set_goalPulse (v : bool) (this : t) : t :=
  {| gravity_x := gravity_x this; gravity_y := gravity_y this;
     sensitivity_mobile := sensitivity_mobile this;
     sensitivity_desktop := sensitivity_desktop this;
     obstacles := obstacles this; goal := goal this; ball := ball this;
     isRunning := isRunning this; lastTime := lastTime this;
     deltaTime := deltaTime this; pendingFrames := pendingFrames this;
     dispatched := dispatched this; obstacleShakes := obstacleShakes this;
     goalPulse := v |}.

Variables Math_sin Math_cos : num -> num.
Variable listeners : Event -> t -> t.

Definition dispatchEvent (ev : Event) (this : t) : t :=
  listeners ev (set_dispatched (ev :: dispatched this) this).

Definition requestAnimationFrame (this : t) : t :=
  set_pendingFrames (S (pendingFrames this)) this.

Definition setBall (b : Ball.t num) (this : t) : t :=
  set_ball (Some b) this.

Definition updateGravity (isMobile : bool) (beta gamma : num) (this : t) : t :=
  let normalizedBeta :=
    Math_max (- lit 45) (Math_min (lit 45) beta) / lit 45 in
  let normalizedGamma :=
    Math_max (- lit 45) (Math_min (lit 45) gamma) / lit 45 in
  let sensitivity :=
    if isMobile then sensitivity_mobile this else sensitivity_desktop this in
  set_gravity (normalizedGamma * sensitivity) (normalizedBeta * sensitivity)
    this.

Definition stop (this : t) : t := set_isRunning false this.

(** [now] is the reading of the clock inside the method. *)
Definition updateMovingObstacles (now : num) (this : t) : t :=
  let time := now * lit 0.001 in
  set_obstacles
    (map (fun obstacle =>
            let offsetX :=
              Math_sin (time * Obstacle.moveSpeed obstacle)
              * Obstacle.moveRadius obstacle in
            let offsetY :=
              Math_cos (time * Obstacle.moveSpeed obstacle * lit 0.7)
              * Obstacle.moveRadius obstacle * lit 0.5 in
            {| Obstacle.x := Obstacle.originalX obstacle + offsetX;
               Obstacle.y := Obstacle.originalY obstacle + offsetY;
               Obstacle.width := Obstacle.width obstacle;
               Obstacle.height := Obstacle.height obstacle;
               Obstacle.originalX := Obstacle.originalX obstacle;
               Obstacle.originalY := Obstacle.originalY obstacle;
               Obstacle.moveSpeed := Obstacle.moveSpeed obstacle;
               Obstacle.moveDirection := Obstacle.moveDirection obstacle;
               Obstacle.moveRadius := Obstacle.moveRadius obstacle |})
         (obstacles this)) this.

Definition onObstacleHit (obstacle : Obstacle.t num) (this : t) : t :=
  let this := set_obstacleShakes (S (obstacleShakes this)) this in
  dispatchEvent (obstacleHit obstacle) this.

Definition onGoalReached (this : t) : t :=
  let this :=
    match goal this with
    | Some _ => set_goalPulse true this
    | None => this
    end in
  dispatchEvent goalReached this.

(** The [forEach] of [checkCollisions]: it walks the array it was called
    on, and reads [this.ball] again at every obstacle.  No listener of the
    game touches [this.ball]; where the source would throw on a ball that
    a listener has removed, the engine is left as it is. *)
Definition forEachObstacle (array : list (Obstacle.t num)) (this : t) : t :=
  fold_left
    (fun this obstacle =>
       match ball this with
       | Some b =>
           let '(hit, b) := Ball.checkObstacleCollision obstacle b in
           if hit then
             let b := Ball.handleObstacleCollision obstacle b in
             let this := set_ball (Some b) this in
             onObstacleHit obstacle this
           else this
       | None => this
       end)
    array this.

Definition checkCollisions (this : t) : t :=
  match ball this with
  | None => this
  | Some _ =>
      let this := forEachObstacle (obstacles this) this in
      match goal this, ball this with
      | Some g, Some b =>
          let '(hit, _) := Ball.checkGoalCollision g b in
          if hit then onGoalReached this else this
      | _, _ => this
      end
  end.

(** [currentTime] is the clock read by [update] itself, [now] the clock
    read by [updateMovingObstacles]. *)
Definition update (currentTime now : num) (this : t) : t :=
  if negb (isRunning this) then this
  else
    let this := set_times currentTime (currentTime - lastTime this) this in
    let this := updateMovingObstacles now this in
    let this :=
      match ball this with
      | Some b =>
          let b := Ball.applyForce (gravity_x this) (gravity_y this) b in
          let b := Ball.update b in
          let this := set_ball (Some b) this in
          checkCollisions this
      | None => this
      end in
    requestAnimationFrame this.

Definition start (startTime currentTime now : num) (this : t) : t :=
  let this := set_isRunning true this in
  let this := set_times startTime (deltaTime this) this in
  update currentTime now this.

(** The scheduler runs one of the callbacks it holds; each of them is
    [() => this.update()]. *)
Definition runFrame (currentTime now : num) (this : t) : t :=
  match pendingFrames this with
  | O => this
  | S n => update currentTime now (set_pendingFrames n this)
  end.

Definition reset (this : t) : t :=
  let this :=
    set_obstacles
      (map (fun obstacle =>
              {| Obstacle.x := Obstacle.originalX obstacle;
                 Obstacle.y := Obstacle.originalY obstacle;
                 Obstacle.width := Obstacle.width obstacle;
                 Obstacle.height := Obstacle.height obstacle;
                 Obstacle.originalX := Obstacle.originalX obstacle;
                 Obstacle.originalY := Obstacle.originalY obstacle;
                 Obstacle.moveSpeed := Obstacle.moveSpeed obstacle;
                 Obstacle.moveDirection := Obstacle.moveDirection obstacle;
                 Obstacle.moveRadius := Obstacle.moveRadius obstacle |})
           (obstacles this)) this in
  let this :=
    match goal this with
    | Some _ => set_goalPulse false this
    | None => this
    end in
  let this :=
    match ball this with
    | Some b => set_ball (Some (Ball.reset b)) this
    | None => this
    end in
  set_gravity (lit 0) (lit 0) this.

Definition set_goal (v : option (Goal.t num)) (this : t) : t :=
  {| gravity_x := gravity_x this; gravity_y := gravity_y this;
     sensitivity_mobile := sensitivity_mobile this;
     sensitivity_desktop := sensitivity_desktop this;
     obstacles := obstacles this; goal := v; ball := ball this;
     isRunning := isRunning this; lastTime := lastTime this;
     deltaTime := deltaTime this; pendingFrames := pendingFrames this;
     dispatched := dispatched this; obstacleShakes := obstacleShakes this;
     goalPulse := goalPulse this |}.

(** The objects [updateObstacles] pushes, one per element.  [random k] is
    the value of the [k]-th call of [Math.random] from the start of the
    method; an object literal evaluates its properties in order. *)
Fixpoint newObstacles (Math_PI : num) (containerRect : DOM.Rect num)
    (random : nat -> num) (k : nat) (elements : list (DOM.Rect num))
    : list (Obstacle.t num) :=
  match elements with
  | [] => []
  | rect :: elements =>
      let relativeX := DOM.left rect - DOM.left containerRect in
      let relativeY := DOM.top rect - DOM.top containerRect in
      {| Obstacle.x := relativeX;
         Obstacle.y := relativeY;
         Obstacle.width := DOM.width rect;
         Obstacle.height := DOM.height rect;
         Obstacle.originalX := relativeX;
         Obstacle.originalY := relativeY;
         Obstacle.moveSpeed := random k * lit 2 + lit 1;
         Obstacle.moveDirection := random (S k) * Math_PI * lit 2;
         Obstacle.moveRadius := random (S (S k)) * lit 20 + lit 10 |}
      :: newObstacles Math_PI containerRect random (S (S (S k))) elements
  end.

Definition updateObstacles (Math_PI : num) (random : nat -> num)
    (document : DOM.Document num) (this : t) : t :=
  let this := set_obstacles [] this in
  match DOM.gameContainer document with
  | None => this
  | Some containerRect =>
      set_obstacles
        (newObstacles Math_PI containerRect random 0
           (DOM.obstacleElements document)) this
  end.

Definition updateGoal (document : DOM.Document num) (this : t) : t :=
  match DOM.goalElement document, DOM.gameContainer document with
  | Some goalRect, Some containerRect =>
      let relativeX :=
        DOM.left goalRect - DOM.left containerRect
        + DOM.width goalRect / lit 2 in
      let relativeY :=
        DOM.top goalRect - DOM.top containerRect
        + DOM.height goalRect / lit 2 in
      set_goal
        (Some {| Goal.x := relativeX;
                 Goal.y := relativeY;
                 Goal.radius := DOM.width goalRect / lit 2 |}) this
  | _, _ => this
  end.

Definition initializeGameElements (Math_PI : num) (random : nat -> num)
    (document : DOM.Document num) (this : t) : t :=
  let this := updateObstacles Math_PI random document this in
  updateGoal document this.

(** The constructor. *)
Definition new (Math_PI : num) (random : nat -> num)
    (document : DOM.Document num) : t :=
  initializeGameElements Math_PI random document
    {| gravity_x := lit 0; gravity_y := lit 0;
       sensitivity_mobile := lit 0.5; sensitivity_desktop := lit 0.3;
       obstacles := []; goal := None; ball := None;
       isRunning := false; lastTime := lit 0; deltaTime := lit 0;
       pendingFrames := 0; dispatched := [];
       obstacleShakes := 0; goalPulse := false |}.

(** [resize].  [Ball.updateBounds] measures the container without testing
    that it is there: with a ball and no container the call throws, which
    is [None] here. *)
Definition resize (Math_PI : num) (random : nat -> num)
    (document : DOM.Document num) (this : t) : option t :=
  match ball this with
  | Some b =>
      match DOM.gameContainer document with
      | Some containerRect =>
          let b :=
            Ball.updateBounds (DOM.width containerRect)
              (DOM.height containerRect) b in
          let this := set_ball (Some b) this in
          let this := updateObstacles Math_PI random document this in
          Some (updateGoal document this)
      | None => None
      end
  | None =>
      let this := updateObstacles Math_PI random document this in
      Some (updateGoal document this)
  end.

End WithNumber.
Arguments t num : clear implicits.
Arguments Event num : clear implicits.
End PhysicsEngine.

(** ** The controls (class [ControlsManager])

    The manager keeps a reference to the engine of the game and calls its
    [updateGravity]; the methods that do take the engine they act on (absent
    before [setPhysicsEngine]) and return it.  [userAgentMobile] is the
    answer of the engine's own [isMobile].  The key table is the object
    [this.keys], whose eight properties never change; an event whose code
    is none of them carries [None].  The [onForceChange] callback is never
    set by the program. *)

Module ControlsManager.
Section WithNumber.
Context {num : Type} {N : Number num}.
Local Open Scope num_scope.

Inductive Code : Type :=
| ArrowUp | ArrowDown | ArrowLeft | ArrowRight
| KeyW | KeyS | KeyA | KeyD.

Definition sameCode (a b : Code) : bool :=
  match a, b with
  | ArrowUp, ArrowUp | ArrowDown, ArrowDown
  | ArrowLeft, ArrowLeft | ArrowRight, ArrowRight
  | KeyW, KeyW | KeyS, KeyS | KeyA, KeyA | KeyD, KeyD => true
  | _, _ => false
  end.

Record t : Type := {
  isEnabled : bool;
  isMobile : bool;
  hasOrientationPermission : bool;
  sensitivity_mobile : num;
  sensitivity_desktop : num;
  keys : Code -> bool;
  orientation_alpha : num;
  orientation_beta : num;
  orientation_gamma : num;
  calibration_beta : num;
  calibration_gamma : num;
  calibration_isCalibrated : bool
}.

Definition set_isEnabled (v : bool) (this : t) : t :=
  {| isEnabled := v; isMobile := isMobile this;
     hasOrientationPermission := hasOrientationPermission this;
     sensitivity_mobile := sensitivity_mobile this;
     sensitivity_desktop := sensitivity_desktop this;
     keys := keys this;
     orientation_alpha := orientation_alpha this;
     orientation_beta := orientation_beta this;
     orientation_gamma := orientation_gamma this;
     calibration_beta := calibration_beta this;
     calibration_gamma := calibration_gamma this;
     calibration_isCalibrated := calibration_isCalibrated this |}.

Definition set_sensitivity (mobile desktop : num) (this : t) : t :=
  {| isEnabled := isEnabled this; isMobile := isMobile this;
     hasOrientationPermission := hasOrientationPermission this;
     sensitivity_mobile := mobile;
     sensitivity_desktop := desktop;
     keys := keys this;
     orientation_alpha := orientation_alpha this;
     orientation_beta := orientation_beta this;
     orientation_gamma := orientation_gamma this;
     calibration_beta := calibration_beta this;
     calibration_gamma := calibration_gamma this;
     calibration_isCalibrated := calibration_isCalibrated this |}.

Definition set_keys (v : Code -> bool) (this : t) : t :=
  {| isEnabled := isEnabled this; isMobile := isMobile this;
     hasOrientationPermission := hasOrientationPermission this;
     sensitivity_mobile := sensitivity_mobile this;
     sensitivity_desktop := sensitivity_desktop this;
     keys := v;
     orientation_alpha := orientation_alpha this;
     orientation_beta := orientation_beta this;
     orientation_gamma := orientation_gamma this;
     calibration_beta := calibration_beta this;
     calibration_gamma := calibration_gamma this;
     calibration_isCalibrated := calibration_isCalibrated this |}.

Definition set_orientation (alpha beta gamma : num) (this : t) : t :=
  {| isEnabled := isEnabled this; isMobile := isMobile this;
     hasOrientationPermission := hasOrientationPermission this;
     sensitivity_mobile := sensitivity_mobile this;
     sensitivity_desktop := sensitivity_desktop this;
     keys := keys this;
     orientation_alpha := alpha;
     orientation_beta := beta;
     orientation_gamma := gamma;
     calibration_beta := calibration_beta this;
     calibration_gamma := calibration_gamma this;
     calibration_isCalibrated := calibration_isCalibrated this |}.

Definition set_calibration (beta gamma : num) (isCalibrated : bool)
    (this : t) : t :=
  {| isEnabled := isEnabled this; isMobile := isMobile this;
     hasOrientationPermission := hasOrientationPermission this;
     sensitivity_mobile := sensitivity_mobile this;
     sensitivity_desktop := sensitivity_desktop this;
     keys := keys this;
     orientation_alpha := orientation_alpha this;
     orientation_beta := orientation_beta this;
     orientation_gamma := orientation_gamma this;
     calibration_beta := beta;
     calibration_gamma := gamma;
     calibration_isCalibrated := isCalibrated |}.

Definition set_isMobile (v : bool) (this : t) : t :=
  {| isEnabled := isEnabled this; isMobile := v;
     hasOrientationPermission := hasOrientationPermission this;
     sensitivity_mobile := sensitivity_mobile this;
     sensitivity_desktop := sensitivity_desktop this;
     keys := keys this;
     orientation_alpha := orientation_alpha this;
     orientation_beta := orientation_beta this;
     orientation_gamma := orientation_gamma this;
     calibration_beta := calibration_beta this;
     calibration_gamma := calibration_gamma this;
     calibration_isCalibrated := calibration_isCalibrated this |}.

Definition set_hasOrientationPermission (v : bool) (this : t) : t :=
  {| isEnabled := isEnabled this; isMobile := isMobile this;
     hasOrientationPermission := v;
     sensitivity_mobile := sensitivity_mobile this;
     sensitivity_desktop := sensitivity_desktop this;
     keys := keys this;
     orientation_alpha := orientation_alpha this;
     orientation_beta := orientation_beta this;
     orientation_gamma := orientation_gamma this;
     calibration_beta := calibration_beta this;
     calibration_gamma := calibration_gamma this;
     calibration_isCalibrated := calibration_isCalibrated this |}.

(** What the browser offers of the orientation sensor: no
    [DeviceOrientationEvent] at all, one whose [requestPermission] has to
    be asked first, or one that can be listened to at once. *)
Inductive OrientationSupport : Type :=
| unsupported | needsPermission | available.

(** [fallbackToDesktopControls]; the key listeners it installs are the
    handlers below. *)
Definition fallbackToDesktopControls (this : t) : t :=
  set_isMobile false this.

(** [initializeMobileControls] up to its [await]: where permission has to
    be asked the method stops there, and goes on in [permissionAnswered]
    when the answer comes. *)
Definition initializeMobileControls (orientation : OrientationSupport)
    (this : t) : t :=
  match orientation with
  | unsupported => fallbackToDesktopControls this
  | needsPermission => this
  | available => set_hasOrientationPermission true this
  end.

(** The rest of [initializeMobileControls], for an answer that is
    ['granted'] or not; a request that throws is one that is not. *)
Definition permissionAnswered (granted : bool) (this : t) : t :=
  if granted then set_hasOrientationPermission true this
  else fallbackToDesktopControls this.

Definition initializeControls (orientation : OrientationSupport)
    (this : t) : t :=
  if isMobile this then initializeMobileControls orientation this
  else this.

(** The constructor, for the answer of [detectMobile] and what the browser
    offers; the listeners it installs are the handlers below. *)
Definition new (mobile : bool) (orientation : OrientationSupport) : t :=
  let this :=
    {| isEnabled := false; isMobile := mobile;
       hasOrientationPermission := false;
       sensitivity_mobile := lit 0.8;
       sensitivity_desktop := lit 1;
       keys := fun _ => false;
       orientation_alpha := lit 0;
       orientation_beta := lit 0;
       orientation_gamma := lit 0;
       calibration_beta := lit 0;
       calibration_gamma := lit 0;
       calibration_isCalibrated := false |} in
  initializeControls orientation this.

Definition normalizeOrientation (value maxAngle : num) : num :=
  Math_max (- lit 1) (Math_min (lit 1) (value / maxAngle)).

Definition applyForces (userAgentMobile : bool) (forceX forceY : num)
    (physicsEngine : option (PhysicsEngine.t num))
    : option (PhysicsEngine.t num) :=
  match physicsEngine with
  | Some physics =>
      Some (PhysicsEngine.updateGravity userAgentMobile
              (forceY * lit 45) (forceX * lit 45) physics)
  | None => None
  end.

(** [v || 0] for a reading of the sensor: [0] when the reading is missing
    and when it is falsy, that is zero or NaN. *)
Definition orZero (v : option num) : num :=
  match v with
  | Some v => if (v <? lit 0) || (lit 0 <? v) then v else lit 0
  | None => lit 0
  end.

(** The listener of [deviceorientation]. *)
Definition onDeviceOrientation (userAgentMobile : bool)
    (alpha beta gamma : option num)
    (this : t) (physicsEngine : option (PhysicsEngine.t num))
    : t * option (PhysicsEngine.t num) :=
  if negb (isEnabled this) then (this, physicsEngine)
  else
    let this :=
      set_orientation (orZero alpha) (orZero beta) (orZero gamma) this in
    let adjustedBeta := orientation_beta this - calibration_beta this in
    let adjustedGamma := orientation_gamma this - calibration_gamma this in
    let forceX :=
      normalizeOrientation adjustedGamma (lit 45) * sensitivity_mobile this in
    let forceY :=
      normalizeOrientation adjustedBeta (lit 45) * sensitivity_mobile this in
    (this, applyForces userAgentMobile forceX forceY physicsEngine).

(** The listeners of [keydown] and [keyup]. *)
Definition onKeyDown (code : option Code) (this : t) : t :=
  if negb (isEnabled this) then this
  else
    match code with
    | Some c =>
        set_keys (fun k => if sameCode k c then true else keys this k) this
    | None => this
    end.

Definition onKeyUp (code : option Code) (this : t) : t :=
  match code with
  | Some c =>
      set_keys (fun k => if sameCode k c then false else keys this k) this
  | None => this
  end.

(** One round of the keyboard loop, [updateKeyboard]. *)
Definition updateKeyboard (userAgentMobile : bool) (this : t)
    (physicsEngine : option (PhysicsEngine.t num))
    : option (PhysicsEngine.t num) :=
  if negb (isEnabled this) then physicsEngine
  else
    let forceX := lit 0 in
    let forceY := lit 0 in
    let forceX :=
      if keys this ArrowLeft || keys this KeyA then forceX - lit 1
      else forceX in
    let forceX :=
      if keys this ArrowRight || keys this KeyD then forceX + lit 1
      else forceX in
    let forceY :=
      if keys this ArrowUp || keys this KeyW then forceY - lit 1
      else forceY in
    let forceY :=
      if keys this ArrowDown || keys this KeyS then forceY + lit 1
      else forceY in
    let forceX := forceX * sensitivity_desktop this in
    let forceY := forceY * sensitivity_desktop this in
    applyForces userAgentMobile forceX forceY physicsEngine.

Definition calibrate (this : t) : t :=
  if isMobile this && hasOrientationPermission this then
    set_calibration (orientation_beta this) (orientation_gamma this) true this
  else this.

(** [enable]; the calibration it schedules on a mobile is a later call of
    [calibrate]. *)
Definition enable (this : t) : t := set_isEnabled true this.

Definition disable (this : t) : t :=
  let this := set_isEnabled false this in
  set_keys (fun _ => false) this.

Definition setSensitivity (mobileSensitivity desktopSensitivity : num)
    (this : t) : t :=
  set_sensitivity
    (Math_max (lit 0) (Math_min (lit 2) mobileSensitivity))
    (Math_max (lit 0) (Math_min (lit 2) desktopSensitivity)) this.

End WithNumber.
Arguments t num : clear implicits.
End ControlsManager.

(** ** The game's listeners (class [TiltRunnerGame])

    [setupGameEvents] registers one listener per event.  The listener of
    [goalReached] is [handleGoalReached], which calls [this.physics.stop()];
    the rest of what the two handlers do is presentation and leaves the
    engine alone. *)

Module TiltRunnerGame.
Section WithNumber.
Context {num : Type} {N : Number num}.

Definition handleObstacleHit (obstacle : Obstacle.t num)
    (physics : PhysicsEngine.t num) : PhysicsEngine.t num :=
  physics.

Definition handleGoalReached (physics : PhysicsEngine.t num)
    : PhysicsEngine.t num :=
  PhysicsEngine.stop physics.

Definition listeners (ev : PhysicsEngine.Event num)
    (physics : PhysicsEngine.t num) : PhysicsEngine.t num :=
  match ev with
  | PhysicsEngine.obstacleHit obstacle => handleObstacleHit obstacle physics
  | PhysicsEngine.goalReached => handleGoalReached physics
  end.

(** The states of [this.gameState]. *)
Inductive GameState : Type :=
| menu | playing | paused | victory | gameOver.

(** A trail of the ball: the position given to its element, and the
    reading of [Date.now] when it was made. *)
Record Trail : Type := {
  trail_left : num;
  trail_top : num;
  timestamp : Z
}.

(** [createBallTrail], for the container being in the page or not; [now]
    is the reading of [Date.now]. *)
Definition createBallTrail (now : Z) (containerPresent : bool)
    (maxTrails : nat) (ball : option (Ball.t num))
    (ballTrails : list Trail) : list Trail :=
  match ball with
  | None => ballTrails
  | Some b =>
      let '(_, _, speed) := Ball.getVelocity b in
      if (speed <? lit 1)%num then ballTrails
      else
        let '(positionX, positionY, _) := Ball.getPosition b in
        if negb containerPresent then ballTrails
        else
          let ballTrails :=
            ballTrails
            ++ [{| trail_left := positionX; trail_top := positionY;
                   timestamp := now |}] in
          if (maxTrails <? length ballTrails)%nat then tl ballTrails
          else ballTrails
  end.

Definition cleanupBallTrails (now : Z) (ballTrails : list Trail)
    : list Trail :=
  filter (fun trail => negb (500 <? now - timestamp trail)%Z) ballTrails.

(** One round of [visualEffectsLoop]; the two methods read the clock one
    after the other. *)
Definition visualEffectsLoop (gameState : GameState)
    (nowCreate nowCleanup : Z) (containerPresent : bool) (maxTrails : nat)
    (ball : option (Ball.t num)) (ballTrails : list Trail) : list Trail :=
  match gameState with
  | playing =>
      let ballTrails :=
        createBallTrail nowCreate containerPresent maxTrails ball
          ballTrails in
      cleanupBallTrails nowCleanup ballTrails
  | _ => ballTrails
  end.
End WithNumber.
Arguments Trail num : clear implicits.
End TiltRunnerGame.

(** A document on which nobody listens. *)
Definition noListeners {num : Type} `{Number num}
    (ev : PhysicsEngine.Event num) (physics : PhysicsEngine.t num)
    : PhysicsEngine.t num :=
  physics.

(** * Vocabulary of the properties *)

(** ** Steps, violations and episodes, for every instance *)

Section Vocabulary.
Context {num : Type} {N : Number num}.
Local Open Scope num_scope.

(** The four steps the design document gives to [update], each on its
    own. *)
Definition applyFriction (b : Ball.t num) : Ball.t num :=
  Ball.set_vy (Ball.vy b * Ball.friction b)
    (Ball.set_vx (Ball.vx b * Ball.friction b) b).

Definition integrate (b : Ball.t num) : Ball.t num :=
  Ball.set_y (Ball.y b + Ball.vy b) (Ball.set_x (Ball.x b + Ball.vx b) b).

Definition snap (v : num) : num :=
  if Math_abs v <? lit 0.1 then lit 0 else v.

Definition microZero (b : Ball.t num) : Ball.t num :=
  Ball.set_vy (snap (Ball.vy b)) (Ball.set_vx (snap (Ball.vx b)) b).

(** The speed of a ball, as [getVelocity] reports it. *)
Definition speed (b : Ball.t num) : num := snd (Ball.getVelocity b).

(** Some edge is violated by the position of the ball. *)
Definition outOfBounds (b : Ball.t num) : bool :=
  (Ball.x b <? Ball.left (Ball.bounds b))
  || (Ball.x b >? Ball.right (Ball.bounds b))
  || (Ball.y b <? Ball.top (Ball.bounds b))
  || (Ball.y b >? Ball.bottom (Ball.bounds b)).

(** Some edge is violated in the tick that starts from [b]: by the
    position [update] reaches before it checks the boundary. *)
Definition violation (b : Ball.t num) : bool :=
  outOfBounds (integrate (applyFriction b)).

(** [1] when the effect is triggered, for a flag [was] and a tick that
    violates an edge or not. *)
Definition fires (was violated : bool) : nat :=
  if violated && negb was then 1 else 0.

Fixpoint updates (n : nat) (b : Ball.t num) : Ball.t num :=
  match n with
  | O => b
  | S n => updates n (Ball.update b)
  end.

Fixpoint violations (n : nat) (b : Ball.t num) : list bool :=
  match n with
  | O => []
  | S n => violation b :: violations n (Ball.update b)
  end.

(** The ticks of a run that violate an edge while the tick before them
    (or the flag at the start, for the first) did not. *)
Fixpoint risingEdges (was : bool) (l : list bool) : nat :=
  match l with
  | [] => 0
  | v :: l => (fires was v + risingEdges v l)%nat
  end.

(** The maximal blocks of consecutive violating ticks, counted where they
    end. *)
Fixpoint episodes (l : list bool) : nat :=
  match l with
  | [] => 0
  | true :: l' =>
      match l' with
      | true :: _ => episodes l'
      | _ => S (episodes l')
      end
  | false :: l' => episodes l'
  end.

End Vocabulary.

Section EngineVocabulary.
Context {num : Type} {N : Number num}.
Import PhysicsEngine.

Definition isGoalReached (ev : Event num) : bool :=
  match ev with
  | goalReached => true
  | obstacleHit _ => false
  end.

(** How many times [goalReached] was dispatched so far. *)
Definition goalEvents (this : PhysicsEngine.t num) : nat :=
  length (filter isGoalReached (dispatched this)).

(** The goal test of [checkCollisions], on the engine as the test finds
    it: there is a goal, there is a ball, and the ball is on the goal. *)
Definition detectsGoal (this : PhysicsEngine.t num) : bool :=
  match goal this, ball this with
  | Some g, Some b => fst (Ball.checkGoalCollision g b)
  | _, _ => false
  end.

(** The engine as the goal test of a tick finds it: the time recorded, the
    obstacles moved, the ball pushed and updated, every obstacle looked
    at. *)
Definition atGoalTest (Math_sin Math_cos : num -> num)
    (listeners : Event num -> PhysicsEngine.t num -> PhysicsEngine.t num)
    (currentTime now : num) (this : PhysicsEngine.t num)
    : PhysicsEngine.t num :=
  let this :=
    set_times currentTime (currentTime - lastTime this)%num this in
  let this := updateMovingObstacles Math_sin Math_cos now this in
  match ball this with
  | Some b =>
      let b :=
        Ball.update (Ball.applyForce (gravity_x this) (gravity_y this) b) in
      let this := set_ball (Some b) this in
      forEachObstacle listeners (obstacles this) this
  | None => this
  end.

(** What a method leaves alone when it neither stops the engine nor
    reports the goal. *)
Definition sameLoop (this this' : PhysicsEngine.t num) : Prop :=
  isRunning this' = isRunning this
  /\ pendingFrames this' = pendingFrames this
  /\ goalEvents this' = goalEvents this
  /\ goal this' = goal this.

End EngineVocabulary.

(** ** Speeds and distances, in exact arithmetic *)

Section RealVocabulary.
Local Open Scope R_scope.

(** The velocity [applyForce] has built before it looks at the speed. *)
Definition preClamp (forceX forceY : R) (b : Ball.t R) : R * R :=
  (Ball.vx b + forceX * Ball.acceleration b,
   Ball.vy b + forceY * Ball.acceleration b).

Definition norm (v : R * R) : R :=
  R_sqrt.sqrt (fst v * fst v + snd v * snd v).

(** What [applyForce] does to a velocity [v], for a speed limit [M]. *)
Definition clamped (M : R) (v : R * R) : R * R :=
  if Rltb M (norm v) then (fst v / norm v * M, snd v / norm v * M) else v.

(** The Euclidean distance of two points of the arena. *)
Definition distance (p q : R * R) : R :=
  R_sqrt.sqrt (Rsqr (fst p - fst q) + Rsqr (snd p - snd q)).

Definition center (b : Ball.t R) : R * R := (Ball.x b, Ball.y b).

Definition goalCenter (g : Goal.t R) : R * R := (Goal.x g, Goal.y g).

Definition obstacleCenter (o : Obstacle.t R) : R * R :=
  (Obstacle.x o + Obstacle.width o / 2, Obstacle.y o + Obstacle.height o / 2).

(** The centre of the ball is within the bounds. *)
Definition inside (bounds : Ball.Bounds R) (b : Ball.t R) : Prop :=
  Ball.left bounds <= Ball.x b <= Ball.right bounds
  /\ Ball.top bounds <= Ball.y b <= Ball.bottom bounds.

End RealVocabulary.

(** ** Sample data

    The game creates its ball at [(50, 50)] with radius [12]; the container
    is taken [300] wide and [400] high. *)

Definition sampleBall {num : Type} `{Number num} : Ball.t num :=
  Ball.new (lit 300) (lit 400) (lit 50) (lit 50) (lit 12).

(** The same ball, rolling to the right at speed [7]. *)
Definition rollingBall {num : Type} `{Number num} : Ball.t num :=
  Ball.set_vx (lit 7) sampleBall.


(** And at velocity [(29, 19)]. *)
Definition fasterBall {num : Type} `{Number num} : Ball.t num :=
  Ball.set_vy (lit 19) (Ball.set_vx (lit 29) sampleBall).

(** The rational number a finite double stands for. *)
Definition exactValue (f : float) : Q :=
  match FloatOps.Prim2SF f with
  | SpecFloat.S754_finite s m e =>
      let magnitude :=
        match e with
        | Zneg p => Qmake (Zpos m) (Pos.pow 2 p)
        | _ => inject_Z (Zpos m * 2 ^ e)
        end in
      if s then Qopp magnitude else magnitude
  | _ => inject_Z 0
  end.

(** An obstacle whose rectangle is centred on the sample ball. *)
Definition centredObstacle {num : Type} `{Number num} : Obstacle.t num :=
  {| Obstacle.x := lit 40; Obstacle.y := lit 30;
     Obstacle.width := lit 20; Obstacle.height := lit 40;
     Obstacle.originalX := lit 40; Obstacle.originalY := lit 30;
     Obstacle.moveSpeed := lit 1; Obstacle.moveDirection := lit 0;
     Obstacle.moveRadius := lit 10 |}.

(** An obstacle to the right of the sample ball, overlapping it. *)
Definition sideObstacle {num : Type} `{Number num} : Obstacle.t num :=
  {| Obstacle.x := lit 55; Obstacle.y := lit 30;
     Obstacle.width := lit 20; Obstacle.height := lit 40;
     Obstacle.originalX := lit 55; Obstacle.originalY := lit 30;
     Obstacle.moveSpeed := lit 1; Obstacle.moveDirection := lit 0;
     Obstacle.moveRadius := lit 10 |}.

(** A goal of radius [20]. *)
Definition goalAt {num : Type} `{Number num} (gx gy : Q) : Goal.t num :=
  {| Goal.x := lit gx; Goal.y := lit gy; Goal.radius := lit 20 |}.

(** The ball near the lower right corner, moving towards it. *)
Definition cornerBall {num : Type} `{Number num} : Ball.t num :=
  Ball.set_vy (lit 5) (Ball.set_vx (lit 5)
    (Ball.set_y (lit 380) (Ball.set_x (lit 286) sampleBall))).

Section SampleEngine.
Local Open Scope R_scope.
Import PhysicsEngine.

(** An engine without obstacles whose ball rests on the centre of the
    goal; the clock reads [16] in its first tick. *)
Definition sampleEngine : PhysicsEngine.t R :=
  {| gravity_x := 0; gravity_y := 0;
     sensitivity_mobile := 0.5; sensitivity_desktop := 0.3;
     obstacles := [];
     goal := Some {| Goal.x := 50; Goal.y := 50; Goal.radius := 20 |};
     ball := Some sampleBall;
     isRunning := true; lastTime := 0; deltaTime := 0;
     pendingFrames := 0; dispatched := [];
     obstacleShakes := 0; goalPulse := false |}.

(** The same engine with an obstacle far from the ball. *)
Definition farObstacle : Obstacle.t R :=
  {| Obstacle.x := 200; Obstacle.y := 300;
     Obstacle.width := 20; Obstacle.height := 40;
     Obstacle.originalX := 200; Obstacle.originalY := 300;
     Obstacle.moveSpeed := 2; Obstacle.moveDirection := 0;
     Obstacle.moveRadius := 10 |}.

Definition courseEngine : PhysicsEngine.t R :=
  set_obstacles [farObstacle] sampleEngine.

(** The same engine on a page without a goal element. *)
Definition goallessEngine : PhysicsEngine.t R :=
  set_goal None sampleEngine.

(** A page: the container of the game, [300] by [400], the goal and one
    obstacle in it. *)
Definition samplePage : DOM.Document R :=
  {| DOM.gameContainer :=
       Some {| DOM.left := 10; DOM.top := 20;
               DOM.width := 300; DOM.height := 400 |};
     DOM.goalElement :=
       Some {| DOM.left := 250; DOM.top := 340;
               DOM.width := 40; DOM.height := 40 |};
     DOM.obstacleElements :=
       [{| DOM.left := 110; DOM.top := 120;
           DOM.width := 20; DOM.height := 40 |}] |}.

(** The same page before the game screen is there. *)
Definition emptyPage : DOM.Document R :=
  {| DOM.gameContainer := None;
     DOM.goalElement := None;
     DOM.obstacleElements := [] |}.

(** A [Math.random] that always draws one half. *)
Definition halves (k : nat) : R := / 2.

(** The controls of a phone that has granted the orientation sensor, and
    those of a desktop, both enabled. *)
Definition tiltControls : ControlsManager.t R :=
  {| ControlsManager.isEnabled := true;
     ControlsManager.isMobile := true;
     ControlsManager.hasOrientationPermission := true;
     ControlsManager.sensitivity_mobile := 0.8;
     ControlsManager.sensitivity_desktop := 1;
     ControlsManager.keys := fun _ => false;
     ControlsManager.orientation_alpha := 0;
     ControlsManager.orientation_beta := 0;
     ControlsManager.orientation_gamma := 0;
     ControlsManager.calibration_beta := 0;
     ControlsManager.calibration_gamma := 0;
     ControlsManager.calibration_isCalibrated := false |}.

Definition keyboardControls : ControlsManager.t R :=
  ControlsManager.onKeyDown (Some ControlsManager.ArrowRight)
    (ControlsManager.enable
       (ControlsManager.new false ControlsManager.available)).

End SampleEngine.

(** ** Runs of ticks, settings and hit events *)

Section RunVocabulary.
Context {num : Type} {N : Number num}.
Import PhysicsEngine.

(** What the engine does to the ball in one tick, before it looks for
    collisions: the force, then [update]. *)
Definition tick (force : num * num) (b : Ball.t num) : Ball.t num :=
  Ball.update (Ball.applyForce (fst force) (snd force) b).

Fixpoint ticks (forces : list (num * num)) (b : Ball.t num) : Ball.t num :=
  match forces with
  | [] => b
  | force :: forces => ticks forces (tick force b)
  end.

(** The fields of a ball that only the constructor and [updateBounds]
    write. *)
Definition sameSettings (b b' : Ball.t num) : Prop :=
  Ball.startX b' = Ball.startX b
  /\ Ball.startY b' = Ball.startY b
  /\ Ball.radius b' = Ball.radius b
  /\ Ball.friction b' = Ball.friction b
  /\ Ball.bounce b' = Ball.bounce b
  /\ Ball.maxSpeed b' = Ball.maxSpeed b
  /\ Ball.acceleration b' = Ball.acceleration b
  /\ Ball.bounds b' = Ball.bounds b.

Definition isObstacleHit (ev : Event num) : bool :=
  match ev with
  | obstacleHit _ => true
  | goalReached => false
  end.

(** How many times [obstacleHit] was dispatched so far. *)
Definition hitEvents (this : PhysicsEngine.t num) : nat :=
  length (filter isObstacleHit (dispatched this)).

(** [1] if one of two keys is held, else [0]. *)
Definition pressed (this : ControlsManager.t num)
    (k1 k2 : ControlsManager.Code) : num :=
  if ControlsManager.keys this k1 || ControlsManager.keys this k2
  then lit 1 else lit 0.

(** The sensitivity the engine uses, for the answer of its [isMobile]. *)
Definition engineSensitivity (userAgentMobile : bool)
    (this : PhysicsEngine.t num) : num :=
  if userAgentMobile then sensitivity_mobile this
  else sensitivity_desktop this.

(** The collision effects of the engine's ball so far. *)
Definition ballShakes (this : PhysicsEngine.t num) : nat :=
  match ball this with
  | Some b => Ball.shakes b
  | None => 0
  end.

End RunVocabulary.

(** * Properties *)

(** ** Comparisons and literals of the exact instance *)

Lemma Rltb_true (a b : R) : Rltb a b = true <-> (a < b)%R.
Proof.
  unfold Rltb; destruct (Rlt_dec a b); split; intros; try lra; discriminate.
Qed.

Lemma Rltb_false (a b : R) : Rltb a b = false <-> (b <= a)%R.
Proof.
  unfold Rltb; destruct (Rlt_dec a b); split; intros; try lra; discriminate.
Qed.

(** Splits on the first comparison the goal still branches on. *)
Ltac split_ltb :=
  match goal with
  | |- context [Rltb ?a ?b] =>
      let H := fresh "Hcmp" in
      destruct (Rltb a b) eqn:H;
      [apply Rltb_true in H | apply Rltb_false in H]
  end.

Section Binary64Literals.
Local Open Scope float_scope.
(** The literals of the two classes, as the doubles they denote. *)
Example literals_binary64 :
  (@lit float binary64 0.95 = 0x1.e666666666666p-1
   /\ @lit float binary64 0.7 = 0x1.6666666666666p-1
   /\ @lit float binary64 0.3 = 0x1.3333333333333p-2
   /\ @lit float binary64 0.1 = 0x1.999999999999ap-4
   /\ @lit float binary64 0.8 = 0x1.999999999999ap-1
   /\ @lit float binary64 8 = 8)%float.
Proof. vm_compute. repeat split. Qed.
End Binary64Literals.

(** ** The order of the steps of [update] *)

Section Stages.
Context {num : Type} {N : Number num}.
Local Open Scope num_scope.

Lemma update_stages (b : Ball.t num) :
  Ball.update b
  = microZero
      (Ball.updatePosition
         (Ball.checkBoundaryCollisions (integrate (applyFriction b)))).
Proof.
  unfold Ball.update, microZero, snap.
  set (c := Ball.updatePosition _).
  change (Ball.updatePosition
            (Ball.checkBoundaryCollisions (integrate (applyFriction b))))
    with c.
  destruct c as [? ? ? ? ? vx0 vy0 ? ? ? ? ? ? ? ? ?].
  unfold Ball.set_vx, Ball.set_vy; cbn.
  destruct (Math_abs vx0 <? lit 0.1); cbn;
    destruct (Math_abs vy0 <? lit 0.1); reflexivity.
Qed.
End Stages.

#[export] Instance real_irreflexive : IrreflexiveLt R.
Proof. intros a. apply Rltb_false. lra. Qed.

#[export] Instance binary64_irreflexive : IrreflexiveLt float.
Proof.
  intros a. cbn. rewrite FloatAxioms.ltb_spec. unfold SpecFloat.SFltb.
  destruct (FloatOps.Prim2SF a) as [s | s | | s m e]; cbn.
  - reflexivity.
  - destruct s; reflexivity.
  - reflexivity.
  - destruct s; rewrite Z.compare_refl, Pos.compare_cont_refl; reflexivity.
Qed.

(** ** Boundary containment *)

Section NoViolation.
Context {num : Type} {N : Number num} {I : IrreflexiveLt num}.
Local Open Scope num_scope.

Lemma checkBoundaryCollisions_clears (c : Ball.t num) :
  (Ball.right (Ball.bounds c) <? Ball.left (Ball.bounds c)) = false ->
  (Ball.bottom (Ball.bounds c) <? Ball.top (Ball.bounds c)) = false ->
  outOfBounds (Ball.checkBoundaryCollisions c) = false.
Proof.
  intros Hlr Htb.
  unfold Ball.checkBoundaryCollisions, outOfBounds.
  destruct (Ball.x c <? Ball.left (Ball.bounds c)) eqn:H1; cbn;
    [rewrite Hlr; cbn
    | destruct (Ball.x c >? Ball.right (Ball.bounds c)) eqn:H2; cbn];
    (destruct (Ball.y c <? Ball.top (Ball.bounds c)) eqn:H3; cbn;
     [rewrite Htb; cbn
     | destruct (Ball.y c >? Ball.bottom (Ball.bounds c)) eqn:H4; cbn]);
    destruct (Ball.isColliding c); cbn;
    rewrite ?ltb_irrefl, ?Hlr, ?Htb, ?H1, ?H2, ?H3, ?H4; reflexivity.
Qed.

(** After [update] no edge is violated, at every instance whose order is
    irreflexive, if the bounds do not cross. *)
Lemma update_clears (b : Ball.t num) :
  (Ball.right (Ball.bounds b) <? Ball.left (Ball.bounds b)) = false ->
  (Ball.bottom (Ball.bounds b) <? Ball.top (Ball.bounds b)) = false ->
  outOfBounds (Ball.update b) = false.
Proof.
  intros Hlr Htb. rewrite update_stages.
  apply (checkBoundaryCollisions_clears (integrate (applyFriction b)) Hlr Htb).
Qed.
End NoViolation.

Section Containment.
Local Open Scope R_scope.

(** In exact arithmetic: for every ball whose bounds are well formed
    ([left <= right] and [top <= bottom]), whatever its position and
    velocity, the position after [update] lies within the bounds on both
    axes. *)
Lemma update_within_bounds (b : Ball.t R) :
  Ball.left (Ball.bounds b) <= Ball.right (Ball.bounds b) ->
  Ball.top (Ball.bounds b) <= Ball.bottom (Ball.bounds b) ->
  let b' := Ball.update b in
  Ball.left (Ball.bounds b') <= Ball.x b' <= Ball.right (Ball.bounds b')
  /\ Ball.top (Ball.bounds b') <= Ball.y b' <= Ball.bottom (Ball.bounds b').
Proof.
  intros Hlr Htb b'.
  assert (Hclear : outOfBounds b' = false).
  { apply update_clears; apply Rltb_false; assumption. }
  unfold outOfBounds in Hclear.
  repeat (apply orb_false_iff in Hclear; destruct Hclear as [Hclear ?]).
  repeat match goal with
         | H : @ltb R real _ _ = false |- _ => apply (proj1 (Rltb_false _ _)) in H
         end.
  lra.
Qed.
End Containment.

(** ** Boundary containment on doubles *)

Section Position.
Context {num : Type} {N : Number num}.
Local Open Scope num_scope.

(** Where the boundary check leaves the ball: the position it found,
    moved to the left or top edge if it was before it, and then to the
    right or bottom edge if it is beyond it. *)
Lemma checkBoundaryCollisions_position (c : Ball.t num) :
  let x1 :=
    if Ball.x c <? Ball.left (Ball.bounds c) then Ball.left (Ball.bounds c)
    else Ball.x c in
  let y1 :=
    if Ball.y c <? Ball.top (Ball.bounds c) then Ball.top (Ball.bounds c)
    else Ball.y c in
  Ball.x (Ball.checkBoundaryCollisions c)
  = (if x1 >? Ball.right (Ball.bounds c) then Ball.right (Ball.bounds c)
     else x1)
  /\ Ball.y (Ball.checkBoundaryCollisions c)
     = (if y1 >? Ball.bottom (Ball.bounds c) then Ball.bottom (Ball.bounds c)
        else y1)
  /\ Ball.bounds (Ball.checkBoundaryCollisions c) = Ball.bounds c.
Proof.
  cbv zeta. unfold Ball.checkBoundaryCollisions.
  destruct (Ball.x c <? Ball.left (Ball.bounds c)); cbn;
    (destruct (_ >? Ball.right (Ball.bounds c)); cbn);
    (destruct (Ball.y c <? Ball.top (Ball.bounds c)); cbn);
    (destruct (_ >? Ball.bottom (Ball.bounds c)); cbn);
    destruct (Ball.isColliding c); repeat split.
Qed.

Lemma update_position (b : Ball.t num) :
  let c := integrate (applyFriction b) in
  Ball.x (Ball.update b) = Ball.x (Ball.checkBoundaryCollisions c)
  /\ Ball.y (Ball.update b) = Ball.y (Ball.checkBoundaryCollisions c)
  /\ Ball.bounds (Ball.update b) = Ball.bounds b.
Proof.
  cbv zeta. rewrite update_stages.
  destruct (checkBoundaryCollisions_position (integrate (applyFriction b)))
    as (_ & _ & Hb).
  unfold microZero, snap.
  repeat match goal with
         | |- context [if ?c then _ else _] => destruct c
         end; cbn; rewrite Hb; repeat split.
Qed.
End Position.

Section DoubleOrder.
Local Open Scope float_scope.

Lemma SFcompare_antisym (x y : SpecFloat.spec_float) :
  SpecFloat.SFcompare y x = option_map CompOpp (SpecFloat.SFcompare x y).
Proof.
  destruct x as [sx | sx | | sx mx ex], y as [sy | sy | | sy my ey];
    try destruct sx; try destruct sy; try reflexivity; cbn;
    rewrite (Z.compare_antisym ex ey);
    destruct (ex ?= ey)%Z; cbn; try reflexivity;
    rewrite (Pos.compare_cont_antisym mx my Eq); cbn;
    destruct (Pos.compare_cont Eq mx my); reflexivity.
Qed.

Lemma SFcompare_None (x y : SpecFloat.spec_float) :
  SpecFloat.SFcompare x y = None ->
  SpecFloat.SFcompare x x = None \/ SpecFloat.SFcompare y y = None.
Proof.
  destruct x as [sx | sx | | sx mx ex], y as [sy | sy | | sy my ey];
    try destruct sx; try destruct sy; cbn; auto; discriminate.
Qed.

Lemma is_nan_false (a : float) :
  is_nan a = false ->
  SpecFloat.SFcompare (Prim2SF a) (Prim2SF a) = Some Eq.
Proof.
  unfold is_nan. rewrite FloatAxioms.eqb_spec. unfold SpecFloat.SFeqb.
  destruct (SpecFloat.SFcompare _ _) as [[| |] |]; cbn; congruence.
Qed.

(** Between two doubles that are numbers, [a < b] is false only if
    [b <= a]. *)
Lemma ltb_false_leb (a b : float) :
  (a <? b) = false -> is_nan a = false -> is_nan b = false ->
  (b <=? a) = true.
Proof.
  rewrite FloatAxioms.ltb_spec, FloatAxioms.leb_spec.
  unfold SpecFloat.SFltb, SpecFloat.SFleb.
  intros Hlt Ha Hb. apply is_nan_false in Ha, Hb.
  rewrite SFcompare_antisym.
  destruct (SpecFloat.SFcompare (Prim2SF a) (Prim2SF b)) as [[| |] |] eqn:Hc;
    cbn; try reflexivity; try discriminate.
  destruct (SFcompare_None _ _ Hc); congruence.
Qed.

Lemma leb_numbers (a b : float) :
  (a <=? b) = true -> is_nan a = false /\ is_nan b = false.
Proof.
  rewrite FloatAxioms.leb_spec. unfold SpecFloat.SFleb, is_nan.
  rewrite !FloatAxioms.eqb_spec. unfold SpecFloat.SFeqb.
  destruct (Prim2SF a) as [sx | sx | | sx mx ex],
           (Prim2SF b) as [sy | sy | | sy my ey];
    cbn; try discriminate; intros _;
    rewrite ?Z.compare_refl, ?Pos.compare_cont_refl;
    try destruct sx; try destruct sy; cbn;
    rewrite ?Z.compare_refl, ?Pos.compare_cont_refl; auto.
Qed.

Lemma leb_refl (a : float) : is_nan a = false -> (a <=? a) = true.
Proof.
  intros Ha. apply is_nan_false in Ha.
  rewrite FloatAxioms.leb_spec. unfold SpecFloat.SFleb. now rewrite Ha.
Qed.

Lemma leb_ltb_false (a b : float) : (a <=? b) = true -> (b <? a) = false.
Proof.
  rewrite FloatAxioms.ltb_spec, FloatAxioms.leb_spec.
  unfold SpecFloat.SFltb, SpecFloat.SFleb.
  rewrite (SFcompare_antisym (Prim2SF a) (Prim2SF b)).
  destruct (SpecFloat.SFcompare (Prim2SF a) (Prim2SF b)) as [[| |] |];
    cbn; congruence.
Qed.

(** The two tests of one axis, on doubles: a number ends between the two
    edges. *)
Lemma edges_contain (lo hi v : float) :
  (lo <=? hi) = true -> is_nan v = false ->
  let v1 := if v <? lo then lo else v in
  let v2 := if hi <? v1 then hi else v1 in
  (lo <=? v2) = true /\ (v2 <=? hi) = true.
Proof.
  intros Hlh Hv.
  destruct (leb_numbers lo hi Hlh) as [Hlo Hhi].
  pose proof (leb_ltb_false lo hi Hlh) as Hcross.
  cbv zeta.
  destruct (v <? lo) eqn:H1.
  - rewrite Hcross. split; [now apply leb_refl | exact Hlh].
  - destruct (hi <? v) eqn:H2.
    + split; [exact Hlh | now apply leb_refl].
    + split; now apply ltb_false_leb.
Qed.

(** C1, amended. On the doubles the code computes with: for every ball
    whose bounds are well formed ([left <= right] and [top <= bottom]) and
    whose position after friction and integration is not NaN on either
    axis, infinite coordinates and velocities included, the position after
    [update] lies within the bounds on both axes. *)
Theorem update_within_bounds_binary64 (b : Ball.t float) :
  (Ball.left (Ball.bounds b) <=? Ball.right (Ball.bounds b)) = true ->
  (Ball.top (Ball.bounds b) <=? Ball.bottom (Ball.bounds b)) = true ->
  is_nan (Ball.x b + Ball.vx b * Ball.friction b) = false ->
  is_nan (Ball.y b + Ball.vy b * Ball.friction b) = false ->
  let b' := Ball.update b in
  ((Ball.left (Ball.bounds b') <=? Ball.x b') = true
   /\ (Ball.x b' <=? Ball.right (Ball.bounds b')) = true)
  /\ ((Ball.top (Ball.bounds b') <=? Ball.y b') = true
      /\ (Ball.y b' <=? Ball.bottom (Ball.bounds b')) = true).
Proof.
  intros Hlr Htb Hx Hy b'.
  destruct (update_position b) as (Hx' & Hy' & Hb').
  destruct (checkBoundaryCollisions_position (integrate (applyFriction b)))
    as (Hcx & Hcy & _).
  unfold b'. rewrite Hx', Hy', Hb', Hcx, Hcy.
  split.
  - apply (edges_contain (Ball.left (Ball.bounds b))
             (Ball.right (Ball.bounds b))
             (Ball.x b + Ball.vx b * Ball.friction b) Hlr Hx).
  - apply (edges_contain (Ball.top (Ball.bounds b))
             (Ball.bottom (Ball.bounds b))
             (Ball.y b + Ball.vy b * Ball.friction b) Htb Hy).
Qed.

(** The speed limit on doubles, where [applyForce] does not rescale: the
    velocity is the one the force has built, and its speed, if it is a
    number, is at most [maxSpeed]. *)
Lemma applyForce_unscaled_binary64 (b : Ball.t float) (forceX forceY : float) :
  let vx0 := Ball.vx b + forceX * Ball.acceleration b in
  let vy0 := Ball.vy b + forceY * Ball.acceleration b in
  let speed0 := PrimFloat.sqrt (vx0 * vx0 + vy0 * vy0) in
  (Ball.maxSpeed b <? speed0) = false ->
  is_nan speed0 = false -> is_nan (Ball.maxSpeed b) = false ->
  let b' := Ball.applyForce forceX forceY b in
  (Ball.vx b', Ball.vy b') = (vx0, vy0)
  /\ (speed b' <=? Ball.maxSpeed b') = true.
Proof.
  intros vx0 vy0 speed0 Hkeep Hs HM b'.
  assert (Hb' : b' = Ball.set_vy vy0 (Ball.set_vx vx0 b)).
  { unfold b', Ball.applyForce. cbn.
    fold vx0 vy0. fold speed0. now rewrite Hkeep. }
  rewrite Hb'. split; [reflexivity |].
  change ((speed0 <=? Ball.maxSpeed b) = true).
  now apply ltb_false_leb.
Qed.

(** At the rolling ball. *)
Lemma update_within_bounds_rolling_binary64 :
  let b' := Ball.update (@rollingBall float binary64) in
  ((Ball.left (Ball.bounds b') <=? Ball.x b') = true
   /\ (Ball.x b' <=? Ball.right (Ball.bounds b')) = true)
  /\ ((Ball.top (Ball.bounds b') <=? Ball.y b') = true
      /\ (Ball.y b' <=? Ball.bottom (Ball.bounds b')) = true).
Proof.
  apply (update_within_bounds_binary64 rollingBall); vm_compute; reflexivity.
Defined.

(** C1 fails as stated: a force of [Infinity] makes the velocity NaN (the
    clamp divides infinity by infinity), the next [update] makes the
    position NaN, and a NaN passes all four tests of the boundary check:
    the bounds are well formed and [left <= x] does not hold. *)
Lemma update_leaves_NaN_outside :
  let b := Ball.update (Ball.applyForce infinity 0 sampleBall) in
  (Ball.left (Ball.bounds b) <=? Ball.right (Ball.bounds b)) = true
  /\ (Ball.top (Ball.bounds b) <=? Ball.bottom (Ball.bounds b)) = true
  /\ is_nan (Ball.x b) = true
  /\ (Ball.left (Ball.bounds b) <=? Ball.x b) = false
  /\ (Ball.x b <=? Ball.right (Ball.bounds b)) = false.
Proof. vm_compute. repeat split. Qed.
End DoubleOrder.

(** ** The speed clamp of [applyForce] *)

Section SpeedClamp.
Local Open Scope R_scope.

Lemma norm_nonneg (v : R * R) : 0 <= norm v.
Proof. apply sqrt_pos. Qed.

Lemma norm_sqr (v : R * R) : norm v * norm v = fst v * fst v + snd v * snd v.
Proof. apply sqrt_sqrt; nra. Qed.

Lemma norm_rescaled (v : R * R) (M : R) :
  0 <= M -> M < norm v ->
  norm (fst v / norm v * M, snd v / norm v * M) = M.
Proof.
  intros HM Hlt.
  assert (Hs : 0 < norm v) by lra.
  unfold norm at 1; cbn [fst snd].
  replace (fst v / norm v * M * (fst v / norm v * M)
           + snd v / norm v * M * (snd v / norm v * M))
    with (M * M).
  - now apply sqrt_square.
  - transitivity ((fst v * fst v + snd v * snd v) / (norm v * norm v) * (M * M)).
    + rewrite <- norm_sqr. field. lra.
    + field. lra.
Qed.

Lemma applyForce_velocity (forceX forceY : R) (b : Ball.t R) :
  (Ball.vx (Ball.applyForce forceX forceY b),
   Ball.vy (Ball.applyForce forceX forceY b))
  = clamped (Ball.maxSpeed b) (preClamp forceX forceY b).
Proof.
  unfold Ball.applyForce, clamped, preClamp, norm; cbn.
  split_ltb; reflexivity.
Qed.

Lemma applyForce_frame (forceX forceY : R) (b : Ball.t R) :
  let b' := Ball.applyForce forceX forceY b in
  Ball.maxSpeed b' = Ball.maxSpeed b
  /\ Ball.acceleration b' = Ball.acceleration b
  /\ Ball.x b' = Ball.x b /\ Ball.y b' = Ball.y b.
Proof.
  unfold Ball.applyForce; cbn. split_ltb; cbn; auto.
Qed.

Lemma applyForce_frame_rest (forceX forceY : R) (b : Ball.t R) :
  let b' := Ball.applyForce forceX forceY b in
  Ball.friction b' = Ball.friction b
  /\ Ball.bounce b' = Ball.bounce b
  /\ Ball.bounds b' = Ball.bounds b
  /\ Ball.isColliding b' = Ball.isColliding b
  /\ Ball.shakes b' = Ball.shakes b.
Proof.
  unfold Ball.applyForce; cbn. split_ltb; cbn; auto.
Qed.

Lemma speed_norm (b : Ball.t R) : speed b = norm (Ball.vx b, Ball.vy b).
Proof. reflexivity. Qed.

(** C2, amended. In exact arithmetic: for every ball whose [maxSpeed] is
    not negative and every force [(forceX, forceY)], however large and of
    either sign, the speed [sqrt (vx * vx + vy * vy)] right after
    [applyForce] is at most [maxSpeed].  On doubles the rescaled
    components are rounded, and the speed computed from them can be the
    double above [maxSpeed]. *)
Theorem applyForce_speed_le_maxSpeed (b : Ball.t R) (forceX forceY : R) :
  0 <= Ball.maxSpeed b ->
  speed (Ball.applyForce forceX forceY b)
    <= Ball.maxSpeed (Ball.applyForce forceX forceY b).
Proof.
  intros HM.
  destruct (applyForce_frame forceX forceY b) as [-> _].
  rewrite speed_norm.
  rewrite applyForce_velocity. unfold clamped.
  destruct (Rltb (Ball.maxSpeed b) (norm (preClamp forceX forceY b))) eqn:Hc.
  - apply Rltb_true in Hc. rewrite norm_rescaled; lra.
  - apply Rltb_false in Hc. exact Hc.
Qed.

End SpeedClamp.

(** ** Applying a force twice *)

Section DoubleApplication.
Local Open Scope R_scope.

Lemma norm_bounds (v : R * R) (lo hi : R) :
  0 <= lo -> 0 <= hi ->
  lo * lo < fst v * fst v + snd v * snd v < hi * hi ->
  lo < norm v < hi.
Proof.
  intros Hlo Hhi Hsq.
  pose proof (norm_nonneg v) as Hn.
  pose proof (norm_sqr v) as Hs.
  split; nra.
Qed.

(** C4, amended. When the first of two equal forces leaves the ball within
    its speed limit (so that the first call does not rescale), the two
    calls leave the velocity that one call with the doubled force leaves. *)
Theorem applyForce_twice_unclamped (b : Ball.t R) (forceX forceY : R) :
  norm (preClamp forceX forceY b) <= Ball.maxSpeed b ->
  let twice := Ball.applyForce forceX forceY (Ball.applyForce forceX forceY b) in
  let once := Ball.applyForce (2 * forceX) (2 * forceY) b in
  Ball.vx twice = Ball.vx once /\ Ball.vy twice = Ball.vy once.
Proof.
  intros Hle twice once.
  assert (Heq : (Ball.vx twice, Ball.vy twice) = (Ball.vx once, Ball.vy once)).
  { unfold twice, once. rewrite !applyForce_velocity.
    destruct (applyForce_frame forceX forceY b) as (-> & Ha & _).
    f_equal.
    unfold preClamp at 1. rewrite Ha.
    pose proof (applyForce_velocity forceX forceY b) as H1.
    unfold clamped in H1.
    apply Rltb_false in Hle. rewrite Hle in H1.
    injection H1 as -> ->.
    unfold preClamp; cbn [fst snd]. f_equal; ring. }
  now injection Heq.
Qed.

(** C4 fails as stated: a ball rolling at [(7, 0)] receives the force
    [(0, 80)] twice.  The first call reaches [(7, 24)], of speed [25], and
    rescales it; the second call starts from the rescaled vector and ends
    below [0.6] in [vx].  One call with [(0, 160)] reaches [(7, 48)] and
    ends above [1]. *)
Lemma applyForce_twice_differs :
  Ball.vx (Ball.applyForce 0 80 (Ball.applyForce 0 80 rollingBall))
  < Ball.vx (Ball.applyForce (2 * 0) (2 * 80) rollingBall).
Proof.
  assert (Hacc : Ball.acceleration (@rollingBall R real) = 3 / 10)
    by (cbn; unfold Q2R; cbn; lra).
  assert (HM : Ball.maxSpeed (@rollingBall R real) = 8)
    by (cbn; unfold Q2R; cbn; lra).
  assert (Hvx : Ball.vx (@rollingBall R real) = 7)
    by (cbn; unfold Q2R; cbn; lra).
  assert (Hvy : Ball.vy (@rollingBall R real) = 0)
    by (cbn; unfold Q2R; cbn; lra).
  (* the first call *)
  assert (H1 : (Ball.vx (Ball.applyForce 0 80 rollingBall),
                Ball.vy (Ball.applyForce 0 80 rollingBall))
               = (7 / 25 * 8, 24 / 25 * 8)).
  { rewrite applyForce_velocity. unfold preClamp.
    rewrite Hacc, HM, Hvx, Hvy.
    replace (7 + 0 * (3 / 10), 0 + 80 * (3 / 10)) with (7, 24)
      by (f_equal; lra).
    assert (Hn : norm (7, 24) = 25).
    { unfold norm; cbn [fst snd].
      replace (7 * 7 + 24 * 24) with (25 * 25) by lra.
      apply sqrt_square; lra. }
    unfold clamped. rewrite Hn.
    assert (Hc : Rltb 8 25 = true) by (apply Rltb_true; lra).
    now rewrite Hc. }
  injection H1 as H1x H1y.
  destruct (applyForce_frame 0 80 rollingBall) as (HM1 & Ha1 & _).
  (* the second call *)
  assert (H2 : Ball.vx (Ball.applyForce 0 80 (Ball.applyForce 0 80 rollingBall))
               < 6 / 10).
  { change (fst (Ball.vx (Ball.applyForce 0 80 (Ball.applyForce 0 80 rollingBall)),
                 Ball.vy (Ball.applyForce 0 80 (Ball.applyForce 0 80 rollingBall)))
            < 6 / 10).
    rewrite applyForce_velocity. unfold preClamp.
    rewrite HM1, Ha1, H1x, H1y, Hacc, HM.
    set (v := (7 / 25 * 8 + 0 * (3 / 10), 24 / 25 * 8 + 80 * (3 / 10))).
    destruct (norm_bounds v 30 32) as [Hlo Hhi]; [lra | lra | cbn; lra |].
    unfold clamped.
    assert (Hc : Rltb 8 (norm v) = true) by (apply Rltb_true; lra).
    rewrite Hc. unfold v at 1. cbn [fst snd].
    apply Rmult_lt_reg_r with (r := norm v); [lra |].
    replace ((7 / 25 * 8 + 0 * (3 / 10)) / norm v * 8 * norm v)
      with (7 / 25 * 8 * 8) by (field; lra).
    lra. }
  (* one call with the doubled force *)
  assert (H3 : 1 < Ball.vx (Ball.applyForce (2 * 0) (2 * 80) rollingBall)).
  { change (1 < fst (Ball.vx (Ball.applyForce (2 * 0) (2 * 80) rollingBall),
                     Ball.vy (Ball.applyForce (2 * 0) (2 * 80) rollingBall))).
    rewrite applyForce_velocity. unfold preClamp.
    rewrite Hacc, HM, Hvx, Hvy.
    set (v := (7 + 2 * 0 * (3 / 10), 0 + 2 * 80 * (3 / 10))).
    destruct (norm_bounds v 48 50) as [Hlo Hhi]; [lra | lra | cbn; lra |].
    unfold clamped.
    assert (Hc : Rltb 8 (norm v) = true) by (apply Rltb_true; lra).
    rewrite Hc. unfold v at 1. cbn [fst snd].
    apply Rmult_lt_reg_r with (r := norm v); [lra |].
    replace ((7 + 2 * 0 * (3 / 10)) / norm v * 8 * norm v)
      with (7 * 8) by (field; lra).
    lra. }
  lra.
Qed.
End DoubleApplication.

(** ** Queries *)

Section Queries.
Context {num : Type} {N : Number num}.

(** C10. [checkObstacleCollision] and [checkGoalCollision] only read the
    ball: for every ball, obstacle and goal, the ball after the call is the
    ball before it, so position, velocity, radius, bounds and the
    [isColliding] flag are what they were. *)
Theorem collision_queries_are_pure
    (b : Ball.t num) (obstacle : Obstacle.t num) (goal : Goal.t num) :
  let afterObstacle := snd (Ball.checkObstacleCollision obstacle b) in
  let afterGoal := snd (Ball.checkGoalCollision goal b) in
  (afterObstacle = b /\ afterGoal = b)
  /\ (Ball.getPosition afterObstacle = Ball.getPosition b
      /\ Ball.vx afterObstacle = Ball.vx b
      /\ Ball.vy afterObstacle = Ball.vy b
      /\ Ball.bounds afterObstacle = Ball.bounds b
      /\ Ball.isColliding afterObstacle = Ball.isColliding b)
  /\ (Ball.getPosition afterGoal = Ball.getPosition b
      /\ Ball.vx afterGoal = Ball.vx b
      /\ Ball.vy afterGoal = Ball.vy b
      /\ Ball.bounds afterGoal = Ball.bounds b
      /\ Ball.isColliding afterGoal = Ball.isColliding b).
Proof.
  unfold Ball.checkObstacleCollision, Ball.checkGoalCollision.
  cbn [snd]. repeat split.
Qed.
End Queries.

(** ** The goal and the obstacles, in exact arithmetic *)

Section Geometry.
Local Open Scope R_scope.

Lemma checkGoalCollision_distance (b : Ball.t R) (g : Goal.t R) :
  fst (Ball.checkGoalCollision g b)
  = Rltb (distance (center b) (goalCenter g)) (Ball.radius b + Goal.radius g).
Proof. reflexivity. Qed.

(** C7, amended. In exact arithmetic: [checkGoalCollision] answers
    [true] exactly when the distance between the two centres is strictly
    below [radius + goal.radius]: it answers [true] at distance
    [radius + goal.radius - 1] and [false] at distance
    [radius + goal.radius].  On doubles the distance it compares is the
    rounded square root of the rounded sum of squares. *)
Theorem checkGoalCollision_strict (b : Ball.t R) (g : Goal.t R) :
  let d := distance (center b) (goalCenter g) in
  let hit := fst (Ball.checkGoalCollision g b) in
  (hit = true <-> d < Ball.radius b + Goal.radius g)
  /\ (d = Ball.radius b + Goal.radius g - 1 -> hit = true)
  /\ (d = Ball.radius b + Goal.radius g -> hit = false).
Proof.
  intros d hit. unfold hit. rewrite checkGoalCollision_distance. fold d.
  split; [apply Rltb_true | split; intros Hd].
  - apply Rltb_true. lra.
  - apply Rltb_false. lra.
Qed.

(** C6. When the centre of the ball is the centre of the obstacle's
    rectangle, [handleObstacleCollision] leaves position and velocity as
    they are; the call completes and triggers the collision effect. *)
Theorem handleObstacleCollision_at_center
    (b : Ball.t R) (o : Obstacle.t R) :
  center b = obstacleCenter o ->
  let b' := Ball.handleObstacleCollision o b in
  Ball.x b' = Ball.x b /\ Ball.y b' = Ball.y b
  /\ Ball.vx b' = Ball.vx b /\ Ball.vy b' = Ball.vy b
  /\ Ball.shakes b' = S (Ball.shakes b).
Proof.
  intros Hc. injection Hc as Hx Hy.
  unfold Ball.handleObstacleCollision; cbn.
  split_ltb; cbn; [exfalso | repeat split].
  match type of Hcmp with
  | _ < R_sqrt.sqrt ?e =>
      replace e with 0 in Hcmp
        by (rewrite Hx, Hy; unfold Q2R; cbn; field)
  end.
  rewrite sqrt_0 in Hcmp. unfold Q2R in Hcmp; cbn in Hcmp. lra.
Qed.
End Geometry.

(** ** Force, then update *)

Section Scenario.
Local Open Scope R_scope.

Lemma norm_axis (a : R) : 0 <= a -> norm (a, 0) = a.
Proof.
  intros Ha. unfold norm; cbn [fst snd].
  replace (a * a + 0 * 0) with (a * a) by ring.
  now apply sqrt_square.
Qed.

Lemma checkBoundaryCollisions_inside (c : Ball.t R) :
  Ball.left (Ball.bounds c) <= Ball.x c <= Ball.right (Ball.bounds c) ->
  Ball.top (Ball.bounds c) <= Ball.y c <= Ball.bottom (Ball.bounds c) ->
  Ball.checkBoundaryCollisions c = Ball.set_isColliding false c.
Proof.
  intros Hx Hy. unfold Ball.checkBoundaryCollisions.
  assert (H1 : Rltb (Ball.x c) (Ball.left (Ball.bounds c)) = false)
    by (apply Rltb_false; lra).
  assert (H2 : Rltb (Ball.right (Ball.bounds c)) (Ball.x c) = false)
    by (apply Rltb_false; lra).
  assert (H3 : Rltb (Ball.y c) (Ball.top (Ball.bounds c)) = false)
    by (apply Rltb_false; lra).
  assert (H4 : Rltb (Ball.bottom (Ball.bounds c)) (Ball.y c) = false)
    by (apply Rltb_false; lra).
  cbn. rewrite H1, H2, H3, H4. reflexivity.
Qed.

(** C8. With [acceleration = 0.3] and [friction = 0.95], a ball at rest
    inside the bounds that receives [applyForce(1, 0)] has velocity
    [(0.3, 0)]; the [update] that follows leaves velocity [(0.285, 0)] and
    moves the ball by [0.285] along x and not at all along y.  [update] is
    friction, then integration, then the boundary check, then the snap to
    zero of components below [0.1], in this order. *)
Theorem force_then_update_scenario (b : Ball.t R) :
  Ball.acceleration b = 0.3 ->
  Ball.friction b = 0.95 ->
  0.3 <= Ball.maxSpeed b ->
  Ball.vx b = 0 -> Ball.vy b = 0 ->
  Ball.left (Ball.bounds b) <= Ball.x b ->
  Ball.x b + 0.285 <= Ball.right (Ball.bounds b) ->
  Ball.top (Ball.bounds b) <= Ball.y b <= Ball.bottom (Ball.bounds b) ->
  let b1 := Ball.applyForce 1 0 b in
  let b2 := Ball.update b1 in
  (Ball.vx b1 = 0.3 /\ Ball.vy b1 = 0)
  /\ (Ball.vx b2 = 0.285 /\ Ball.vy b2 = 0)
  /\ (Ball.x b2 = Ball.x b + 0.285 /\ Ball.y b2 = Ball.y b)
  /\ (forall c : Ball.t R,
        Ball.update c
        = microZero
            (Ball.updatePosition
               (Ball.checkBoundaryCollisions (integrate (applyFriction c))))).
Proof.
  intros Hacc Hfr HM Hvx Hvy Hl Hr [Ht Hb] b1 b2.
  assert (H1 : (Ball.vx b1, Ball.vy b1) = (0.3, 0)).
  { unfold b1. rewrite applyForce_velocity. unfold preClamp.
    rewrite Hacc, Hvx, Hvy.
    replace (0 + 1 * 0.3, 0 + 0 * 0.3) with (0.3, 0) by (f_equal; lra).
    unfold clamped. rewrite norm_axis by lra.
    apply Rltb_false in HM. now rewrite HM. }
  injection H1 as H1x H1y.
  destruct (applyForce_frame 1 0 b) as (_ & _ & Hx1 & Hy1).
  destruct (applyForce_frame_rest 1 0 b) as (Hf1 & _ & Hb1 & _).
  fold b1 in Hx1, Hy1, Hf1, Hb1.
  split; [now split |].
  assert (Hsnap1 : @snap R real (0.3 * 0.95) = 0.3 * 0.95).
  { unfold snap; cbn. split_ltb; [| reflexivity].
    unfold Q2R in Hcmp; cbn in Hcmp.
    rewrite Rabs_pos_eq in Hcmp; lra. }
  assert (Hsnap0 : @snap R real (0 * 0.95) = 0).
  { unfold snap; cbn. split_ltb; unfold Q2R; cbn; lra. }
  set (c := integrate (applyFriction b1)).
  assert (Hc : Ball.checkBoundaryCollisions c = Ball.set_isColliding false c).
  { apply checkBoundaryCollisions_inside; unfold c; cbn;
      rewrite ?Hx1, ?Hy1, ?Hf1, ?Hb1, ?H1x, ?H1y, ?Hfr; lra. }
  unfold b2. rewrite (update_stages b1). fold c. rewrite Hc.
  unfold microZero, c; cbn.
  rewrite Hx1, Hy1, Hf1, H1x, H1y, Hfr, Hsnap1, Hsnap0.
  repeat split; try reflexivity; try lra.
  exact update_stages.
Qed.
End Scenario.

(** ** The collision flag and its effect *)

Section CollisionFlag.
Context {num : Type} {N : Number num}.
Local Open Scope num_scope.

Lemma checkBoundaryCollisions_flag (b : Ball.t num) :
  Ball.isColliding (Ball.checkBoundaryCollisions b) = outOfBounds b
  /\ Ball.shakes (Ball.checkBoundaryCollisions b)
     = (Ball.shakes b + fires (Ball.isColliding b) (outOfBounds b))%nat.
Proof.
  unfold Ball.checkBoundaryCollisions, outOfBounds, fires.
  destruct (Ball.x b <? Ball.left (Ball.bounds b)) eqn:H1; cbn;
    [destruct (Ball.left (Ball.bounds b) >? Ball.right (Ball.bounds b)); cbn
    | destruct (Ball.x b >? Ball.right (Ball.bounds b)) eqn:H2; cbn];
    (destruct (Ball.y b <? Ball.top (Ball.bounds b)) eqn:H3; cbn;
     [destruct (Ball.top (Ball.bounds b) >? Ball.bottom (Ball.bounds b)); cbn
     | destruct (Ball.y b >? Ball.bottom (Ball.bounds b)) eqn:H4; cbn]);
    destruct (Ball.isColliding b); cbn; split; first [reflexivity | lia].
Qed.

Lemma update_flag (b : Ball.t num) :
  Ball.isColliding (Ball.update b) = violation b
  /\ Ball.shakes (Ball.update b)
     = (Ball.shakes b + fires (Ball.isColliding b) (violation b))%nat.
Proof.
  rewrite update_stages. unfold violation.
  destruct (checkBoundaryCollisions_flag (integrate (applyFriction b)))
    as [Hflag Hshakes].
  split.
  - rewrite <- Hflag. reflexivity.
  - change (Ball.shakes b) with (Ball.shakes (integrate (applyFriction b))).
    change (Ball.isColliding b)
      with (Ball.isColliding (integrate (applyFriction b))).
    rewrite <- Hshakes. reflexivity.
Qed.

Lemma last_cons (v d : bool) (l : list bool) : last (v :: l) d = last l v.
Proof.
  revert v d; induction l as [| a l IH]; intros v d; [reflexivity |].
  change (last (v :: a :: l) d) with (last (a :: l) d).
  now rewrite !IH.
Qed.

Lemma risingEdges_episodes (l : list bool) (was : bool) :
  (risingEdges was l + (if was && hd false l then 1 else 0))%nat = episodes l.
Proof.
  revert was; induction l as [| v l IH]; intros was; cbn.
  - now rewrite andb_false_r.
  - specialize (IH v). destruct v, was; cbn in *;
      destruct l as [| [|] l]; cbn in *; lia.
Qed.

(** C5. Over any number of [update] calls the boundary effect is
    triggered exactly in the ticks that violate an edge while the flag
    [isColliding] is down, and the flag after a tick says whether the tick
    violated an edge: it goes up on the first violating tick of an episode,
    stays up without a new effect while the violations continue, and is
    down again after the first tick without violation.  For a run that
    starts with the flag down, the effects are as many as the episodes. *)
Theorem boundary_effect_once_per_episode (n : nat) (b : Ball.t num) :
  (Ball.isColliding (Ball.update b) = violation b
   /\ Ball.shakes (Ball.update b)
      = (Ball.shakes b + fires (Ball.isColliding b) (violation b))%nat)
  /\ Ball.isColliding (updates n b)
     = last (violations n b) (Ball.isColliding b)
  /\ Ball.shakes (updates n b)
     = (Ball.shakes b + risingEdges (Ball.isColliding b) (violations n b))%nat
  /\ (Ball.isColliding b = false ->
      Ball.shakes (updates n b)
      = (Ball.shakes b + episodes (violations n b))%nat).
Proof.
  split; [apply update_flag |].
  assert (Hrun : forall m c,
             Ball.isColliding (updates m c)
             = last (violations m c) (Ball.isColliding c)
             /\ Ball.shakes (updates m c)
                = (Ball.shakes c
                   + risingEdges (Ball.isColliding c) (violations m c))%nat).
  { induction m as [| m IH]; intros c; cbn [updates violations risingEdges].
    - split; [reflexivity | lia].
    - destruct (IH (Ball.update c)) as [Hf Hs].
      destruct (update_flag c) as [Hf1 Hs1].
      rewrite Hf, Hs, Hf1, Hs1, last_cons. split; [reflexivity | lia]. }
  destruct (Hrun n b) as [Hf Hs].
  split; [exact Hf | split; [exact Hs |]].
  intros Hdown. rewrite Hs, Hdown.
  pose proof (risingEdges_episodes (violations n b) false) as He.
  cbn in He. lia.
Qed.
End CollisionFlag.

(** ** Reaching the goal *)

Section GoalReached.
Context {num : Type} {N : Number num}.
Variables Math_sin Math_cos : num -> num.

Import PhysicsEngine.

Local Notation "'game'" := TiltRunnerGame.listeners.
Local Notation "'engineUpdate'" := (PhysicsEngine.update Math_sin Math_cos).
Local Notation "'engineStart'" := (PhysicsEngine.start Math_sin Math_cos).
Local Notation "'engineRunFrame'" :=
  (PhysicsEngine.runFrame Math_sin Math_cos).

Lemma sameLoop_refl (this : PhysicsEngine.t num) : sameLoop this this.
Proof. repeat split. Qed.

Lemma sameLoop_trans (a b c : PhysicsEngine.t num) :
  sameLoop a b -> sameLoop b c -> sameLoop a c.
Proof.
  unfold sameLoop; intros (-> & -> & -> & ->) (-> & -> & -> & ->).
  repeat split.
Qed.

Section AnyListeners.
(** Listeners that leave the loop alone when an obstacle is hit. *)
Variable listeners : Event num -> PhysicsEngine.t num -> PhysicsEngine.t num.
Hypothesis obstacleHit_sameLoop :
  forall obstacle this, sameLoop this (listeners (obstacleHit obstacle) this).

Lemma onObstacleHit_sameLoop (obstacle : Obstacle.t num)
    (this : PhysicsEngine.t num) :
  sameLoop this (onObstacleHit listeners obstacle this).
Proof.
  unfold onObstacleHit, dispatchEvent.
  eapply sameLoop_trans; [| apply obstacleHit_sameLoop].
  repeat split.
Qed.

Lemma forEachObstacle_sameLoop (array : list (Obstacle.t num))
    (this : PhysicsEngine.t num) :
  sameLoop this (forEachObstacle listeners array this).
Proof.
  revert this; induction array as [| obstacle array IH]; intros this.
  - apply sameLoop_refl.
  - cbn [forEachObstacle fold_left].
    eapply sameLoop_trans; [| apply IH].
    destruct (ball this) as [b |]; [| apply sameLoop_refl].
    destruct (Ball.checkObstacleCollision obstacle b) as [[|] b'].
    + eapply sameLoop_trans; [| apply onObstacleHit_sameLoop].
      repeat split.
    + apply sameLoop_refl.
Qed.

(** A tick of a running engine either reports the goal, through
    [onGoalReached] as its last act before it asks for the next frame, or
    leaves the loop as it was but for that frame. *)
Lemma update_running (currentTime now : num) (this : PhysicsEngine.t num) :
  isRunning this = true ->
  exists mid : PhysicsEngine.t num,
    sameLoop this mid
    /\ (engineUpdate listeners currentTime now this
        = requestAnimationFrame mid
        \/ engineUpdate listeners currentTime now this
           = requestAnimationFrame (onGoalReached listeners mid)).
Proof.
  intros Hrun. unfold PhysicsEngine.update. rewrite Hrun. cbn [negb].
  set (moved := updateMovingObstacles Math_sin Math_cos now _).
  assert (Hmoved : sameLoop this moved) by repeat split.
  destruct (ball moved) as [b |] eqn:Hball; [| eauto].
  set (withBall := set_ball _ moved).
  assert (HwithBall : sameLoop this withBall) by repeat split.
  unfold checkCollisions.
  change (ball withBall) with
    (Some (Ball.update
             (Ball.applyForce (gravity_x moved) (gravity_y moved) b))).
  cbv iota beta.
  set (checked := forEachObstacle listeners (obstacles withBall) withBall).
  assert (Hchecked : sameLoop this checked).
  { eapply sameLoop_trans; [exact HwithBall |].
    apply forEachObstacle_sameLoop. }
  destruct (goal checked) as [g |]; [| eauto].
  destruct (ball checked) as [b' |]; [| eauto].
  destruct (Ball.checkGoalCollision g b') as [[|] ?]; eauto.
Qed.
End AnyListeners.

Lemma game_obstacleHit_sameLoop (obstacle : Obstacle.t num)
    (this : PhysicsEngine.t num) :
  sameLoop this (game (obstacleHit obstacle) this).
Proof. apply sameLoop_refl. Qed.

Lemma noListeners_obstacleHit_sameLoop (obstacle : Obstacle.t num)
    (this : PhysicsEngine.t num) :
  sameLoop this (noListeners (obstacleHit obstacle) this).
Proof. apply sameLoop_refl. Qed.

Lemma goalEvents_onGoalReached_game (this : PhysicsEngine.t num) :
  isRunning (onGoalReached game this) = false
  /\ pendingFrames (onGoalReached game this) = pendingFrames this
  /\ goalEvents (onGoalReached game this) = S (goalEvents this).
Proof.
  unfold onGoalReached, dispatchEvent.
  destruct (goal this); repeat split.
Qed.

Lemma goalEvents_onGoalReached_noListeners (this : PhysicsEngine.t num) :
  isRunning (onGoalReached noListeners this) = isRunning this
  /\ pendingFrames (onGoalReached noListeners this) = pendingFrames this
  /\ goalEvents (onGoalReached noListeners this) = S (goalEvents this).
Proof.
  unfold onGoalReached, dispatchEvent.
  destruct (goal this); repeat split.
Qed.

Lemma update_stopped
    (listeners : Event num -> PhysicsEngine.t num -> PhysicsEngine.t num)
    (currentTime now : num) (this : PhysicsEngine.t num) :
  isRunning this = false ->
  engineUpdate listeners currentTime now this = this.
Proof. intros H. unfold PhysicsEngine.update. now rewrite H. Qed.

(** A tick of the running engine that dispatches [goalReached] leaves the
    engine stopped by the game's listener, with the next frame asked for;
    from then on [update] returns at once, until [start()]. *)
Lemma dispatch_stops_loop
    (currentTime now : num) (this : PhysicsEngine.t num) :
  isRunning this = true ->
  let after := engineUpdate game currentTime now this in
  (goalEvents this < goalEvents after)%nat ->
  isRunning after = false
  /\ pendingFrames after = S (pendingFrames this)
  /\ (forall t1 t2, engineUpdate game t1 t2 after = after)
  /\ (forall t1 t2,
        engineRunFrame game t1 t2 after
        = set_pendingFrames (pendingFrames this) after)
  /\ (forall t0 t1 t2,
        pendingFrames (engineStart game t0 t1 t2 after)
        = S (pendingFrames after))
  /\ isRunning (engineUpdate noListeners currentTime now this) = true.
Proof.
  intros Hrun after Hgoal.
  assert (Hstopped : isRunning after = false
                     /\ pendingFrames after = S (pendingFrames this)).
  { destruct (update_running game game_obstacleHit_sameLoop
                currentTime now this Hrun)
      as (mid & (Hr & Hp & He & _) & [Hafter | Hafter]);
      fold after in Hafter.
    - exfalso. rewrite Hafter in Hgoal.
      change (goalEvents (requestAnimationFrame mid))
        with (goalEvents mid) in Hgoal. lia.
    - destruct (goalEvents_onGoalReached_game mid) as (Hr' & Hp' & _).
      rewrite Hafter. split.
      + exact Hr'.
      + change (S (pendingFrames (onGoalReached game mid))
                = S (pendingFrames this)).
        now rewrite Hp', Hp. }
  destruct Hstopped as [Hoff Hframes].
  repeat split; try assumption.
  - intros t1 t2. now apply update_stopped.
  - intros t1 t2. unfold PhysicsEngine.runFrame. rewrite Hframes.
    now apply update_stopped.
  - intros t0 t1 t2. unfold PhysicsEngine.start.
    set (restarted := set_times t0 _ (set_isRunning true after)).
    destruct (update_running game game_obstacleHit_sameLoop
                t1 t2 restarted eq_refl)
      as (mid & (_ & Hp & _) & [-> | ->]).
    + change (S (pendingFrames mid) = S (pendingFrames after)).
      now rewrite Hp.
    + destruct (goalEvents_onGoalReached_game mid) as (_ & Hp' & _).
      change (S (pendingFrames (onGoalReached game mid))
              = S (pendingFrames after)).
      now rewrite Hp', Hp.
  - destruct (update_running noListeners noListeners_obstacleHit_sameLoop
                currentTime now this Hrun)
      as (mid & (Hr & _) & [-> | ->]).
    + change (isRunning mid = true). now rewrite Hr.
    + destruct (goalEvents_onGoalReached_noListeners mid) as (Hr' & _).
      change (isRunning (onGoalReached noListeners mid) = true).
      now rewrite Hr', Hr.
Qed.

(** A tick of a running engine is the way to the goal test, the report if
    the test finds the ball on the goal, and the request of a frame. *)
Lemma update_at_goal_test
    (listeners : Event num -> PhysicsEngine.t num -> PhysicsEngine.t num)
    (currentTime now : num) (this : PhysicsEngine.t num) :
  isRunning this = true ->
  engineUpdate listeners currentTime now this
  = requestAnimationFrame
      (let test :=
         atGoalTest Math_sin Math_cos listeners currentTime now this in
       if detectsGoal test then onGoalReached listeners test else test).
Proof.
  intros Hrun. unfold PhysicsEngine.update, atGoalTest. rewrite Hrun.
  cbn [negb]. cbv zeta.
  set (moved := updateMovingObstacles Math_sin Math_cos now _).
  destruct (ball moved) as [b |] eqn:Hball.
  - set (withBall := set_ball _ moved).
    unfold checkCollisions, detectsGoal.
    change (ball withBall) with
      (Some (Ball.update
               (Ball.applyForce (gravity_x moved) (gravity_y moved) b))).
    cbv iota beta.
    set (checked := forEachObstacle listeners (obstacles withBall) withBall).
    destruct (goal checked) as [g |]; [| reflexivity].
    destruct (ball checked) as [b' |]; [| reflexivity].
    destruct (Ball.checkGoalCollision g b') as [[|] ?]; reflexivity.
  - unfold detectsGoal. rewrite Hball.
    destruct (goal moved); reflexivity.
Qed.

Lemma atGoalTest_sameLoop (currentTime now : num)
    (this : PhysicsEngine.t num) :
  sameLoop this (atGoalTest Math_sin Math_cos game currentTime now this).
Proof.
  unfold atGoalTest.
  set (moved := updateMovingObstacles Math_sin Math_cos now _).
  assert (Hmoved : sameLoop this moved) by repeat split.
  destruct (ball moved) as [b |]; [| exact Hmoved].
  eapply sameLoop_trans;
    [| apply forEachObstacle_sameLoop; apply game_obstacleHit_sameLoop].
  repeat split.
Qed.

(** Nobody listening or the game listening, the goal test finds the same
    engine: the game's listener of [obstacleHit] leaves the engine alone. *)
Lemma atGoalTest_noListeners (currentTime now : num)
    (this : PhysicsEngine.t num) :
  atGoalTest Math_sin Math_cos noListeners currentTime now this
  = atGoalTest Math_sin Math_cos game currentTime now this.
Proof. reflexivity. Qed.

(** Without a detection the tick reports nothing and the engine goes on. *)
Lemma update_without_detection
    (currentTime now : num) (this : PhysicsEngine.t num) :
  isRunning this = true ->
  detectsGoal (atGoalTest Math_sin Math_cos game currentTime now this)
  = false ->
  let after := engineUpdate game currentTime now this in
  goalEvents after = goalEvents this
  /\ isRunning after = true
  /\ pendingFrames after = S (pendingFrames this).
Proof.
  intros Hrun Hmiss after. unfold after.
  rewrite update_at_goal_test by exact Hrun. cbv zeta. rewrite Hmiss.
  destruct (atGoalTest_sameLoop currentTime now this) as (Hr & Hp & He & _).
  set (test := atGoalTest Math_sin Math_cos game currentTime now this) in *.
  change (goalEvents test = goalEvents this
          /\ isRunning test = true
          /\ S (pendingFrames test) = S (pendingFrames this)).
  rewrite Hr, Hp, He. auto.
Qed.

(** C3, amended. When the goal test of a tick of the running engine finds
    the ball on the goal, the engine dispatches [goalReached] once, and its
    own code leaves [isRunning] as it is and asks for the next frame: on a
    document without listeners the engine is still running after the
    tick.  In the game the listener registered for [goalReached] calls
    [stop()] before [dispatchEvent] returns.  From then on [update] returns
    at once, so the frame that is still pending runs no tick and asks for
    no other, until [start()] sets the engine running again. *)
Theorem goalReached_stops_through_listener
    (currentTime now : num) (this : PhysicsEngine.t num) :
  isRunning this = true ->
  detectsGoal (atGoalTest Math_sin Math_cos game currentTime now this)
  = true ->
  let after := engineUpdate game currentTime now this in
  let alone := engineUpdate noListeners currentTime now this in
  (goalEvents after = S (goalEvents this)
   /\ isRunning after = false
   /\ pendingFrames after = S (pendingFrames this))
  /\ (forall t1 t2, engineUpdate game t1 t2 after = after)
  /\ (forall t1 t2,
        engineRunFrame game t1 t2 after
        = set_pendingFrames (pendingFrames this) after)
  /\ (forall t0 t1 t2,
        pendingFrames (engineStart game t0 t1 t2 after)
        = S (pendingFrames after))
  /\ (goalEvents alone = S (goalEvents this)
      /\ isRunning alone = true
      /\ pendingFrames alone = S (pendingFrames this)).
Proof.
  intros Hrun Hdet after alone.
  destruct (atGoalTest_sameLoop currentTime now this) as (Hr & Hp & He & _).
  assert (Hevents : goalEvents after = S (goalEvents this)).
  { unfold after. rewrite update_at_goal_test by exact Hrun.
    cbv zeta. rewrite Hdet.
    set (test := atGoalTest Math_sin Math_cos game currentTime now this) in *.
    destruct (goalEvents_onGoalReached_game test) as (_ & _ & He').
    change (goalEvents (onGoalReached game test) = S (goalEvents this)).
    now rewrite He', He. }
  destruct (dispatch_stops_loop currentTime now this Hrun)
    as (Hoff & Hframes & Hidle & Hframe & Hstart & _).
  { fold after. rewrite Hevents. lia. }
  fold after in Hoff, Hframes, Hidle, Hframe, Hstart.
  split; [repeat split; assumption |].
  split; [exact Hidle |]. split; [exact Hframe |]. split; [exact Hstart |].
  unfold alone. rewrite update_at_goal_test by exact Hrun.
  cbv zeta. rewrite atGoalTest_noListeners, Hdet.
  set (test := atGoalTest Math_sin Math_cos game currentTime now this) in *.
  destruct (goalEvents_onGoalReached_noListeners test) as (Hr' & Hp' & He').
  change (goalEvents (onGoalReached noListeners test) = S (goalEvents this)
          /\ isRunning (onGoalReached noListeners test) = true
          /\ S (pendingFrames (onGoalReached noListeners test))
             = S (pendingFrames this)).
  rewrite He', Hr', Hp', He, Hr, Hp. auto.
Qed.
End GoalReached.

(** ** A tick that reaches the goal, in exact arithmetic *)

Section GoalTick.
Local Open Scope R_scope.
Import PhysicsEngine.

Lemma update_inside (b : Ball.t R) :
  Ball.left (Ball.bounds b) <= Ball.x b + Ball.vx b * Ball.friction b
    <= Ball.right (Ball.bounds b) ->
  Ball.top (Ball.bounds b) <= Ball.y b + Ball.vy b * Ball.friction b
    <= Ball.bottom (Ball.bounds b) ->
  Ball.x (Ball.update b) = Ball.x b + Ball.vx b * Ball.friction b
  /\ Ball.y (Ball.update b) = Ball.y b + Ball.vy b * Ball.friction b
  /\ Ball.radius (Ball.update b) = Ball.radius b.
Proof.
  intros Hx Hy. rewrite update_stages.
  rewrite checkBoundaryCollisions_inside by (cbn; lra).
  repeat split.
Qed.

Lemma rest_stays (b : Ball.t R) :
  Ball.vx b = 0 -> Ball.vy b = 0 -> 0 <= Ball.maxSpeed b ->
  Ball.left (Ball.bounds b) <= Ball.x b <= Ball.right (Ball.bounds b) ->
  Ball.top (Ball.bounds b) <= Ball.y b <= Ball.bottom (Ball.bounds b) ->
  let b' := Ball.update (Ball.applyForce 0 0 b) in
  Ball.x b' = Ball.x b /\ Ball.y b' = Ball.y b
  /\ Ball.radius b' = Ball.radius b.
Proof.
  intros Hvx Hvy HM Hx Hy b'.
  pose proof (applyForce_velocity 0 0 b) as Hv.
  unfold preClamp in Hv. rewrite Hvx, Hvy in Hv.
  replace (0 + 0 * Ball.acceleration b) with 0 in Hv by ring.
  unfold clamped in Hv. rewrite norm_axis in Hv by lra.
  apply Rltb_false in HM. rewrite HM in Hv. injection Hv as Hvx1 Hvy1.
  destruct (applyForce_frame 0 0 b) as (_ & _ & Hx1 & Hy1).
  destruct (applyForce_frame_rest 0 0 b) as (_ & _ & Hb1 & _).
  destruct (update_inside (Ball.applyForce 0 0 b)) as (Hx2 & Hy2 & Hr2).
  - rewrite Hb1, Hx1, Hvx1. lra.
  - rewrite Hb1, Hy1, Hvy1. lra.
  - unfold b'. rewrite Hx2, Hy2, Hr2, Hx1, Hy1, Hvx1, Hvy1.
    repeat split; try ring.
    unfold Ball.applyForce; cbn. split_ltb; reflexivity.
Qed.

Lemma sampleBall_on_goal :
  fst (Ball.checkGoalCollision
         {| Goal.x := 50; Goal.y := 50; Goal.radius := 20 |}
         (Ball.update (Ball.applyForce 0 0 sampleBall))) = true.
Proof.
  destruct (rest_stays sampleBall) as (Hx & Hy & Hr);
    try (cbn; unfold Q2R; cbn; lra).
  rewrite checkGoalCollision_distance. apply Rltb_true.
  unfold distance, center, goalCenter; cbn [fst snd Goal.x Goal.y
                                             Goal.radius].
  rewrite Hx, Hy, Hr.
  replace (Rsqr (Ball.x sampleBall - 50) + Rsqr (Ball.y sampleBall - 50))
    with 0 by (cbn; unfold Q2R, Rsqr; cbn; field).
  rewrite sqrt_0. cbn; unfold Q2R; cbn; lra.
Qed.

(** The first tick of [sampleEngine], whoever listens. *)
Lemma sampleEngine_tick
    (listeners : Event R -> PhysicsEngine.t R -> PhysicsEngine.t R) :
  PhysicsEngine.update sin cos listeners 16 16 sampleEngine
  = requestAnimationFrame
      (onGoalReached listeners
         (set_ball (Some (Ball.update (Ball.applyForce 0 0 sampleBall)))
            (updateMovingObstacles sin cos 16
               (set_times 16 (16 - 0) sampleEngine)))).
Proof.
  unfold PhysicsEngine.update, checkCollisions.
  cbn [isRunning sampleEngine negb updateMovingObstacles set_times
       set_obstacles set_ball ball goal obstacles gravity_x gravity_y
       lastTime map forEachObstacle fold_left].
  pose proof sampleBall_on_goal as Hhit.
  destruct (Ball.checkGoalCollision _ _) as [hit b'] in Hhit |- *.
  cbn [fst] in Hhit. rewrite Hhit. reflexivity.
Qed.
End GoalTick.

Section EngineAlone.
Local Open Scope R_scope.
Import PhysicsEngine.

(** C3 fails as stated: on a document without listeners the tick of
    [sampleEngine] reports the goal (one [goalReached] event, one frame
    requested) and the engine is still running; the frame that follows
    runs [update] again, which requests a further frame. *)
Lemma engine_alone_keeps_ticking :
  let after := PhysicsEngine.update sin cos noListeners 16 16 sampleEngine in
  let next := PhysicsEngine.runFrame sin cos noListeners 32 32 after in
  (goalEvents sampleEngine = 0 /\ goalEvents after = 1)%nat
  /\ isRunning after = true
  /\ pendingFrames after = 1%nat
  /\ isRunning next = true
  /\ pendingFrames next = 1%nat.
Proof.
  cbv zeta. rewrite sampleEngine_tick.
  set (mid := set_ball _ _).
  assert (Hafter : isRunning (requestAnimationFrame (onGoalReached noListeners mid))
                   = true) by reflexivity.
  repeat split.
  - unfold PhysicsEngine.runFrame.
    change (pendingFrames (requestAnimationFrame (onGoalReached noListeners mid)))
      with 1%nat.
    cbv iota beta.
    set (resumed := set_pendingFrames 0 _).
    destruct (update_running sin cos noListeners
                (noListeners_obstacleHit_sameLoop (num := R))
                32 32 resumed eq_refl)
      as (mid' & (Hr & _) & [-> | ->]).
    + exact Hr.
    + destruct (goalEvents_onGoalReached_noListeners mid') as (Hr' & _).
      change (isRunning (onGoalReached noListeners mid') = true).
      now rewrite Hr'.
  - unfold PhysicsEngine.runFrame.
    change (pendingFrames (requestAnimationFrame (onGoalReached noListeners mid)))
      with 1%nat.
    cbv iota beta.
    set (resumed := set_pendingFrames 0 _).
    destruct (update_running sin cos noListeners
                (noListeners_obstacleHit_sameLoop (num := R))
                32 32 resumed eq_refl)
      as (mid' & (_ & Hp & _) & [-> | ->]).
    + change (S (pendingFrames mid') = 1%nat). now rewrite Hp.
    + destruct (goalEvents_onGoalReached_noListeners mid') as (_ & Hp' & _).
      change (S (pendingFrames (onGoalReached noListeners mid')) = 1%nat).
      now rewrite Hp', Hp.
Qed.

End EngineAlone.

(** ** The statements at the sample ball *)

Section Instances.
Local Open Scope R_scope.

Ltac literal := cbn; unfold Q2R; cbn; lra.

Lemma update_within_bounds_rollingBall :
  let b' := Ball.update (@rollingBall R real) in
  Ball.left (Ball.bounds b') <= Ball.x b' <= Ball.right (Ball.bounds b')
  /\ Ball.top (Ball.bounds b') <= Ball.y b' <= Ball.bottom (Ball.bounds b').
Proof.
  apply (update_within_bounds rollingBall); literal.
Defined.

Lemma applyForce_speed_rollingBall :
  speed (Ball.applyForce 1000 (-1000) rollingBall)
  <= Ball.maxSpeed (Ball.applyForce 1000 (-1000) rollingBall).
Proof.
  apply (applyForce_speed_le_maxSpeed rollingBall 1000 (-1000)); literal.
Defined.



Lemma applyForce_twice_rollingBall :
  let twice := Ball.applyForce 0 1 (Ball.applyForce 0 1 rollingBall) in
  let once := Ball.applyForce (2 * 0) (2 * 1) rollingBall in
  Ball.vx twice = Ball.vx once /\ Ball.vy twice = Ball.vy once.
Proof.
  apply (applyForce_twice_unclamped rollingBall 0 1).
  destruct (norm_bounds (preClamp 0 1 rollingBall) 0 8) as [_ Hhi];
    [lra | lra | literal |].
  replace (Ball.maxSpeed rollingBall) with 8 by literal.
  lra.
Defined.

Lemma handleObstacleCollision_centredObstacle :
  let b : Ball.t R := sampleBall in
  let b' := Ball.handleObstacleCollision centredObstacle b in
  Ball.x b' = Ball.x b /\ Ball.y b' = Ball.y b
  /\ Ball.vx b' = Ball.vx b /\ Ball.vy b' = Ball.vy b
  /\ Ball.shakes b' = S (Ball.shakes b).
Proof.
  apply (handleObstacleCollision_at_center sampleBall centredObstacle).
  unfold center, obstacleCenter. f_equal; literal.
Defined.

Lemma force_then_update_sampleBall :
  let b1 := Ball.applyForce 1 0 sampleBall in
  let b2 := Ball.update b1 in
  (Ball.vx b1 = 0.3 /\ Ball.vy b1 = 0)
  /\ (Ball.vx b2 = 0.285 /\ Ball.vy b2 = 0)
  /\ (Ball.x b2 = Ball.x sampleBall + 0.285 /\ Ball.y b2 = Ball.y sampleBall)
  /\ (forall c : Ball.t R,
        Ball.update c
        = microZero
            (Ball.updatePosition
               (Ball.checkBoundaryCollisions (integrate (applyFriction c))))).
Proof.
  apply (force_then_update_scenario sampleBall); literal.
Defined.
End Instances.

(** ** Runs at double precision

    The same definitions at [binary64], evaluated by the kernel's floating
    point unit: what the program computes on the inputs of the scenarios. *)

Section Binary64Runs.
Local Open Scope float_scope.

Let ball0 : Ball.t float := sampleBall.
Let rolling : Ball.t float := rollingBall.
Let corner : Ball.t float := cornerBall.
Let faster : Ball.t float := fasterBall.
Let obstacle0 : Obstacle.t float := centredObstacle.

(** Force [(1, 0)], then [update]: the doubles nearest to [0.3], [0.285]
    and [50.285]. *)
Example force_then_update_binary64 :
  let b1 := Ball.applyForce (lit 1) (lit 0) ball0 in
  let b2 := Ball.update b1 in
  (Ball.vx b1, Ball.vy b1) = (lit 0.3, lit 0)
  /\ (Ball.vx b2, Ball.vy b2) = (lit 0.285, lit 0)
  /\ (Ball.x b2, Ball.y b2) = (lit 50.285, lit 50).
Proof. vm_compute. repeat split. Qed.

(** The force [(0, 80)] twice against [(0, 160)] once, from [(7, 0)]. *)
Example applyForce_twice_binary64 :
  let twice :=
    Ball.applyForce (lit 0) (lit 80) (Ball.applyForce (lit 0) (lit 80) rolling) in
  let once := Ball.applyForce (lit 0) (lit 160) rolling in
  (Ball.vx twice <? lit 0.6) = true /\ (lit 1 <? Ball.vx once) = true.
Proof. vm_compute. split; reflexivity. Qed.

(** The same with a force of the documented range: [(0, 1)] twice against
    [(0, 2)] once, from the top speed [(8, 0)].  The two results part in
    the sixth digit. *)
Example applyForce_twice_in_range_binary64 :
  let top := Ball.set_vx (lit 8) ball0 in
  let twice :=
    Ball.applyForce (lit 0) (lit 1) (Ball.applyForce (lit 0) (lit 1) top) in
  let once := Ball.applyForce (lit 0) (lit 2) top in
  (Ball.vx twice <? lit 7.97758) = true
  /\ (lit 7.97759 <? Ball.vx once) = true.
Proof. vm_compute. split; reflexivity. Qed.

(** The clamp rounds: from [(29, 19)] the rescaled components are doubles,
    and the speed computed from them is the double next above [8]. *)
Example applyForce_rounding_binary64 :
  let b' := Ball.applyForce (lit 0) (lit 0) faster in
  (lit 8 <? speed b') = true
  /\ (speed b' <? lit 8.00000000000001) = true.
Proof. vm_compute. split; reflexivity. Qed.

(** And the squares overflow: from [(2^600, 0)] the speed is infinite and
    the rescaled vector is zero. *)
Example applyForce_overflow_binary64 :
  let b' := Ball.applyForce (lit 0) (lit 0) (Ball.set_vx 0x1p+600 ball0) in
  (Ball.vx b', Ball.vy b') = (lit 0, lit 0).
Proof. vm_compute. reflexivity. Qed.

(** Distance [radius + goal.radius - 1 = 31], then [32]. *)
Example checkGoalCollision_binary64 :
  fst (Ball.checkGoalCollision (goalAt 81 50) ball0) = true
  /\ fst (Ball.checkGoalCollision (goalAt 82 50) ball0) = false.
Proof. vm_compute. split; reflexivity. Qed.

(** The ball on the centre of an obstacle: a collision, and a response
    that leaves position and velocity alone. *)
Example handleObstacleCollision_binary64 :
  let b' := Ball.handleObstacleCollision obstacle0 ball0 in
  fst (Ball.checkObstacleCollision obstacle0 ball0) = true
  /\ (Ball.x b', Ball.y b', Ball.vx b', Ball.vy b')
     = (Ball.x ball0, Ball.y ball0, Ball.vx ball0, Ball.vy ball0).
Proof. vm_compute. split; reflexivity. Qed.

(** Three ticks into the corner: the right edge, then the bottom edge,
    then none.  Two violating ticks in a row, one effect. *)
Example corner_episode_binary64 :
  violations 3 corner = [true; true; false]
  /\ Ball.shakes (updates 3 corner) = 1%nat
  /\ Ball.isColliding (updates 2 corner) = true
  /\ Ball.isColliding (updates 3 corner) = false.
Proof. vm_compute. repeat split. Qed.

(** Containment in doubles: after [update] none of the four comparisons
    of the boundary check holds, for any ball whose bounds do not cross,
    infinite or NaN coordinates included. *)
Corollary update_clears_binary64 (b : Ball.t float) :
  (Ball.right (Ball.bounds b) <? Ball.left (Ball.bounds b)) = false ->
  (Ball.bottom (Ball.bounds b) <? Ball.top (Ball.bounds b)) = false ->
  outOfBounds (Ball.update b) = false.
Proof. exact (update_clears b). Qed.
End Binary64Runs.

(** ** Where the doubles part from exact arithmetic *)

Section Binary64Limits.
Local Open Scope float_scope.

(** C2 fails as stated on doubles: a fresh ball pushed by the force
    [(7, 29)], and a ball at velocity [(-6, -5)] pushed by [(-1, -0.75)],
    are rescaled, and the speed computed from the rescaled components is
    above [maxSpeed]. *)
Lemma applyForce_speed_exceeds_binary64 :
  let b1 := Ball.applyForce (lit 7) (lit 29) (@sampleBall float binary64) in
  let b2 :=
    Ball.applyForce (lit (-1)) (lit (-0.75))
      (Ball.set_vy (lit (-5)) (Ball.set_vx (lit (-6)) sampleBall)) in
  (Ball.maxSpeed b1 <? speed b1) = true
  /\ (Ball.maxSpeed b2 <? speed b2) = true.
Proof. vm_compute. split; reflexivity. Qed.

(** C7 fails as stated on doubles: a ball of radius [k] at the origin and
    a goal of radius [4 k] at [(3 k, 4 k)], with [k = 1715470384 / 2^30].
    The three products are exact, so are the coordinates, and the distance
    of the centres is [5 k], the sum of the radii, to the last digit; the
    square root is rounded to the double below [5 k] and the code answers
    [true]. *)
Lemma checkGoalCollision_rounds_binary64 :
  let k := of_uint63 1715470384 / 0x1p+30 in
  let b : Ball.t float := Ball.new (lit 300) (lit 400) 0 0 k in
  let g := {| Goal.x := 3 * k; Goal.y := 4 * k; Goal.radius := 4 * k |} in
  let dx := (exactValue (Ball.x b) - exactValue (Goal.x g))%Q in
  let dy := (exactValue (Ball.y b) - exactValue (Goal.y g))%Q in
  let reach := (exactValue (Ball.radius b) + exactValue (Goal.radius g))%Q in
  fst (Ball.checkGoalCollision g b) = true
  /\ Qeq_bool (dx * dx + dy * dy) (reach * reach) = true
  /\ Qeq_bool (exactValue k) (1715470384 # (2 ^ 30)) = true
  /\ Qeq_bool (exactValue (Goal.x g)) (3 * exactValue k) = true
  /\ Qeq_bool (exactValue (Goal.y g)) (4 * exactValue k) = true.
Proof. vm_compute. repeat split. Qed.

End Binary64Limits.

(** * Further properties of the ball *)

Section BallSettings.
Context {num : Type} {N : Number num}.
Local Open Scope num_scope.

Lemma sameSettings_refl (b : Ball.t num) : sameSettings b b.
Proof. repeat split. Qed.

Lemma sameSettings_trans (a b c : Ball.t num) :
  sameSettings a b -> sameSettings b c -> sameSettings a c.
Proof.
  unfold sameSettings.
  intros (-> & -> & -> & -> & -> & -> & -> & ->)
         (-> & -> & -> & -> & -> & -> & -> & ->).
  repeat split.
Qed.

Lemma applyForce_sameSettings (forceX forceY : num) (b : Ball.t num) :
  sameSettings b (Ball.applyForce forceX forceY b).
Proof.
  unfold Ball.applyForce; cbn.
  match goal with
  | |- context [if ?c then _ else _] => destruct c
  end; repeat split.
Qed.

Lemma checkBoundaryCollisions_sameSettings (b : Ball.t num) :
  sameSettings b (Ball.checkBoundaryCollisions b).
Proof.
  unfold Ball.checkBoundaryCollisions.
  repeat match goal with
         | |- context [if ?c then _ else _] => destruct c; cbn
         end; repeat split.
Qed.

Lemma update_sameSettings (b : Ball.t num) : sameSettings b (Ball.update b).
Proof.
  rewrite update_stages.
  eapply sameSettings_trans;
    [apply (checkBoundaryCollisions_sameSettings (integrate (applyFriction b)))
    |].
  repeat split.
Qed.

Lemma handleObstacleCollision_sameSettings
    (obstacle : Obstacle.t num) (b : Ball.t num) :
  sameSettings b (Ball.handleObstacleCollision obstacle b).
Proof.
  unfold Ball.handleObstacleCollision.
  match goal with
  | |- context [if ?c then _ else _] => destruct c
  end; repeat split.
Qed.

Lemma reset_record (b : Ball.t num) :
  Ball.reset b
  = {| Ball.x := Ball.startX b; Ball.y := Ball.startY b;
       Ball.startX := Ball.startX b; Ball.startY := Ball.startY b;
       Ball.radius := Ball.radius b; Ball.vx := lit 0; Ball.vy := lit 0;
       Ball.friction := Ball.friction b; Ball.bounce := Ball.bounce b;
       Ball.maxSpeed := Ball.maxSpeed b;
       Ball.acceleration := Ball.acceleration b;
       Ball.bounds := Ball.bounds b; Ball.isColliding := false;
       Ball.styleLeft := Ball.startX b; Ball.styleTop := Ball.startY b;
       Ball.shakes := Ball.shakes b |}.
Proof. destruct b; reflexivity. Qed.

Lemma reset_settings (b b' : Ball.t num) :
  sameSettings b b' ->
  Ball.reset b' = Ball.set_shakes (Ball.shakes b') (Ball.reset b).
Proof.
  intros (Hsx & Hsy & Hr & Hf & Hb & Hm & Ha & Hbd).
  rewrite !reset_record. unfold Ball.set_shakes.
  cbn [Ball.x Ball.y Ball.startX Ball.startY Ball.radius Ball.vx Ball.vy
       Ball.friction Ball.bounce Ball.maxSpeed Ball.acceleration Ball.bounds
       Ball.isColliding Ball.styleLeft Ball.styleTop Ball.shakes].
  rewrite Hsx, Hsy, Hr, Hf, Hb, Hm, Ha, Hbd. reflexivity.
Qed.

(** X1. [reset] forgets the motion: whatever was applied to the ball
    since, [reset] gives the ball that [reset] gave before, but for the
    count of collision effects, which it does not touch; and a second
    [reset] changes nothing. *)
Theorem reset_forgets_motion
    (b : Ball.t num) (forceX forceY : num) (obstacle : Obstacle.t num) :
  Ball.reset (Ball.reset b) = Ball.reset b
  /\ Ball.reset (Ball.applyForce forceX forceY b) = Ball.reset b
  /\ Ball.reset (Ball.update b)
     = Ball.set_shakes (Ball.shakes (Ball.update b)) (Ball.reset b)
  /\ Ball.reset (Ball.handleObstacleCollision obstacle b)
     = Ball.set_shakes (S (Ball.shakes b)) (Ball.reset b).
Proof.
  assert (Hsame : forall c : Ball.t num,
             Ball.set_shakes (Ball.shakes c) (Ball.reset c) = Ball.reset c).
  { intros c. rewrite reset_record. reflexivity. }
  split; [| split; [| split]].
  - rewrite (reset_settings b (Ball.reset b))
      by (rewrite reset_record; repeat split).
    replace (Ball.shakes (Ball.reset b)) with (Ball.shakes b)
      by (rewrite reset_record; reflexivity).
    apply Hsame.
  - rewrite (reset_settings b) by apply applyForce_sameSettings.
    assert (Hs : Ball.shakes (Ball.applyForce forceX forceY b) = Ball.shakes b).
    { unfold Ball.applyForce; cbn.
      match goal with
      | |- context [if ?c then _ else _] => destruct c
      end; reflexivity. }
    rewrite Hs. apply Hsame.
  - apply reset_settings, update_sameSettings.
  - rewrite (reset_settings b) by apply handleObstacleCollision_sameSettings.
    assert (Hs : Ball.shakes (Ball.handleObstacleCollision obstacle b)
                 = S (Ball.shakes b)).
    { unfold Ball.handleObstacleCollision.
      match goal with
      | |- context [if ?c then _ else _] => destruct c
      end; reflexivity. }
    rewrite Hs. reflexivity.
Qed.
End BallSettings.

(** ** Edges and rest, in exact arithmetic *)

Section EdgesAndRest.
Local Open Scope R_scope.

Lemma snap_R (v : R) :
  (Rabs v < 0.1 -> @snap R real v = 0)
  /\ (0.1 <= Rabs v -> @snap R real v = v).
Proof.
  unfold snap; cbn. split; intros Hv; split_ltb;
    unfold Q2R in *; cbn in *; lra.
Qed.

Lemma update_velocity (b : Ball.t R) :
  let c := Ball.checkBoundaryCollisions (integrate (applyFriction b)) in
  Ball.vx (Ball.update b) = snap (Ball.vx c)
  /\ Ball.vy (Ball.update b) = snap (Ball.vy c).
Proof. rewrite update_stages. split; reflexivity. Qed.

Lemma checkBoundaryCollisions_vx (c : Ball.t R) :
  0 <= Ball.bounce c <= 1 ->
  Rabs (Ball.vx (Ball.checkBoundaryCollisions c)) <= Rabs (Ball.vx c)
  /\ Rabs (Ball.vy (Ball.checkBoundaryCollisions c)) <= Rabs (Ball.vy c).
Proof.
  intros Hb.
  assert (Hflip : forall v, Rabs (- v * Ball.bounce c) <= Rabs v).
  { intros v. rewrite Rabs_mult, Rabs_Ropp, (Rabs_pos_eq (Ball.bounce c)) by lra.
    pose proof (Rabs_pos v). nra. }
  assert (Hflip2 : forall v,
             Rabs (- (- v * Ball.bounce c) * Ball.bounce c) <= Rabs v).
  { intros v. eapply Rle_trans; [apply Hflip | apply Hflip]. }
  unfold Ball.checkBoundaryCollisions.
  repeat match goal with
         | |- context [if ?t then _ else _] => destruct t; cbn
         end; split; first [apply Hflip2 | apply Hflip | apply Rle_refl].
Qed.

Lemma update_slows (b : Ball.t R) :
  0 <= Ball.friction b -> 0 <= Ball.bounce b <= 1 ->
  (Rabs (Ball.vx (Ball.update b)) <= Ball.friction b * Rabs (Ball.vx b)
   /\ Rabs (Ball.vy (Ball.update b)) <= Ball.friction b * Rabs (Ball.vy b))
  /\ (Ball.friction b * Rabs (Ball.vx b) < 0.1 -> Ball.vx (Ball.update b) = 0)
  /\ (Ball.friction b * Rabs (Ball.vy b) < 0.1 -> Ball.vy (Ball.update b) = 0).
Proof.
  intros Hf Hb.
  destruct (update_velocity b) as [Hx Hy]; cbv zeta in Hx, Hy.
  set (c := Ball.checkBoundaryCollisions (integrate (applyFriction b))) in *.
  destruct (checkBoundaryCollisions_vx (integrate (applyFriction b)) Hb)
    as [Hcx Hcy].
  fold c in Hcx, Hcy.
  assert (Hfx : Rabs (Ball.vx (integrate (applyFriction b)))
                = Ball.friction b * Rabs (Ball.vx b)).
  { cbn. rewrite Rabs_mult, (Rabs_pos_eq (Ball.friction b)) by lra. ring. }
  assert (Hfy : Rabs (Ball.vy (integrate (applyFriction b)))
                = Ball.friction b * Rabs (Ball.vy b)).
  { cbn. rewrite Rabs_mult, (Rabs_pos_eq (Ball.friction b)) by lra. ring. }
  rewrite Hfx in Hcx. rewrite Hfy in Hcy.
  assert (Hsnap : forall v, Rabs (@snap R real v) <= Rabs v).
  { intros v. destruct (Rlt_le_dec (Rabs v) 0.1) as [Hlt | Hge].
    - rewrite (proj1 (snap_R v) Hlt), Rabs_R0. apply Rabs_pos.
    - rewrite (proj2 (snap_R v) Hge). apply Rle_refl. }
  rewrite Hx, Hy. repeat split.
  - eapply Rle_trans; [apply Hsnap | exact Hcx].
  - eapply Rle_trans; [apply Hsnap | exact Hcy].
  - intros Hlt. apply snap_R. lra.
  - intros Hlt. apply snap_R. lra.
Qed.

Lemma pow_le_1_antitone (x : R) (n m : nat) :
  0 <= x <= 1 -> (n <= m)%nat -> x ^ m <= x ^ n.
Proof.
  intros Hx Hnm. induction Hnm as [| m Hnm IH]; [apply Rle_refl |].
  cbn [pow]. pose proof (pow_le x m (proj1 Hx)). nra.
Qed.

Lemma updates_slow (n : nat) (b : Ball.t R) :
  0 <= Ball.friction b <= 1 -> 0 <= Ball.bounce b <= 1 ->
  (Ball.friction b ^ S n * Rabs (Ball.vx b) < 0.1 ->
   Ball.vx (updates (S n) b) = 0)
  /\ (Ball.friction b ^ S n * Rabs (Ball.vy b) < 0.1 ->
      Ball.vy (updates (S n) b) = 0).
Proof.
  revert b; induction n as [| n IH]; intros b Hf Hb.
  - destruct (update_slows b (proj1 Hf) Hb) as (_ & Hx & Hy).
    cbn [updates pow]. rewrite Rmult_1_r. split; assumption.
  - destruct (update_slows b (proj1 Hf) Hb) as ((Hx & Hy) & _).
    destruct (update_sameSettings b) as (_ & _ & _ & Hf' & Hb' & _).
    destruct (IH (Ball.update b)) as [IHx IHy];
      [rewrite Hf'; exact Hf | rewrite Hb'; exact Hb |].
    rewrite Hf' in IHx, IHy.
    change (updates (S (S n)) b) with (updates (S n) (Ball.update b)).
    pose proof (pow_le (Ball.friction b) (S n) (proj1 Hf)) as Hp.
    split; intros Hlt; [apply IHx | apply IHy];
      (eapply Rle_lt_trans; [| exact Hlt]);
      change (Ball.friction b ^ S (S n))
        with (Ball.friction b * Ball.friction b ^ S n); nra.
Qed.

(** X2. A ball left to [update] comes to rest: with [friction] and
    [bounce] between [0] and [1], once [friction ^ n] times a bound [V] of
    both velocity components is below [0.1], [n >= 1] calls of [update]
    leave the velocity exactly [(0, 0)], and so does every longer run. *)
Theorem velocity_comes_to_rest (b : Ball.t R) (V : R) (n m : nat) :
  0 <= Ball.friction b <= 1 -> 0 <= Ball.bounce b <= 1 ->
  Rabs (Ball.vx b) <= V -> Rabs (Ball.vy b) <= V ->
  Ball.friction b ^ S n * V < 0.1 ->
  (n <= m)%nat ->
  Ball.vx (updates (S m) b) = 0 /\ Ball.vy (updates (S m) b) = 0.
Proof.
  intros Hf Hb Hx Hy Hlt Hnm.
  assert (Hm : Ball.friction b ^ S m <= Ball.friction b ^ S n)
    by (apply pow_le_1_antitone; [exact Hf | lia]).
  pose proof (pow_le (Ball.friction b) (S m) (proj1 Hf)) as Hp.
  pose proof (Rabs_pos (Ball.vx b)). pose proof (Rabs_pos (Ball.vy b)).
  destruct (updates_slow m b Hf Hb) as [Hvx Hvy].
  split; [apply Hvx | apply Hvy]; nra.
Qed.

Lemma checkBoundaryCollisions_right (c : Ball.t R) :
  Ball.left (Ball.bounds c) <= Ball.right (Ball.bounds c) ->
  Ball.right (Ball.bounds c) < Ball.x c ->
  let c' := Ball.checkBoundaryCollisions c in
  Ball.x c' = Ball.right (Ball.bounds c)
  /\ Ball.vx c' = - Ball.vx c * Ball.bounce c
  /\ Ball.isColliding c' = true
  /\ Ball.shakes c' = (Ball.shakes c + fires (Ball.isColliding c) true)%nat.
Proof.
  intros Hlr Hout.
  assert (H1 : Rltb (Ball.x c) (Ball.left (Ball.bounds c)) = false)
    by (apply Rltb_false; lra).
  assert (H2 : Rltb (Ball.right (Ball.bounds c)) (Ball.x c) = true)
    by (apply Rltb_true; lra).
  unfold Ball.checkBoundaryCollisions, fires. cbn.
  rewrite H1, H2; cbn.
  repeat match goal with
         | |- context [if Rltb ?a ?e then _ else _] =>
             destruct (Rltb a e); cbn
         end;
    destruct (Ball.isColliding c); cbn; repeat split; lia.
Qed.

Lemma checkBoundaryCollisions_left (c : Ball.t R) :
  Ball.left (Ball.bounds c) <= Ball.right (Ball.bounds c) ->
  Ball.x c < Ball.left (Ball.bounds c) ->
  let c' := Ball.checkBoundaryCollisions c in
  Ball.x c' = Ball.left (Ball.bounds c)
  /\ Ball.vx c' = - Ball.vx c * Ball.bounce c
  /\ Ball.isColliding c' = true
  /\ Ball.shakes c' = (Ball.shakes c + fires (Ball.isColliding c) true)%nat.
Proof.
  intros Hlr Hout.
  assert (H1 : Rltb (Ball.x c) (Ball.left (Ball.bounds c)) = true)
    by (apply Rltb_true; lra).
  assert (H2 : Rltb (Ball.right (Ball.bounds c)) (Ball.left (Ball.bounds c))
               = false) by (apply Rltb_false; lra).
  unfold Ball.checkBoundaryCollisions, fires. cbn.
  rewrite H1; cbn. rewrite H2; cbn.
  repeat match goal with
         | |- context [if Rltb ?a ?e then _ else _] =>
             destruct (Rltb a e); cbn
         end;
    destruct (Ball.isColliding c); cbn; repeat split; lia.
Qed.

(** X3. A ball that the step carries beyond the right edge is put back on
    the edge with its x-velocity reversed and scaled by [bounce] (and then
    snapped to zero if below [0.1]); the flag is up, and the effect is
    triggered if the flag was down.  The left edge does the same. *)
Theorem update_bounces_off_vertical_edges (b : Ball.t R) :
  Ball.left (Ball.bounds b) <= Ball.right (Ball.bounds b) ->
  let moved := Ball.x b + Ball.vx b * Ball.friction b in
  let bounced := snap (- (Ball.vx b * Ball.friction b) * Ball.bounce b) in
  let b' := Ball.update b in
  (Ball.right (Ball.bounds b) < moved ->
   Ball.x b' = Ball.right (Ball.bounds b) /\ Ball.vx b' = bounced
   /\ Ball.isColliding b' = true
   /\ Ball.shakes b' = (Ball.shakes b + fires (Ball.isColliding b) true)%nat)
  /\ (moved < Ball.left (Ball.bounds b) ->
      Ball.x b' = Ball.left (Ball.bounds b) /\ Ball.vx b' = bounced
      /\ Ball.isColliding b' = true
      /\ Ball.shakes b' = (Ball.shakes b + fires (Ball.isColliding b) true)%nat).
Proof.
  intros Hlr moved bounced b'.
  set (c := integrate (applyFriction b)).
  assert (Hb' : b' = microZero
                       (Ball.updatePosition (Ball.checkBoundaryCollisions c)))
    by apply update_stages.
  assert (Hfields :
            Ball.x b' = Ball.x (Ball.checkBoundaryCollisions c)
            /\ Ball.vx b' = snap (Ball.vx (Ball.checkBoundaryCollisions c))
            /\ Ball.isColliding b'
               = Ball.isColliding (Ball.checkBoundaryCollisions c)
            /\ Ball.shakes b' = Ball.shakes (Ball.checkBoundaryCollisions c))
    by (rewrite Hb'; repeat split).
  destruct Hfields as (-> & -> & -> & ->).
  split; intros Hout.
  - destruct (checkBoundaryCollisions_right c Hlr Hout) as (-> & -> & -> & ->).
    repeat split.
  - destruct (checkBoundaryCollisions_left c Hlr Hout) as (-> & -> & -> & ->).
    repeat split.
Qed.
End EdgesAndRest.

(** ** Obstacles, in exact arithmetic *)

Section ObstacleGeometry.
Local Open Scope R_scope.

Lemma clamp_between (lo hi v : R) :
  lo <= hi -> lo <= Rmax lo (Rmin v hi) <= hi.
Proof.
  intros H. unfold Rmax, Rmin.
  destruct (Rle_dec v hi); destruct (Rle_dec lo _); lra.
Qed.

Lemma clamp_inside (lo hi v : R) :
  lo <= v <= hi -> Rmax lo (Rmin v hi) = v.
Proof.
  intros H. unfold Rmax, Rmin.
  destruct (Rle_dec v hi); destruct (Rle_dec lo _); lra.
Qed.

Lemma checkObstacleCollision_R (b : Ball.t R) (o : Obstacle.t R) :
  let px :=
    Rmax (Obstacle.x o) (Rmin (Ball.x b) (Obstacle.x o + Obstacle.width o)) in
  let py :=
    Rmax (Obstacle.y o) (Rmin (Ball.y b) (Obstacle.y o + Obstacle.height o)) in
  fst (Ball.checkObstacleCollision o b)
  = Rltb ((Ball.x b - px) * (Ball.x b - px) + (Ball.y b - py) * (Ball.y b - py))
      (Ball.radius b * Ball.radius b).
Proof. reflexivity. Qed.

(** X6. The rectangle test: a ball whose centre is inside the rectangle
    collides, whatever its positive radius; a ball that lies wholly to the
    left of the rectangle, to its right, above it or below it does not. *)
Theorem checkObstacleCollision_inside_and_apart
    (b : Ball.t R) (o : Obstacle.t R) :
  0 <= Ball.radius b -> 0 <= Obstacle.width o -> 0 <= Obstacle.height o ->
  let hit := fst (Ball.checkObstacleCollision o b) in
  (0 < Ball.radius b ->
   Obstacle.x o <= Ball.x b <= Obstacle.x o + Obstacle.width o ->
   Obstacle.y o <= Ball.y b <= Obstacle.y o + Obstacle.height o ->
   hit = true)
  /\ (Ball.x b + Ball.radius b <= Obstacle.x o -> hit = false)
  /\ (Obstacle.x o + Obstacle.width o + Ball.radius b <= Ball.x b ->
      hit = false)
  /\ (Ball.y b + Ball.radius b <= Obstacle.y o -> hit = false)
  /\ (Obstacle.y o + Obstacle.height o + Ball.radius b <= Ball.y b ->
      hit = false).
Proof.
  intros Hr Hw Hh hit. unfold hit. rewrite checkObstacleCollision_R.
  cbv zeta.
  pose proof (clamp_between (Obstacle.x o) (Obstacle.x o + Obstacle.width o)
                (Ball.x b)) as Hpx.
  pose proof (clamp_between (Obstacle.y o) (Obstacle.y o + Obstacle.height o)
                (Ball.y b)) as Hpy.
  set (px := Rmax (Obstacle.x o) _) in *.
  set (py := Rmax (Obstacle.y o) _) in *.
  specialize (Hpx ltac:(lra)). specialize (Hpy ltac:(lra)).
  assert (Hfar : forall u v r : R, 0 <= r -> r <= u \/ u <= - r ->
                                   r * r <= u * u + v * v)
    by (intros u v r Hr0 [Hu | Hu]; nra).
  assert (Hfar' : forall u v r : R, 0 <= r -> r <= v \/ v <= - r ->
                                    r * r <= u * u + v * v)
    by (intros u v r Hr0 [Hv | Hv]; nra).
  repeat split.
  - intros Hpos Hx Hy. apply Rltb_true.
    unfold px, py. rewrite !clamp_inside by assumption. nra.
  - intros Hout. apply Rltb_false. apply Hfar; [exact Hr | right; lra].
  - intros Hout. apply Rltb_false. apply Hfar; [exact Hr | left; lra].
  - intros Hout. apply Rltb_false. apply Hfar'; [exact Hr | right; lra].
  - intros Hout. apply Rltb_false. apply Hfar'; [exact Hr | left; lra].
Qed.

(** The response to a collision away from the centre of the rectangle:
    [d] is the distance of the two centres, [reach] the distance at which
    the ball is put. *)
Lemma handleObstacleCollision_R (b : Ball.t R) (o : Obstacle.t R) :
  center b <> obstacleCenter o ->
  let cx := fst (obstacleCenter o) in
  let cy := snd (obstacleCenter o) in
  let d := distance (center b) (obstacleCenter o) in
  let reach :=
    Ball.radius b + Rmax (Obstacle.width o) (Obstacle.height o) / 2 + 5 in
  let b' := Ball.handleObstacleCollision o b in
  0 < d
  /\ Ball.vx b' = (Ball.x b - cx) / d * Ball.maxSpeed b * 0.8
  /\ Ball.vy b' = (Ball.y b - cy) / d * Ball.maxSpeed b * 0.8
  /\ Ball.x b' = cx + (Ball.x b - cx) / d * reach
  /\ Ball.y b' = cy + (Ball.y b - cy) / d * reach
  /\ Ball.radius b' = Ball.radius b.
Proof.
  intros Hoff cx cy d reach b'.
  assert (Hd : 0 < d).
  { unfold d, distance.
    apply sqrt_lt_R0.
    assert (Hne : fst (center b) - fst (obstacleCenter o) <> 0
                  \/ snd (center b) - snd (obstacleCenter o) <> 0).
    { destruct (Req_dec (fst (center b)) (fst (obstacleCenter o))) as [Hx |];
        [| left; lra].
      destruct (Req_dec (snd (center b)) (snd (obstacleCenter o))) as [Hy |];
        [| right; lra].
      exfalso. apply Hoff.
      destruct (center b), (obstacleCenter o); cbn in *; now subst. }
    pose proof (Rle_0_sqr (fst (center b) - fst (obstacleCenter o))).
    pose proof (Rle_0_sqr (snd (center b) - snd (obstacleCenter o))).
    destruct Hne as [Hne | Hne]; apply Rsqr_pos_lt in Hne; lra. }
  split; [exact Hd |].
  unfold b', Ball.handleObstacleCollision.
  assert (Hlit2 : @lit R real 2 = 2) by (cbn; unfold Q2R; cbn; lra).
  assert (Hlit5 : @lit R real 5 = 5) by (cbn; unfold Q2R; cbn; lra).
  assert (Hlit8 : @lit R real 0.8 = 0.8) by (cbn; unfold Q2R; cbn; lra).
  assert (Hlit0 : @lit R real 0 = 0) by (cbn; unfold Q2R; cbn; lra).
  rewrite Hlit2, Hlit5, Hlit8, Hlit0.
  change (@Math_sqrt R real
            (@add R real
               (@mul R real
                  (@sub R real (Ball.x b)
                     (@add R real (Obstacle.x o)
                        (@div R real (Obstacle.width o) 2)))
                  (@sub R real (Ball.x b)
                     (@add R real (Obstacle.x o)
                        (@div R real (Obstacle.width o) 2))))
               (@mul R real
                  (@sub R real (Ball.y b)
                     (@add R real (Obstacle.y o)
                        (@div R real (Obstacle.height o) 2)))
                  (@sub R real (Ball.y b)
                     (@add R real (Obstacle.y o)
                        (@div R real (Obstacle.height o) 2))))))
    with d.
  assert (Hc : @ltb R real 0 d = true) by (apply Rltb_true; exact Hd).
  rewrite Hc. cbn. repeat split.
Qed.

Lemma distance_sqr (p q : R * R) :
  distance p q * distance p q
  = (fst p - fst q) * (fst p - fst q) + (snd p - snd q) * (snd p - snd q).
Proof.
  unfold distance. rewrite sqrt_sqrt; [reflexivity |].
  apply Rplus_le_le_0_compat; apply Rle_0_sqr.
Qed.

Lemma sqrt_of_square (a e : R) : 0 <= a -> e = a * a -> R_sqrt.sqrt e = a.
Proof. intros Ha ->. now apply sqrt_square. Qed.

Lemma speed_after_response (b : Ball.t R) (o : Obstacle.t R) :
  center b <> obstacleCenter o -> 0 <= Ball.maxSpeed b ->
  speed (Ball.handleObstacleCollision o b) = 0.8 * Ball.maxSpeed b.
Proof.
  intros Hoff HM.
  destruct (handleObstacleCollision_R b o Hoff) as (Hd & Hvx & Hvy & _).
  pose proof (distance_sqr (center b) (obstacleCenter o)) as Hsq.
  cbn [center fst snd] in Hsq.
  set (d := distance (center b) (obstacleCenter o)) in *.
  set (cx := fst (obstacleCenter o)) in *.
  set (cy := snd (obstacleCenter o)) in *.
  rewrite speed_norm. unfold norm; cbn [fst snd]. rewrite Hvx, Hvy.
  apply sqrt_of_square; [lra |].
  transitivity (((Ball.x b - cx) * (Ball.x b - cx)
                 + (Ball.y b - cy) * (Ball.y b - cy)) / (d * d)
                * (0.8 * Ball.maxSpeed b * (0.8 * Ball.maxSpeed b))).
  - field. lra.
  - rewrite <- Hsq. field. lra.
Qed.

(** X4. The response to a collision away from the centre of the
    rectangle: the ball leaves along the line from that centre through its
    own, at speed [0.8 * maxSpeed], and is put on that line at distance
    [radius + max(width, height) / 2 + 5] from the centre. *)
Theorem handleObstacleCollision_off_center
    (b : Ball.t R) (o : Obstacle.t R) :
  center b <> obstacleCenter o ->
  0 <= Ball.maxSpeed b -> 0 <= Ball.radius b ->
  0 <= Obstacle.width o -> 0 <= Obstacle.height o ->
  let cx := fst (obstacleCenter o) in
  let cy := snd (obstacleCenter o) in
  let d := distance (center b) (obstacleCenter o) in
  let reach :=
    Ball.radius b + Rmax (Obstacle.width o) (Obstacle.height o) / 2 + 5 in
  let b' := Ball.handleObstacleCollision o b in
  speed b' = 0.8 * Ball.maxSpeed b
  /\ distance (center b') (obstacleCenter o) = reach
  /\ 0 < reach / d
  /\ Ball.x b' - cx = reach / d * (Ball.x b - cx)
  /\ Ball.y b' - cy = reach / d * (Ball.y b - cy)
  /\ Ball.vx b' = 0.8 * Ball.maxSpeed b / d * (Ball.x b - cx)
  /\ Ball.vy b' = 0.8 * Ball.maxSpeed b / d * (Ball.y b - cy).
Proof.
  intros Hoff HM Hr Hw Hh cx cy d reach b'.
  destruct (handleObstacleCollision_R b o Hoff)
    as (Hd & Hvx & Hvy & Hx & Hy & _).
  fold cx cy d reach b' in Hd, Hvx, Hvy, Hx, Hy.
  pose proof (distance_sqr (center b) (obstacleCenter o)) as Hsq.
  fold d in Hsq. cbn [center fst snd] in Hsq. fold cx cy in Hsq.
  assert (Hreach : 0 < reach).
  { unfold reach. pose proof (Rmax_l (Obstacle.width o) (Obstacle.height o)).
    lra. }
  repeat split.
  - rewrite speed_norm. unfold norm; cbn [fst snd]. rewrite Hvx, Hvy.
    apply sqrt_of_square; [lra |].
    transitivity (((Ball.x b - cx) * (Ball.x b - cx)
                   + (Ball.y b - cy) * (Ball.y b - cy)) / (d * d)
                  * (0.8 * Ball.maxSpeed b * (0.8 * Ball.maxSpeed b))).
    + field. lra.
    + rewrite <- Hsq. field. lra.
  - unfold distance, Rsqr; cbn [center fst snd]. fold cx cy.
    rewrite Hx, Hy.
    apply sqrt_of_square; [lra |].
    transitivity (((Ball.x b - cx) * (Ball.x b - cx)
                   + (Ball.y b - cy) * (Ball.y b - cy)) / (d * d)
                  * (reach * reach)).
    + field. lra.
    + rewrite <- Hsq. field. lra.
  - now apply Rdiv_lt_0_compat.
  - rewrite Hx. field. lra.
  - rewrite Hy. field. lra.
  - rewrite Hvx. field. lra.
  - rewrite Hvy. field. lra.
Qed.

(** X5. After that response the ball is clear of the obstacle, provided
    the rectangle is not too wide for the margin the code leaves: its half
    diagonal is at most [max(width, height) / 2 + 5]. *)
Theorem handleObstacleCollision_clears_obstacle
    (b : Ball.t R) (o : Obstacle.t R) :
  center b <> obstacleCenter o ->
  0 <= Ball.radius b ->
  0 <= Obstacle.width o -> 0 <= Obstacle.height o ->
  let margin := Rmax (Obstacle.width o) (Obstacle.height o) / 2 + 5 in
  (Obstacle.width o * Obstacle.width o
   + Obstacle.height o * Obstacle.height o) / 4 <= margin * margin ->
  fst (Ball.checkObstacleCollision o (Ball.handleObstacleCollision o b))
  = false.
Proof.
  intros Hoff Hr Hw Hh margin Hdiag.
  destruct (handleObstacleCollision_R b o Hoff)
    as (Hd & _ & _ & Hx & Hy & Hrad).
  cbv zeta in Hd, Hx, Hy, Hrad.
  pose proof (distance_sqr (center b) (obstacleCenter o)) as Hsq.
  cbn [center obstacleCenter fst snd] in Hsq, Hx, Hy.
  set (d := distance (center b) (obstacleCenter o)) in *.
  set (cx := Obstacle.x o + Obstacle.width o / 2) in *.
  set (cy := Obstacle.y o + Obstacle.height o / 2) in *.
  fold margin in Hx, Hy.
  rewrite checkObstacleCollision_R. cbv zeta.
  set (b' := Ball.handleObstacleCollision o b) in *.
  pose proof (clamp_between (Obstacle.x o) (Obstacle.x o + Obstacle.width o)
                (Ball.x b')) as Hpx.
  pose proof (clamp_between (Obstacle.y o) (Obstacle.y o + Obstacle.height o)
                (Ball.y b')) as Hpy.
  set (px := Rmax (Obstacle.x o) _) in *.
  set (py := Rmax (Obstacle.y o) _) in *.
  specialize (Hpx ltac:(lra)). specialize (Hpy ltac:(lra)).
  rewrite Hrad. apply Rltb_false.
  (* the ball, the centre and the nearest point of the rectangle *)
  set (nx := (Ball.x b - cx) / d) in *.
  set (ny := (Ball.y b - cy) / d) in *.
  assert (Hn : nx * nx + ny * ny = 1).
  { unfold nx, ny.
    transitivity (((Ball.x b - cx) * (Ball.x b - cx)
                   + (Ball.y b - cy) * (Ball.y b - cy)) / (d * d)).
    - field. lra.
    - rewrite <- Hsq. field. lra. }
  assert (Hmargin : 5 <= margin).
  { unfold margin. pose proof (Rmax_l (Obstacle.width o) (Obstacle.height o)).
    lra. }
  set (D := Ball.radius b + margin) in *.
  replace (Ball.radius b + Rmax (Obstacle.width o) (Obstacle.height o) / 2 + 5)
    with D in Hx, Hy by (unfold D, margin; ring).
  set (qx := px - cx). set (qy := py - cy).
  assert (Hqx : qx * qx <= Obstacle.width o * Obstacle.width o / 4)
    by (unfold qx, cx; nra).
  assert (Hqy : qy * qy <= Obstacle.height o * Obstacle.height o / 4)
    by (unfold qy, cy; nra).
  set (s := R_sqrt.sqrt (qx * qx + qy * qy)).
  assert (Hs0 : 0 <= s) by apply sqrt_pos.
  assert (Hs2 : s * s = qx * qx + qy * qy) by (apply sqrt_sqrt; nra).
  assert (Hsm : s <= margin) by nra.
  assert (Hcs : nx * qx + ny * qy <= s).
  { assert (Hsq2 : (nx * qx + ny * qy) * (nx * qx + ny * qy) <= s * s).
    { rewrite Hs2.
      replace (qx * qx + qy * qy)
        with ((nx * nx + ny * ny) * (qx * qx + qy * qy))
        by (rewrite Hn; ring).
      pose proof (Rle_0_sqr (nx * qy - ny * qx)) as Hcross.
      unfold Rsqr in Hcross. lra. }
    nra. }
  replace (Ball.x b' - px) with (nx * D - qx) by (rewrite Hx; unfold qx; ring).
  replace (Ball.y b' - py) with (ny * D - qy) by (rewrite Hy; unfold qy; ring).
  assert (HD : margin <= D) by (unfold D; lra).
  replace ((nx * D - qx) * (nx * D - qx) + (ny * D - qy) * (ny * D - qy))
    with (D * D - 2 * D * (nx * qx + ny * qy) + s * s)
    by (rewrite Hs2;
        replace (D * D) with ((nx * nx + ny * ny) * (D * D))
          by (rewrite Hn; ring);
        ring).
  replace (Ball.radius b) with (D - margin) by (unfold D; ring).
  nra.
Qed.
End ObstacleGeometry.

(** ** Runs of ticks, in exact arithmetic *)

Section Runs.
Local Open Scope R_scope.

Lemma tick_sameSettings (force : R * R) (b : Ball.t R) :
  sameSettings b (tick force b).
Proof.
  eapply sameSettings_trans;
    [apply applyForce_sameSettings | apply update_sameSettings].
Qed.

Lemma update_leaves_inside (b : Ball.t R) :
  Ball.left (Ball.bounds b) <= Ball.right (Ball.bounds b) ->
  Ball.top (Ball.bounds b) <= Ball.bottom (Ball.bounds b) ->
  inside (Ball.bounds b) (Ball.update b).
Proof.
  intros Hlr Htb.
  assert (Hclear : outOfBounds (Ball.update b) = false)
    by (apply update_clears; apply Rltb_false; assumption).
  destruct (update_sameSettings b) as (_ & _ & _ & _ & _ & _ & _ & Hb).
  unfold outOfBounds in Hclear. rewrite Hb in Hclear.
  repeat (apply orb_false_iff in Hclear; destruct Hclear as [Hclear ?]).
  repeat match goal with
         | H : @ltb R real _ _ = false |- _ =>
             apply (proj1 (Rltb_false _ _)) in H
         end.
  unfold inside. lra.
Qed.

Lemma ticks_leave_inside (forces : list (R * R)) (force : R * R)
    (b : Ball.t R) :
  Ball.left (Ball.bounds b) <= Ball.right (Ball.bounds b) ->
  Ball.top (Ball.bounds b) <= Ball.bottom (Ball.bounds b) ->
  inside (Ball.bounds b) (ticks (force :: forces) b).
Proof.
  revert force b; induction forces as [| next forces IH]; intros force b Hlr Htb.
  - cbn [ticks]. unfold tick.
    destruct (applyForce_sameSettings (fst force) (snd force) b)
      as (_ & _ & _ & _ & _ & _ & _ & Hb).
    rewrite <- Hb. apply update_leaves_inside; rewrite Hb; assumption.
  - change (ticks (force :: next :: forces) b)
      with (ticks (next :: forces) (tick force b)).
    destruct (tick_sameSettings force b) as (_ & _ & _ & _ & _ & _ & _ & Hb).
    rewrite <- Hb. apply IH; rewrite Hb; assumption.
Qed.

(** X7. A ball made by the constructor in a container at least as wide
    and as high as its diameter is, after any run of at least one tick
    (a force, then [update]), within [radius] of no side: its centre is in
    [[radius, width - radius] x [radius, height - radius]]. *)
Theorem ball_stays_in_container
    (containerWidth containerHeight x0 y0 radius : R)
    (force : R * R) (forces : list (R * R)) :
  2 * radius <= containerWidth -> 2 * radius <= containerHeight ->
  let b :=
    ticks (force :: forces)
      (Ball.new containerWidth containerHeight x0 y0 radius) in
  radius <= Ball.x b <= containerWidth - radius
  /\ radius <= Ball.y b <= containerHeight - radius.
Proof.
  intros HW HH b.
  change (inside
            (Ball.bounds (Ball.new containerWidth containerHeight x0 y0 radius))
            b).
  apply ticks_leave_inside; cbn; lra.
Qed.

Lemma applyForce_bounded (b : Ball.t R) (forceX forceY : R) :
  0 <= Ball.maxSpeed b ->
  speed (Ball.applyForce forceX forceY b) <= Ball.maxSpeed b.
Proof.
  intros HM. rewrite speed_norm, applyForce_velocity. unfold clamped.
  destruct (Rltb (Ball.maxSpeed b) (norm (preClamp forceX forceY b))) eqn:Hc.
  - apply Rltb_true in Hc. rewrite norm_rescaled; lra.
  - apply Rltb_false in Hc. exact Hc.
Qed.

Lemma update_speed_le (b : Ball.t R) :
  0 <= Ball.friction b <= 1 -> 0 <= Ball.bounce b <= 1 ->
  speed (Ball.update b) <= speed b.
Proof.
  intros Hf Hb.
  destruct (update_slows b (proj1 Hf) Hb) as ((Hx & Hy) & _).
  rewrite !speed_norm. unfold norm; cbn [fst snd].
  apply sqrt_le_1_alt.
  pose proof (Rabs_pos (Ball.vx b)). pose proof (Rabs_pos (Ball.vy b)).
  pose proof (Rabs_pos (Ball.vx (Ball.update b))).
  pose proof (Rabs_pos (Ball.vy (Ball.update b))).
  assert (Hsq : forall v w, Rabs v <= w -> 0 <= w -> v * v <= w * w).
  { intros v w Hv Hw. pose proof (Rabs_pos v).
    replace (v * v) with (Rabs v * Rabs v)
      by (unfold Rabs; destruct (Rcase_abs v); ring).
    nra. }
  assert (Hax : Ball.vx b * Ball.vx b = Rabs (Ball.vx b) * Rabs (Ball.vx b))
    by (unfold Rabs; destruct (Rcase_abs (Ball.vx b)); ring).
  assert (Hay : Ball.vy b * Ball.vy b = Rabs (Ball.vy b) * Rabs (Ball.vy b))
    by (unfold Rabs; destruct (Rcase_abs (Ball.vy b)); ring).
  pose proof (Hsq (Ball.vx (Ball.update b)) (Rabs (Ball.vx b))).
  pose proof (Hsq (Ball.vy (Ball.update b)) (Rabs (Ball.vy b))).
  nra.
Qed.

Lemma ticks_bounded (forces : list (R * R)) (force : R * R) (b : Ball.t R) :
  0 <= Ball.friction b <= 1 -> 0 <= Ball.bounce b <= 1 ->
  0 <= Ball.maxSpeed b ->
  speed (ticks (force :: forces) b) <= Ball.maxSpeed b.
Proof.
  revert force b; induction forces as [| next forces IH];
    intros force b Hf Hb HM.
  - cbn [ticks]. unfold tick.
    destruct (applyForce_sameSettings (fst force) (snd force) b)
      as (_ & _ & _ & Hf' & Hb' & _).
    eapply Rle_trans; [apply update_speed_le; rewrite ?Hf', ?Hb'; assumption |].
    now apply applyForce_bounded.
  - change (ticks (force :: next :: forces) b)
      with (ticks (next :: forces) (tick force b)).
    destruct (tick_sameSettings force b)
      as (_ & _ & _ & Hf' & Hb' & HM' & _).
    rewrite <- HM'. apply IH; rewrite ?Hf', ?Hb', ?HM'; assumption.
Qed.

(** X8. With [friction] and [bounce] between [0] and [1] and [maxSpeed]
    not negative, the ball is never faster than [maxSpeed] after a tick,
    however long the run and whatever the forces: [update] does not speed
    the ball up. *)
Theorem speed_stays_below_maxSpeed
    (b : Ball.t R) (force : R * R) (forces : list (R * R)) :
  0 <= Ball.friction b <= 1 -> 0 <= Ball.bounce b <= 1 ->
  0 <= Ball.maxSpeed b ->
  speed (ticks (force :: forces) b) <= Ball.maxSpeed b
  /\ speed (Ball.update b) <= speed b.
Proof.
  intros Hf Hb HM. split.
  - now apply ticks_bounded.
  - now apply update_speed_le.
Qed.
End Runs.

(** * Further properties of the engine *)

(** ** Gravity *)

Section Gravity.
Local Open Scope R_scope.
Import PhysicsEngine.

(** X9. [updateGravity] clamps: whatever the two angles, each component
    of the gravity is within the sensitivity in use (not negative) of
    zero; for angles within 45 degrees the gravity is the angle over 45
    times the sensitivity, [gamma] giving x and [beta] giving y. *)
Theorem updateGravity_within_sensitivity
    (isMobile : bool) (beta gamma : R) (this : PhysicsEngine.t R) :
  0 <= sensitivity_mobile this -> 0 <= sensitivity_desktop this ->
  let s :=
    if isMobile then sensitivity_mobile this else sensitivity_desktop this in
  let this' := updateGravity isMobile beta gamma this in
  (- s <= gravity_x this' <= s /\ - s <= gravity_y this' <= s)
  /\ (-45 <= gamma <= 45 -> gravity_x this' = gamma / 45 * s)
  /\ (-45 <= beta <= 45 -> gravity_y this' = beta / 45 * s).
Proof.
  intros Hm Hd s this'.
  assert (Hs : 0 <= s) by (unfold s; destruct isMobile; assumption).
  assert (Hlit : @lit R real 45 = 45) by (cbn; unfold Q2R; cbn; lra).
  assert (Hgx : gravity_x this'
                = Rmax (- 45) (Rmin 45 gamma) / 45 * s).
  { unfold this', updateGravity. rewrite Hlit. reflexivity. }
  assert (Hgy : gravity_y this'
                = Rmax (- 45) (Rmin 45 beta) / 45 * s).
  { unfold this', updateGravity. rewrite Hlit. reflexivity. }
  assert (Hclamp : forall a, -45 <= Rmax (- 45) (Rmin 45 a) <= 45).
  { intros a. unfold Rmax, Rmin.
    destruct (Rle_dec 45 a); destruct (Rle_dec (- 45) _); lra. }
  assert (Hid : forall a, -45 <= a <= 45 -> Rmax (- 45) (Rmin 45 a) = a).
  { intros a Ha. unfold Rmax, Rmin.
    destruct (Rle_dec 45 a); destruct (Rle_dec (- 45) _); lra. }
  rewrite Hgx, Hgy. repeat split.
  - pose proof (Hclamp gamma). nra.
  - pose proof (Hclamp gamma). nra.
  - pose proof (Hclamp beta). nra.
  - pose proof (Hclamp beta). nra.
  - intros Ha. now rewrite Hid.
  - intros Ha. now rewrite Hid.
Qed.
End Gravity.

(** ** Moving obstacles and reset *)

Section MovingObstacles.
Context {num : Type} {N : Number num}.
Variables Math_sin Math_cos : num -> num.
Import PhysicsEngine.

Lemma set_obstacles_twice (l l' : list (Obstacle.t num))
    (this : PhysicsEngine.t num) :
  set_obstacles l (set_obstacles l' this) = set_obstacles l this.
Proof. reflexivity. Qed.

(** X10. The position of the obstacles depends on the clock and on their
    original positions only, not on where they were: moving them for a
    reading [now] after moving them for any other reading is moving them
    for [now]. *)
Theorem updateMovingObstacles_forgets_history
    (now earlier : num) (this : PhysicsEngine.t num) :
  updateMovingObstacles Math_sin Math_cos now
    (updateMovingObstacles Math_sin Math_cos earlier this)
  = updateMovingObstacles Math_sin Math_cos now this.
Proof.
  unfold updateMovingObstacles.
  cbn [obstacles set_obstacles]. rewrite set_obstacles_twice.
  f_equal. rewrite map_map. apply map_ext. intros o. reflexivity.
Qed.

Lemma reset_after_moving (now : num) (this : PhysicsEngine.t num) :
  PhysicsEngine.reset (updateMovingObstacles Math_sin Math_cos now this)
  = PhysicsEngine.reset this.
Proof.
  destruct this as [gx gy sm sd obs g b run lt dt pf dsp osh gp].
  unfold PhysicsEngine.reset, updateMovingObstacles.
  destruct g, b; cbn; rewrite map_map; reflexivity.
Qed.

Lemma ball_reset_twice (b : Ball.t num) :
  Ball.reset (Ball.reset b) = Ball.reset b.
Proof.
  rewrite (reset_settings b (Ball.reset b))
    by (rewrite reset_record; repeat split).
  rewrite !reset_record. reflexivity.
Qed.

(** X12. The engine's [reset] puts the obstacles back on their original
    positions whatever the clock had made of them, zeroes the gravity and
    resets the ball; a second [reset] changes nothing; and [reset] leaves
    the loop alone: running state, pending frames and dispatched events
    are what they were. *)
Theorem reset_restores_and_keeps_loop
    (now : num) (this : PhysicsEngine.t num) :
  PhysicsEngine.reset (updateMovingObstacles Math_sin Math_cos now this)
  = PhysicsEngine.reset this
  /\ PhysicsEngine.reset (PhysicsEngine.reset this) = PhysicsEngine.reset this
  /\ Forall (fun o => Obstacle.x o = Obstacle.originalX o
                      /\ Obstacle.y o = Obstacle.originalY o)
       (obstacles (PhysicsEngine.reset this))
  /\ (gravity_x (PhysicsEngine.reset this),
      gravity_y (PhysicsEngine.reset this)) = (lit 0, lit 0)
  /\ isRunning (PhysicsEngine.reset this) = isRunning this
  /\ pendingFrames (PhysicsEngine.reset this) = pendingFrames this
  /\ dispatched (PhysicsEngine.reset this) = dispatched this.
Proof.
  split; [apply reset_after_moving |].
  destruct this as [gx gy sm sd obs g b run lt dt pf dsp osh gp].
  split; [| split; [| split; [| split; [| split]]]].
  - unfold PhysicsEngine.reset.
    destruct g, b; cbn; rewrite map_map, ?ball_reset_twice; reflexivity.
  - unfold PhysicsEngine.reset. cbn.
    apply Forall_forall. intros o Ho.
    destruct g, b; cbn in Ho; apply in_map_iff in Ho;
      destruct Ho as (o' & <- & _); split; reflexivity.
  - unfold PhysicsEngine.reset. destruct g, b; reflexivity.
  - unfold PhysicsEngine.reset. destruct g, b; reflexivity.
  - unfold PhysicsEngine.reset. destruct g, b; reflexivity.
  - unfold PhysicsEngine.reset. destruct g, b; reflexivity.
Qed.
End MovingObstacles.

Section Oscillation.
Local Open Scope R_scope.
Import PhysicsEngine.

Lemma moved_obstacle (now : R) (this : PhysicsEngine.t R)
    (o : Obstacle.t R) :
  In o (obstacles (updateMovingObstacles sin cos now this)) ->
  (exists o0, In o0 (obstacles this)
              /\ Obstacle.originalX o = Obstacle.originalX o0
              /\ Obstacle.originalY o = Obstacle.originalY o0
              /\ Obstacle.moveRadius o = Obstacle.moveRadius o0)
  /\ Rabs (Obstacle.x o - Obstacle.originalX o) <= Rabs (Obstacle.moveRadius o)
  /\ Rabs (Obstacle.y o - Obstacle.originalY o)
     <= Rabs (Obstacle.moveRadius o) / 2.
Proof.
  unfold updateMovingObstacles. cbn [obstacles set_obstacles].
  intros Ho. apply in_map_iff in Ho. destruct Ho as (o' & <- & Hin).
  split; [exists o'; repeat split; assumption |].
  cbn [Obstacle.x Obstacle.y Obstacle.originalX Obstacle.originalY
       Obstacle.moveRadius].
  assert (Hlit : @lit R real 0.5 = / 2) by (cbn; unfold Q2R; cbn; lra).
  rewrite Hlit. cbn.
  set (a := sin _). set (c := cos _).
  assert (Ha : Rabs a <= 1)
    by (apply Rabs_le; unfold a; apply SIN_bound).
  assert (Hc : Rabs c <= 1)
    by (apply Rabs_le; unfold c; apply COS_bound).
  pose proof (Rabs_pos (Obstacle.moveRadius o')) as Hr.
  split.
  - replace (Obstacle.originalX o' + a * Obstacle.moveRadius o'
             - Obstacle.originalX o')
      with (a * Obstacle.moveRadius o') by ring.
    rewrite Rabs_mult. pose proof (Rabs_pos a). nra.
  - replace (Obstacle.originalY o' + c * Obstacle.moveRadius o' * / 2
             - Obstacle.originalY o')
      with (c * Obstacle.moveRadius o' * / 2) by ring.
    rewrite !Rabs_mult, (Rabs_pos_eq (/ 2)) by lra.
    pose proof (Rabs_pos c). nra.
Qed.

(** X11. An obstacle never leaves the box around its original position
    that its [moveRadius] spans: at most [|moveRadius|] away along x and
    half of it along y, whatever the clock reads. *)
Theorem updateMovingObstacles_within_radius
    (now : R) (this : PhysicsEngine.t R) :
  Forall
    (fun o =>
       Rabs (Obstacle.x o - Obstacle.originalX o) <= Rabs (Obstacle.moveRadius o)
       /\ Rabs (Obstacle.y o - Obstacle.originalY o)
          <= Rabs (Obstacle.moveRadius o) / 2)
    (obstacles (updateMovingObstacles sin cos now this)).
Proof.
  apply Forall_forall. intros o Ho.
  now destruct (moved_obstacle now this o Ho) as (_ & Hx & Hy).
Qed.
End Oscillation.

(** ** The loop, its frames and its events *)

Section Loop.
Context {num : Type} {N : Number num}.
Variables Math_sin Math_cos : num -> num.
Import PhysicsEngine.

Local Notation "'game'" := TiltRunnerGame.listeners.
Local Notation "'engineUpdate'" := (PhysicsEngine.update Math_sin Math_cos).
Local Notation "'engineStart'" := (PhysicsEngine.start Math_sin Math_cos).
Local Notation "'engineRunFrame'" :=
  (PhysicsEngine.runFrame Math_sin Math_cos).

Lemma update_pendingFrames (currentTime now : num)
    (this : PhysicsEngine.t num) :
  pendingFrames (engineUpdate game currentTime now this)
  = if isRunning this then S (pendingFrames this) else pendingFrames this.
Proof.
  destruct (isRunning this) eqn:Hrun.
  - destruct (update_running Math_sin Math_cos game game_obstacleHit_sameLoop
                currentTime now this Hrun)
      as (mid & (_ & Hp & _) & [-> | ->]).
    + change (S (pendingFrames mid) = S (pendingFrames this)).
      now rewrite Hp.
    + destruct (goalEvents_onGoalReached_game mid) as (_ & Hp' & _).
      change (S (pendingFrames (onGoalReached game mid))
              = S (pendingFrames this)).
      now rewrite Hp', Hp.
  - now rewrite update_stopped.
Qed.

(** X13. Frames are conserved.  A frame run on a running engine asks for
    exactly one frame in its place; run on a stopped engine it is used up;
    and [start] adds a frame whether the engine was running or not, so a
    [start] on an engine whose frame is still pending leaves two loops
    going. *)
Theorem frames_are_conserved
    (startTime currentTime now : num) (this : PhysicsEngine.t num) :
  pendingFrames (engineRunFrame game currentTime now this)
  = (if isRunning this then pendingFrames this
     else Nat.pred (pendingFrames this))
  /\ pendingFrames (engineStart game startTime currentTime now this)
     = S (pendingFrames this)
  /\ pendingFrames
       (engineStart game startTime currentTime now (stop this))
     = S (pendingFrames this).
Proof.
  split; [| split].
  - unfold PhysicsEngine.runFrame.
    destruct (pendingFrames this) as [| n] eqn:Hp.
    + rewrite Hp. now destruct (isRunning this).
    + rewrite update_pendingFrames.
      change (isRunning (set_pendingFrames n this)) with (isRunning this).
      now destruct (isRunning this).
  - unfold PhysicsEngine.start. now rewrite update_pendingFrames.
  - unfold PhysicsEngine.start. now rewrite update_pendingFrames.
Qed.

(** X14. What is missing is skipped.  A tick of a running engine that has
    no ball moves the obstacles, dispatches nothing and goes on; a tick of
    one that has no goal never reports the goal and never stops. *)
Theorem update_skips_what_is_missing
    (currentTime now : num) (this : PhysicsEngine.t num) :
  isRunning this = true ->
  let after := engineUpdate game currentTime now this in
  (ball this = None ->
     after
     = requestAnimationFrame
         (updateMovingObstacles Math_sin Math_cos now
            (set_times currentTime (currentTime - lastTime this)%num this))
     /\ dispatched after = dispatched this)
  /\ (goal this = None ->
      isRunning after = true
      /\ goalEvents after = goalEvents this
      /\ pendingFrames after = S (pendingFrames this)).
Proof.
  intros Hrun after. split.
  - intros Hball. unfold after, PhysicsEngine.update.
    rewrite Hrun. cbn [negb].
    change (ball (updateMovingObstacles Math_sin Math_cos now
                    (set_times currentTime (currentTime - lastTime this)%num
                       this)))
      with (ball this).
    rewrite Hball. split; reflexivity.
  - intros Hgoal. unfold after, PhysicsEngine.update.
    rewrite Hrun. cbn [negb].
    set (moved := updateMovingObstacles Math_sin Math_cos now _).
    assert (Hmoved : sameLoop this moved) by repeat split.
    destruct (ball moved) as [b |] eqn:Hb.
    + set (withBall := set_ball _ moved).
      assert (HwithBall : sameLoop this withBall) by repeat split.
      unfold checkCollisions.
      change (ball withBall) with
        (Some (Ball.update
                 (Ball.applyForce (gravity_x moved) (gravity_y moved) b))).
      cbv iota beta.
      set (checked := forEachObstacle game (obstacles withBall) withBall).
      assert (Hchecked : sameLoop this checked).
      { eapply sameLoop_trans; [exact HwithBall |].
        apply forEachObstacle_sameLoop. intros; apply sameLoop_refl. }
      destruct Hchecked as (Hr & Hp & He & Hg).
      rewrite Hg, Hgoal.
      change (isRunning checked = true
              /\ goalEvents checked = goalEvents this
              /\ S (pendingFrames checked) = S (pendingFrames this)).
      rewrite Hr, He, Hp. auto.
    + destruct Hmoved as (Hr & Hp & He & _).
      change (isRunning moved = true
              /\ goalEvents moved = goalEvents this
              /\ S (pendingFrames moved) = S (pendingFrames this)).
      rewrite Hr, He, Hp. auto.
Qed.

Lemma handleObstacleCollision_shakes (obstacle : Obstacle.t num)
    (b : Ball.t num) :
  Ball.shakes (Ball.handleObstacleCollision obstacle b) = S (Ball.shakes b).
Proof.
  unfold Ball.handleObstacleCollision.
  match goal with |- context [if ?c then _ else _] => destruct c end;
    reflexivity.
Qed.

Lemma forEachObstacle_cons (obstacle : Obstacle.t num)
    (array : list (Obstacle.t num)) (this : PhysicsEngine.t num) :
  forEachObstacle game (obstacle :: array) this
  = forEachObstacle game array
      match ball this with
      | Some b =>
          if fst (Ball.checkObstacleCollision obstacle b) then
            onObstacleHit game obstacle
              (set_ball (Some (Ball.handleObstacleCollision obstacle b)) this)
          else this
      | None => this
      end.
Proof. destruct (ball this) eqn:Hb; cbn; rewrite Hb; reflexivity. Qed.

Lemma forEachObstacle_counts (array : list (Obstacle.t num))
    (this : PhysicsEngine.t num) :
  exists hits : nat,
    (hits <= length array)%nat
    /\ hitEvents (forEachObstacle game array this)
       = (hitEvents this + hits)%nat
    /\ obstacleShakes (forEachObstacle game array this)
       = (obstacleShakes this + hits)%nat
    /\ ballShakes (forEachObstacle game array this)
       = (ballShakes this + hits)%nat.
Proof.
  revert this; induction array as [| obstacle array IH]; intros this.
  - exists 0%nat. cbn. repeat split; lia.
  - rewrite forEachObstacle_cons.
    set (next := match ball this with Some _ => _ | None => _ end).
    destruct (IH next) as (hits & Hle & Hh & Ho & Hs).
    rewrite Hh, Ho, Hs. clear Hh Ho Hs IH.
    assert (Hn : exists hit : nat,
               (hit <= 1)%nat
               /\ hitEvents next = (hitEvents this + hit)%nat
               /\ obstacleShakes next = (obstacleShakes this + hit)%nat
               /\ ballShakes next = (ballShakes this + hit)%nat).
    { unfold next, ballShakes. destruct (ball this) as [b |] eqn:Hb.
      - destruct (fst (Ball.checkObstacleCollision obstacle b)).
        + exists 1%nat. split; [lia |]. split; [| split].
          * unfold onObstacleHit, dispatchEvent, hitEvents. cbn. lia.
          * cbn. lia.
          * change (Ball.shakes (Ball.handleObstacleCollision obstacle b)
                    = (Ball.shakes b + 1)%nat).
            rewrite handleObstacleCollision_shakes. lia.
        + exists 0%nat. rewrite Hb. repeat split; lia.
      - exists 0%nat. rewrite Hb. repeat split; lia. }
    destruct Hn as (hit & Hle' & -> & -> & ->).
    exists (hit + hits)%nat. cbn [length]. repeat split; lia.
Qed.

(** X15. Every hit is told three times, and only hits are: in one pass of
    [checkCollisions] the [obstacleHit] events dispatched, the shakes of
    obstacle elements and the collision effects of the ball all grow by the
    same number, which is at most the number of obstacles; [goalReached] is
    dispatched at most once. *)
Theorem checkCollisions_counts_hits (this : PhysicsEngine.t num) :
  exists hits : nat,
    (hits <= length (obstacles this))%nat
    /\ hitEvents (checkCollisions game this) = (hitEvents this + hits)%nat
    /\ obstacleShakes (checkCollisions game this)
       = (obstacleShakes this + hits)%nat
    /\ ballShakes (checkCollisions game this) = (ballShakes this + hits)%nat
    /\ (goalEvents this <= goalEvents (checkCollisions game this)
        <= S (goalEvents this))%nat.
Proof.
  unfold checkCollisions.
  destruct (ball this) as [b |] eqn:Hb.
  - destruct (forEachObstacle_counts (obstacles this) this)
      as (hits & Hle & Hh & Ho & Hs).
    pose proof (forEachObstacle_sameLoop game game_obstacleHit_sameLoop
                  (obstacles this) this) as (_ & _ & He & _).
    set (checked := forEachObstacle game (obstacles this) this) in *.
    exists hits. split; [exact Hle |].
    rewrite <- Hh, <- Ho, <- Hs, <- He.
    destruct (goal checked) as [g |]; [| repeat split; lia].
    destruct (ball checked) as [b' |] eqn:Hb'; [| repeat split; lia].
    unfold Ball.checkGoalCollision.
    match goal with |- context [if ?c then _ else _] => destruct c end;
      [| repeat split; lia].
    unfold onGoalReached, dispatchEvent, hitEvents, goalEvents, ballShakes.
    destruct (goal checked); cbn; repeat split; lia.
  - exists 0%nat. repeat split; lia.
Qed.
End Loop.

(** ** Reading the page *)

Section Page.
Context {num : Type} {N : Number num}.
Variables Math_sin Math_cos : num -> num.
Variable Math_PI : num.
Variable random : nat -> num.
Import PhysicsEngine.

Local Notation "'game'" := TiltRunnerGame.listeners.

Lemma length_newObstacles (containerRect : DOM.Rect num) (k : nat)
    (elements : list (DOM.Rect num)) :
  length (newObstacles Math_PI containerRect random k elements)
  = length elements.
Proof.
  revert k; induction elements as [| rect elements IH]; intros k;
    cbn; [reflexivity | now rewrite IH].
Qed.

Lemma newObstacles_at_rest (containerRect : DOM.Rect num) (k : nat)
    (elements : list (DOM.Rect num)) (o : Obstacle.t num) :
  In o (newObstacles Math_PI containerRect random k elements) ->
  Obstacle.x o = Obstacle.originalX o /\ Obstacle.y o = Obstacle.originalY o.
Proof.
  revert k; induction elements as [| rect elements IH]; intros k;
    cbn; [tauto |].
  intros [<- | Hin]; [split; reflexivity | eauto].
Qed.

(** X17. Without the container of the game on the page, [updateObstacles]
    leaves the engine with no obstacle at all, whatever it had, while
    [updateGoal] keeps the goal the engine had; and [resize] throws if the
    engine has a ball, because [Ball.updateBounds] measures the container
    without looking for it. *)
Theorem missing_container
    (document : DOM.Document num) (this : PhysicsEngine.t num) :
  DOM.gameContainer document = None ->
  obstacles (updateObstacles Math_PI random document this) = []
  /\ updateGoal document this = this
  /\ goal (initializeGameElements Math_PI random document this) = goal this
  /\ resize Math_PI random document this
     = match ball this with
       | Some _ => None
       | None => Some (set_obstacles [] this)
       end.
Proof.
  intros Hc.
  assert (Hg : forall e, updateGoal document e = e).
  { intros e. unfold updateGoal. rewrite Hc.
    now destruct (DOM.goalElement document). }
  assert (Ho : updateObstacles Math_PI random document this
               = set_obstacles [] this).
  { unfold updateObstacles. now rewrite Hc. }
  split; [now rewrite Ho |]. split; [apply Hg |]. split.
  - unfold initializeGameElements. now rewrite Hg, Ho.
  - unfold resize. rewrite Hc.
    destruct (ball this); [reflexivity |]. now rewrite Hg, Ho.
Qed.

Lemma reset_newObstacles (containerRect : DOM.Rect num) (k : nat)
    (elements : list (DOM.Rect num)) :
  map (fun obstacle =>
         {| Obstacle.x := Obstacle.originalX obstacle;
            Obstacle.y := Obstacle.originalY obstacle;
            Obstacle.width := Obstacle.width obstacle;
            Obstacle.height := Obstacle.height obstacle;
            Obstacle.originalX := Obstacle.originalX obstacle;
            Obstacle.originalY := Obstacle.originalY obstacle;
            Obstacle.moveSpeed := Obstacle.moveSpeed obstacle;
            Obstacle.moveDirection := Obstacle.moveDirection obstacle;
            Obstacle.moveRadius := Obstacle.moveRadius obstacle |})
    (newObstacles Math_PI containerRect random k elements)
  = newObstacles Math_PI containerRect random k elements.
Proof.
  revert k; induction elements as [| rect elements IH]; intros k;
    cbn; [reflexivity | now rewrite IH].
Qed.

(** X19. An engine fresh from its constructor is at rest: it is not
    running, has no ball and no frame pending, so [update] and
    [checkCollisions] leave it as it is; and it is its own [reset], also
    after the clock has moved its obstacles. *)
Theorem new_engine_is_at_rest
    (document : DOM.Document num) (currentTime now : num) :
  let this := PhysicsEngine.new Math_PI random document in
  (isRunning this, ball this, pendingFrames this, dispatched this)
  = (false, None, 0%nat, [])
  /\ PhysicsEngine.update Math_sin Math_cos game currentTime now this = this
  /\ checkCollisions game this = this
  /\ PhysicsEngine.reset this = this
  /\ PhysicsEngine.reset (updateMovingObstacles Math_sin Math_cos now this)
     = this.
Proof.
  intros this.
  assert (Hreset : PhysicsEngine.reset this = this).
  { unfold this, PhysicsEngine.new, initializeGameElements, updateObstacles,
      updateGoal, PhysicsEngine.reset.
    destruct (DOM.gameContainer document) as [c |],
             (DOM.goalElement document) as [g |];
      cbn; rewrite ?reset_newObstacles; reflexivity. }
  assert (Hidle : (isRunning this, ball this, pendingFrames this,
                   dispatched this) = (false, None, 0%nat, [])).
  { unfold this, PhysicsEngine.new, initializeGameElements, updateObstacles,
      updateGoal.
    destruct (DOM.gameContainer document) as [c |],
             (DOM.goalElement document) as [g |]; reflexivity. }
  split; [exact Hidle |].
  injection Hidle as Hrun Hball _ _.
  split; [now apply update_stopped |].
  split; [unfold checkCollisions; now rewrite Hball |].
  split; [exact Hreset |].
  now rewrite reset_after_moving.
Qed.
End Page.

Section PageGeometry.
Local Open Scope R_scope.
Variable random : nat -> R.
Import PhysicsEngine.

Lemma newObstacles_in_range (containerRect : DOM.Rect R) (k : nat)
    (elements : list (DOM.Rect R)) (o : Obstacle.t R) :
  (forall k, 0 <= random k < 1) ->
  In o (newObstacles PI containerRect random k elements) ->
  1 <= Obstacle.moveSpeed o < 3
  /\ 0 <= Obstacle.moveDirection o < 2 * PI
  /\ 10 <= Obstacle.moveRadius o < 30.
Proof.
  intros Hrandom.
  revert k; induction elements as [| rect elements IH]; intros k;
    cbn [newObstacles In]; [tauto |].
  intros [<- | Hin]; [| eauto].
  cbn [Obstacle.moveSpeed Obstacle.moveDirection Obstacle.moveRadius].
  pose proof (Hrandom k). pose proof (Hrandom (S k)).
  pose proof (Hrandom (S (S k))). pose proof PI_RGT_0.
  cbn; unfold Q2R; cbn. repeat split; nra.
Qed.

(** X16. With [Math.random] drawing from [[0, 1)], [updateObstacles] makes
    one obstacle per element of the page, each with [moveSpeed] in
    [[1, 3)], [moveDirection] in [[0, 2 pi)] and [moveRadius] in
    [[10, 30)]; so an obstacle never gets [30] pixels away from where the
    page put it along x, nor [15] along y, whatever the clock reads. *)
Theorem updateObstacles_draws_in_range
    (document : DOM.Document R) (containerRect : DOM.Rect R)
    (this : PhysicsEngine.t R) :
  DOM.gameContainer document = Some containerRect ->
  (forall k, 0 <= random k < 1) ->
  let this' := updateObstacles PI random document this in
  length (obstacles this') = length (DOM.obstacleElements document)
  /\ Forall (fun o => 1 <= Obstacle.moveSpeed o < 3
                      /\ 0 <= Obstacle.moveDirection o < 2 * PI
                      /\ 10 <= Obstacle.moveRadius o < 30)
       (obstacles this')
  /\ forall now,
       Forall (fun o => Rabs (Obstacle.x o - Obstacle.originalX o) < 30
                        /\ Rabs (Obstacle.y o - Obstacle.originalY o) < 15)
         (obstacles (updateMovingObstacles sin cos now this')).
Proof.
  intros Hc Hrandom this'.
  assert (Hobs : obstacles this'
                 = newObstacles PI containerRect random 0
                     (DOM.obstacleElements document)).
  { unfold this', updateObstacles. now rewrite Hc. }
  split; [rewrite Hobs; apply length_newObstacles |].
  split.
  - rewrite Hobs. apply Forall_forall. intros o Ho.
    now apply (newObstacles_in_range containerRect 0
                 (DOM.obstacleElements document)).
  - intros now. apply Forall_forall. intros o Ho.
    destruct (moved_obstacle now this' o Ho)
      as ((o0 & Hin & _ & _ & Hr) & Hx & Hy).
    rewrite Hobs in Hin.
    destruct (newObstacles_in_range containerRect 0
                (DOM.obstacleElements document) o0 Hrandom Hin)
      as (_ & _ & Hradius).
    rewrite Hr in Hx, Hy.
    rewrite (Rabs_pos_eq (Obstacle.moveRadius o0)) in Hx, Hy by lra.
    split; lra.
Qed.

(** X18. With a ball and the container on the page, [resize] succeeds
    and gives the ball the bounds of the container as it is now, whatever
    the size of the container, and leaves everything else of the ball
    alone, its position and its velocity among it: so the ball may be
    outside its bounds.  If the container is at least as wide and as high
    as the ball, the next [update] of the ball brings it within them. *)
Theorem resize_then_update_contains
    (document : DOM.Document R) (containerRect : DOM.Rect R)
    (this : PhysicsEngine.t R) (b : Ball.t R) :
  ball this = Some b ->
  DOM.gameContainer document = Some containerRect ->
  exists this' b',
    resize PI random document this = Some this'
    /\ ball this' = Some b'
    /\ b' = Ball.set_bounds
              {| Ball.left := Ball.radius b;
                 Ball.right := DOM.width containerRect - Ball.radius b;
                 Ball.top := Ball.radius b;
                 Ball.bottom := DOM.height containerRect - Ball.radius b |}
              b
    /\ (Ball.x b', Ball.y b', Ball.vx b', Ball.vy b')
       = (Ball.x b, Ball.y b, Ball.vx b, Ball.vy b)
    /\ (2 * Ball.radius b <= DOM.width containerRect ->
        2 * Ball.radius b <= DOM.height containerRect ->
        Ball.radius b <= Ball.x (Ball.update b')
          <= DOM.width containerRect - Ball.radius b
        /\ Ball.radius b <= Ball.y (Ball.update b')
           <= DOM.height containerRect - Ball.radius b).
Proof.
  intros Hb Hc.
  set (b' := Ball.updateBounds (DOM.width containerRect)
               (DOM.height containerRect) b).
  exists (updateGoal document
            (updateObstacles PI random document (set_ball (Some b') this))).
  exists b'.
  split; [unfold resize; rewrite Hb, Hc; reflexivity |].
  split.
  { unfold updateGoal, updateObstacles. rewrite Hc.
    now destruct (DOM.goalElement document). }
  split; [reflexivity |]. split; [reflexivity |].
  intros HW HH.
  assert (Hin : inside (Ball.bounds b') (Ball.update b'))
    by (apply update_leaves_inside; cbn; lra).
  exact Hin.
Qed.
End PageGeometry.

(** * Properties of the controls *)

Section Controls.
Local Open Scope R_scope.
Import PhysicsEngine.

Lemma lit_R (q : Q) : @lit R real q = Q2R q.
Proof. reflexivity. Qed.

(** Forces between [-1] and [1] survive the way through [applyForces],
    which multiplies by [45], and [updateGravity], which clamps at [45]
    and divides by it. *)
Lemma applyForces_unit (userAgentMobile : bool) (forceX forceY : R)
    (e : PhysicsEngine.t R) :
  -1 <= forceX <= 1 -> -1 <= forceY <= 1 ->
  exists e',
    ControlsManager.applyForces userAgentMobile forceX forceY (Some e)
    = Some e'
    /\ gravity_x e' = forceX * engineSensitivity userAgentMobile e
    /\ gravity_y e' = forceY * engineSensitivity userAgentMobile e.
Proof.
  intros Hx Hy. eexists. split; [reflexivity |].
  unfold updateGravity, engineSensitivity.
  cbn [gravity_x gravity_y set_gravity].
  assert (Hlit : @lit R real 45 = 45) by (cbn; unfold Q2R; cbn; lra).
  rewrite Hlit. cbn.
  assert (Hid : forall a, -45 <= a <= 45 -> Rmax (- 45) (Rmin 45 a) = a).
  { intros a Ha. unfold Rmax, Rmin.
    destruct (Rle_dec 45 a); destruct (Rle_dec (- 45) _); lra. }
  rewrite !Hid by lra. split; field.
Qed.

Lemma normalizeOrientation_R (value : R) :
  ControlsManager.normalizeOrientation value 45
  = Rmax (- 1) (Rmin 1 (value / 45)).
Proof.
  unfold ControlsManager.normalizeOrientation. cbn. unfold Q2R. cbn.
  f_equal; [lra | f_equal; lra].
Qed.

Lemma normalizeOrientation_cases (value : R) :
  -1 <= ControlsManager.normalizeOrientation value 45 <= 1
  /\ (-45 <= value <= 45 ->
      ControlsManager.normalizeOrientation value 45 = value / 45)
  /\ (45 <= value -> ControlsManager.normalizeOrientation value 45 = 1)
  /\ (value <= -45 -> ControlsManager.normalizeOrientation value 45 = -1).
Proof.
  rewrite normalizeOrientation_R. unfold Rmax, Rmin.
  destruct (Rle_dec 1 (value / 45)); destruct (Rle_dec (- 1) _);
    repeat split; intros; lra.
Qed.

Lemma orZero_R (v : R) : ControlsManager.orZero (Some v) = v.
Proof.
  unfold ControlsManager.orZero.
  change (@ltb R real) with Rltb. rewrite lit_R.
  destruct (Rltb v (Q2R 0)) eqn:H1; [reflexivity |].
  destruct (Rltb (Q2R 0) v) eqn:H2; [reflexivity |].
  apply Rltb_false in H1, H2. cbn. lra.
Qed.

(** X20. A reading of the orientation sensor becomes gravity.  With the
    controls enabled and their mobile sensitivity between [0] and [1], a
    tilt within [45] degrees of the calibration gives gravity
    [tilt / 45 * sensitivity] times the engine's own sensitivity, [gamma]
    along x and [beta] along y; beyond [45] degrees it stays at the value
    for [45]. *)
Theorem tilt_becomes_gravity
    (userAgentMobile : bool) (alpha : option R) (beta gamma : R)
    (this : ControlsManager.t R) (e : PhysicsEngine.t R) :
  ControlsManager.isEnabled this = true ->
  0 <= ControlsManager.sensitivity_mobile this <= 1 ->
  let k := ControlsManager.sensitivity_mobile this
           * engineSensitivity userAgentMobile e in
  let tiltX := gamma - ControlsManager.calibration_gamma this in
  let tiltY := beta - ControlsManager.calibration_beta this in
  exists this' e',
    ControlsManager.onDeviceOrientation userAgentMobile
      alpha (Some beta) (Some gamma) this (Some e)
    = (this', Some e')
    /\ (-45 <= tiltX <= 45 -> gravity_x e' = tiltX / 45 * k)
    /\ (45 <= tiltX -> gravity_x e' = k)
    /\ (tiltX <= -45 -> gravity_x e' = - k)
    /\ (-45 <= tiltY <= 45 -> gravity_y e' = tiltY / 45 * k)
    /\ (45 <= tiltY -> gravity_y e' = k)
    /\ (tiltY <= -45 -> gravity_y e' = - k).
Proof.
  intros Hon Hs k tiltX tiltY.
  unfold ControlsManager.onDeviceOrientation. rewrite Hon. cbn [negb].
  cbn [ControlsManager.orientation_beta ControlsManager.orientation_gamma
       ControlsManager.calibration_beta ControlsManager.calibration_gamma
       ControlsManager.sensitivity_mobile ControlsManager.set_orientation].
  rewrite !orZero_R. change (@sub R real) with Rminus.
  change (@mul R real) with Rmult. rewrite lit_R.
  replace (Q2R 45) with 45 by (unfold Q2R; cbn; lra).
  fold tiltX tiltY.
  destruct (normalizeOrientation_cases tiltX) as (Hbx & Hix & Hhx & Hlx).
  destruct (normalizeOrientation_cases tiltY) as (Hby & Hiy & Hhy & Hly).
  set (nx := ControlsManager.normalizeOrientation tiltX 45) in *.
  set (ny := ControlsManager.normalizeOrientation tiltY 45) in *.
  destruct (applyForces_unit userAgentMobile
              (nx * ControlsManager.sensitivity_mobile this)
              (ny * ControlsManager.sensitivity_mobile this) e)
    as (e' & He' & Hgx & Hgy); [nra | nra |].
  eexists; exists e'. split; [rewrite He'; reflexivity |].
  rewrite Hgx, Hgy. unfold k.
  repeat split; intros H.
  - rewrite (Hix H). ring.
  - rewrite (Hhx H). ring.
  - rewrite (Hlx H). ring.
  - rewrite (Hiy H). ring.
  - rewrite (Hhy H). ring.
  - rewrite (Hly H). ring.
Qed.

(** X21. Calibration takes the current tilt as level.  On a phone that has
    granted the sensor, after [calibrate] a reading equal to the one the
    controls saw last gives no gravity at all. *)
Theorem calibrate_levels_current_tilt
    (userAgentMobile : bool) (alpha alpha' : option R) (beta gamma : R)
    (this : ControlsManager.t R)
    (physicsEngine : option (PhysicsEngine.t R)) (e : PhysicsEngine.t R) :
  ControlsManager.isEnabled this = true ->
  ControlsManager.isMobile this = true ->
  ControlsManager.hasOrientationPermission this = true ->
  let seen :=
    fst (ControlsManager.onDeviceOrientation userAgentMobile
           alpha (Some beta) (Some gamma) this physicsEngine) in
  let calibrated := ControlsManager.calibrate seen in
  exists this' e',
    ControlsManager.onDeviceOrientation userAgentMobile
      alpha' (Some beta) (Some gamma) calibrated (Some e)
    = (this', Some e')
    /\ gravity_x e' = 0 /\ gravity_y e' = 0.
Proof.
  intros Hon Hmob Hperm seen calibrated.
  assert (Hseen : seen
                  = ControlsManager.set_orientation
                      (ControlsManager.orZero alpha) beta gamma this).
  { unfold seen, ControlsManager.onDeviceOrientation.
    rewrite Hon. cbn [negb fst]. now rewrite !orZero_R. }
  assert (Hcal : calibrated
                 = ControlsManager.set_calibration beta gamma true seen).
  { unfold calibrated, ControlsManager.calibrate.
    rewrite Hseen. cbn. now rewrite Hmob, Hperm. }
  unfold ControlsManager.onDeviceOrientation.
  rewrite Hcal, Hseen. cbn [ControlsManager.isEnabled
    ControlsManager.set_calibration ControlsManager.set_orientation].
  rewrite Hon. cbn [negb].
  cbn [ControlsManager.orientation_beta ControlsManager.orientation_gamma
       ControlsManager.calibration_beta ControlsManager.calibration_gamma
       ControlsManager.sensitivity_mobile ControlsManager.set_orientation].
  rewrite !orZero_R. change (@sub R real) with Rminus.
  change (@mul R real) with Rmult. rewrite lit_R.
  replace (Q2R 45) with 45 by (unfold Q2R; cbn; lra).
  cbn [ControlsManager.calibration_beta ControlsManager.calibration_gamma
       ControlsManager.sensitivity_mobile ControlsManager.set_calibration
       ControlsManager.set_orientation].
  replace (beta - beta) with 0 by ring.
  replace (gamma - gamma) with 0 by ring.
  destruct (normalizeOrientation_cases 0) as (_ & Hi & _).
  rewrite Hi by lra.
  destruct (applyForces_unit userAgentMobile
              (0 / 45 * ControlsManager.sensitivity_mobile this)
              (0 / 45 * ControlsManager.sensitivity_mobile this) e)
    as (e' & He' & Hgx & Hgy); [lra | lra |].
  eexists; exists e'. split; [rewrite He'; reflexivity |].
  rewrite Hgx, Hgy. split; field.
Qed.

Lemma onKeyDown_disabled (code : option ControlsManager.Code)
    (this : ControlsManager.t R) :
  ControlsManager.isEnabled this = false ->
  ControlsManager.onKeyDown code this = this.
Proof. intros H. unfold ControlsManager.onKeyDown. now rewrite H. Qed.

Lemma updateKeyboard_R (userAgentMobile : bool)
    (this : ControlsManager.t R) (e : PhysicsEngine.t R) :
  ControlsManager.isEnabled this = true ->
  ControlsManager.updateKeyboard userAgentMobile this (Some e)
  = ControlsManager.applyForces userAgentMobile
      ((pressed this ControlsManager.ArrowRight ControlsManager.KeyD
        - pressed this ControlsManager.ArrowLeft ControlsManager.KeyA)
       * ControlsManager.sensitivity_desktop this)
      ((pressed this ControlsManager.ArrowDown ControlsManager.KeyS
        - pressed this ControlsManager.ArrowUp ControlsManager.KeyW)
       * ControlsManager.sensitivity_desktop this)
      (Some e).
Proof.
  intros Hon. unfold ControlsManager.updateKeyboard, pressed.
  rewrite Hon. cbn [negb].
  assert (H0 : @lit R real 0 = 0) by (cbn; unfold Q2R; cbn; lra).
  assert (H1 : @lit R real 1 = 1) by (cbn; unfold Q2R; cbn; lra).
  rewrite H0, H1.
  change (@sub R real) with Rminus. change (@add R real) with Rplus.
  change (@mul R real) with Rmult.
  destruct (_ || _), (_ || _), (_ || _), (_ || _);
    f_equal; ring.
Qed.

(** X23. The keyboard becomes gravity.  With the controls enabled and
    their desktop sensitivity between [0] and [1], a round of the keyboard
    loop sets gravity to right minus left along x and down minus up along
    y, each key pair counting [1] when one of its two keys is held, times
    the two sensitivities; so opposite keys held together cancel. *)
Theorem keys_become_gravity
    (userAgentMobile : bool) (this : ControlsManager.t R)
    (e : PhysicsEngine.t R) :
  ControlsManager.isEnabled this = true ->
  0 <= ControlsManager.sensitivity_desktop this <= 1 ->
  let k := ControlsManager.sensitivity_desktop this
           * engineSensitivity userAgentMobile e in
  exists e',
    ControlsManager.updateKeyboard userAgentMobile this (Some e) = Some e'
    /\ gravity_x e'
       = (pressed this ControlsManager.ArrowRight ControlsManager.KeyD
          - pressed this ControlsManager.ArrowLeft ControlsManager.KeyA) * k
    /\ gravity_y e'
       = (pressed this ControlsManager.ArrowDown ControlsManager.KeyS
          - pressed this ControlsManager.ArrowUp ControlsManager.KeyW) * k.
Proof.
  intros Hon Hs k. rewrite updateKeyboard_R by assumption.
  assert (Hp : forall k1 k2, pressed this k1 k2 = 0 \/ pressed this k1 k2 = 1).
  { intros k1 k2. unfold pressed.
    destruct (_ || _); cbn; unfold Q2R; cbn; [right | left]; lra. }
  set (fx := pressed this ControlsManager.ArrowRight ControlsManager.KeyD
             - pressed this ControlsManager.ArrowLeft ControlsManager.KeyA).
  set (fy := pressed this ControlsManager.ArrowDown ControlsManager.KeyS
             - pressed this ControlsManager.ArrowUp ControlsManager.KeyW).
  assert (Hfx : -1 <= fx <= 1).
  { unfold fx.
    destruct (Hp ControlsManager.ArrowRight ControlsManager.KeyD) as [-> | ->],
             (Hp ControlsManager.ArrowLeft ControlsManager.KeyA) as [-> | ->];
      lra. }
  assert (Hfy : -1 <= fy <= 1).
  { unfold fy.
    destruct (Hp ControlsManager.ArrowDown ControlsManager.KeyS) as [-> | ->],
             (Hp ControlsManager.ArrowUp ControlsManager.KeyW) as [-> | ->];
      lra. }
  destruct (applyForces_unit userAgentMobile
              (fx * ControlsManager.sensitivity_desktop this)
              (fy * ControlsManager.sensitivity_desktop this) e)
    as (e' & He' & Hgx & Hgy); [nra | nra |].
  exists e'. split; [exact He' |].
  rewrite Hgx, Hgy. unfold k. split; ring.
Qed.

(** X22. [disable] lets go of every key, and a key pressed while the
    controls are disabled is not seen: whatever was held before and
    whatever is pressed in between, the first round of the keyboard loop
    after [enable] sets gravity to zero. *)
Theorem disable_releases_keys
    (userAgentMobile : bool) (codes : list (option ControlsManager.Code))
    (this : ControlsManager.t R) (e : PhysicsEngine.t R) :
  let this' :=
    ControlsManager.enable
      (fold_left (fun this code => ControlsManager.onKeyDown code this)
         codes (ControlsManager.disable this)) in
  exists e',
    ControlsManager.updateKeyboard userAgentMobile this' (Some e) = Some e'
    /\ gravity_x e' = 0 /\ gravity_y e' = 0.
Proof.
  intros this'.
  assert (Hfold : fold_left
                    (fun this code => ControlsManager.onKeyDown code this)
                    codes (ControlsManager.disable this)
                  = ControlsManager.disable this).
  { induction codes as [| code codes IH]; [reflexivity |].
    cbn [fold_left]. rewrite onKeyDown_disabled by reflexivity. exact IH. }
  unfold this'. rewrite Hfold. rewrite updateKeyboard_R by reflexivity.
  unfold pressed. cbn [ControlsManager.keys ControlsManager.enable
    ControlsManager.disable ControlsManager.set_isEnabled
    ControlsManager.set_keys orb].
  assert (H0 : @lit R real 0 = 0) by (cbn; unfold Q2R; cbn; lra).
  rewrite H0.
  destruct (applyForces_unit userAgentMobile
              ((0 - 0) * ControlsManager.sensitivity_desktop
                           (ControlsManager.enable
                              (ControlsManager.disable this)))
              ((0 - 0) * ControlsManager.sensitivity_desktop
                           (ControlsManager.enable
                              (ControlsManager.disable this))) e)
    as (e' & He' & Hgx & Hgy); [lra | lra |].
  exists e'. split; [exact He' |].
  rewrite Hgx, Hgy. split; ring.
Qed.

(** X24. [setSensitivity] keeps both sensitivities between [0] and [2]:
    a value in that range is taken as it is, a negative one becomes [0]
    and one above [2] becomes [2]. *)
Theorem setSensitivity_clamps
    (mobileSensitivity desktopSensitivity : R) (this : ControlsManager.t R) :
  let this' :=
    ControlsManager.setSensitivity mobileSensitivity desktopSensitivity this in
  let clamp v := if Rlt_dec v 0 then 0 else if Rlt_dec 2 v then 2 else v in
  ControlsManager.sensitivity_mobile this' = clamp mobileSensitivity
  /\ ControlsManager.sensitivity_desktop this' = clamp desktopSensitivity
  /\ 0 <= ControlsManager.sensitivity_mobile this' <= 2
  /\ 0 <= ControlsManager.sensitivity_desktop this' <= 2
  /\ ControlsManager.setSensitivity
       (ControlsManager.sensitivity_mobile this')
       (ControlsManager.sensitivity_desktop this') this' = this'.
Proof.
  intros this' clamp.
  assert (Hc : forall v,
             Rmax (Q2R 0) (Rmin (Q2R 2) v) = clamp v
             /\ 0 <= clamp v <= 2).
  { intros v. unfold clamp, Rmax, Rmin, Q2R. cbn.
    destruct (Rle_dec _ v); destruct (Rle_dec _ _);
      destruct (Rlt_dec v 0); destruct (Rlt_dec 2 v); split; lra. }
  assert (Hfix : forall v, 0 <= v <= 2 -> Rmax (Q2R 0) (Rmin (Q2R 2) v) = v).
  { intros v Hv. unfold Rmax, Rmin, Q2R. cbn.
    destruct (Rle_dec _ v); destruct (Rle_dec _ _); lra. }
  assert (Hm : ControlsManager.sensitivity_mobile this'
               = clamp mobileSensitivity)
    by (unfold this'; cbn; apply Hc).
  assert (Hd : ControlsManager.sensitivity_desktop this'
               = clamp desktopSensitivity)
    by (unfold this'; cbn; apply Hc).
  split; [exact Hm |]. split; [exact Hd |].
  split; [rewrite Hm; apply Hc |]. split; [rewrite Hd; apply Hc |].
  unfold ControlsManager.setSensitivity at 1.
  change (@Math_max R real) with Rmax. change (@Math_min R real) with Rmin.
  rewrite !lit_R.
  rewrite !Hfix by (rewrite ?Hm, ?Hd; apply Hc).
  unfold this'. reflexivity.
Qed.
End Controls.

(** * Properties of the trails of the ball *)

Section Trails.
Context {num : Type} {N : Number num}.
Import TiltRunnerGame.

Lemma createBallTrail_length (now : Z) (containerPresent : bool)
    (maxTrails : nat) (ball : option (Ball.t num))
    (ballTrails : list (Trail num)) :
  (length ballTrails <= maxTrails)%nat ->
  (length (createBallTrail now containerPresent maxTrails ball ballTrails)
   <= maxTrails)%nat.
Proof.
  intros Hlen. unfold createBallTrail.
  destruct ball as [b |]; [| exact Hlen].
  destruct (Ball.getVelocity b) as [[? ?] speed].
  destruct (speed <? lit 1)%num; [exact Hlen |].
  destruct (Ball.getPosition b) as [[positionX positionY] ?].
  destruct containerPresent; cbn [negb]; [| exact Hlen].
  destruct (Nat.ltb_spec maxTrails
              (length (ballTrails
                       ++ [{| trail_left := positionX;
                              trail_top := positionY;
                              timestamp := now |}]))) as [Hlt | Hge].
  - rewrite length_app in Hlt. cbn in Hlt.
    destruct ballTrails as [| first rest]; cbn in *; [lia |].
    rewrite length_app. cbn. lia.
  - exact Hge.
Qed.

(** X25. The trails stay few and fresh.  A round of the effects loop
    never leaves more than [maxTrails] trails if there were no more
    before, and while the game is playing it leaves no trail older than
    [500] milliseconds; in any other state of the game it changes
    nothing. *)
Theorem trails_stay_few_and_fresh
    (gameState : GameState) (nowCreate nowCleanup : Z)
    (containerPresent : bool) (maxTrails : nat)
    (ball : option (Ball.t num)) (ballTrails : list (Trail num)) :
  (length ballTrails <= maxTrails)%nat ->
  let after :=
    visualEffectsLoop gameState nowCreate nowCleanup containerPresent
      maxTrails ball ballTrails in
  (length after <= maxTrails)%nat
  /\ match gameState with
     | playing =>
         Forall (fun trail => (nowCleanup - timestamp trail <= 500)%Z) after
     | _ => after = ballTrails
     end.
Proof.
  intros Hlen after. unfold after, visualEffectsLoop.
  destruct gameState; try (split; [exact Hlen | reflexivity]).
  split.
  - unfold cleanupBallTrails.
    eapply Nat.le_trans; [apply filter_length_le |].
    now apply createBallTrail_length.
  - unfold cleanupBallTrails. apply Forall_forall. intros trail Hin.
    apply filter_In in Hin. destruct Hin as [_ Hkeep].
    apply negb_true_iff in Hkeep. apply Z.ltb_ge in Hkeep. exact Hkeep.
Qed.
End Trails.

(** * The speed of the ball over a whole tick of the engine *)

Section EngineSpeed.
Local Open Scope R_scope.
Variables Math_sin Math_cos : R -> R.
Import PhysicsEngine.

Local Notation "'game'" := TiltRunnerGame.listeners.

Lemma handleObstacleCollision_speed (b : Ball.t R) (o : Obstacle.t R) :
  0 <= Ball.maxSpeed b ->
  speed (Ball.handleObstacleCollision o b) = speed b
  \/ speed (Ball.handleObstacleCollision o b) = 0.8 * Ball.maxSpeed b.
Proof.
  intros HM.
  destruct (Req_dec (Ball.x b) (fst (obstacleCenter o))) as [Hx | Hx];
    [destruct (Req_dec (Ball.y b) (snd (obstacleCenter o))) as [Hy | Hy] |].
  - left. rewrite !speed_norm.
    unfold Ball.handleObstacleCollision, obstacleCenter in *.
    cbn [fst snd] in Hx, Hy.
    assert (Hlit2 : @lit R real 2 = 2) by (cbn; unfold Q2R; cbn; lra).
    assert (Hlit0 : @lit R real 0 = 0) by (cbn; unfold Q2R; cbn; lra).
    rewrite Hlit2, Hlit0.
    change (@sub R real) with Rminus. change (@add R real) with Rplus.
    change (@div R real) with Rdiv. change (@mul R real) with Rmult.
    rewrite Hx, Hy.
    replace (Obstacle.x o + Obstacle.width o / 2
             - (Obstacle.x o + Obstacle.width o / 2)) with 0 by ring.
    replace (Obstacle.y o + Obstacle.height o / 2
             - (Obstacle.y o + Obstacle.height o / 2)) with 0 by ring.
    replace (0 * 0 + 0 * 0) with 0 by ring.
    change (@Math_sqrt R real 0) with (R_sqrt.sqrt 0). rewrite sqrt_0.
    assert (Hc : @ltb R real 0 0 = false) by (apply Rltb_false; lra).
    rewrite Hc. reflexivity.
  - right. apply (speed_after_response b o); [| exact HM].
    intros Heq. apply Hy. unfold center in Heq. now rewrite <- Heq.
  - right. apply (speed_after_response b o); [| exact HM].
    intros Heq. apply Hx. unfold center in Heq. now rewrite <- Heq.
Qed.

Lemma forEachObstacle_ball (P : Ball.t R -> Prop)
    (array : list (Obstacle.t R)) :
  (forall o b, P b -> P (Ball.handleObstacleCollision o b)) ->
  forall (this : PhysicsEngine.t R) (b : Ball.t R),
    ball this = Some b -> P b ->
    exists b', ball (forEachObstacle game array this) = Some b' /\ P b'.
Proof.
  intros Hstep.
  induction array as [| obstacle array IH]; intros this b Hb HP.
  - exists b. split; assumption.
  - rewrite forEachObstacle_cons, Hb.
    destruct (fst (Ball.checkObstacleCollision obstacle b)).
    + apply (IH _ (Ball.handleObstacleCollision obstacle b));
        [reflexivity | now apply Hstep].
    + now apply (IH this b).
Qed.

(** X26. Over a whole tick of the engine, obstacles and goal included,
    the ball never ends up faster than [maxSpeed]: the response to an
    obstacle sends it off at [0.8 * maxSpeed] or leaves its velocity as it
    is.  The tick keeps the settings of the ball, so this holds tick after
    tick. *)
Theorem engine_tick_bounds_speed
    (currentTime now : R) (this : PhysicsEngine.t R) (b : Ball.t R) :
  isRunning this = true ->
  ball this = Some b ->
  0 <= Ball.friction b <= 1 -> 0 <= Ball.bounce b <= 1 ->
  0 <= Ball.maxSpeed b ->
  exists b',
    ball (PhysicsEngine.update Math_sin Math_cos game currentTime now this)
    = Some b'
    /\ sameSettings b b'
    /\ speed b' <= Ball.maxSpeed b.
Proof.
  intros Hrun Hb Hf Hbo HM.
  unfold PhysicsEngine.update. rewrite Hrun. cbn [negb].
  set (moved := updateMovingObstacles Math_sin Math_cos now _).
  change (ball moved) with (ball this). rewrite Hb.
  set (ticked := Ball.update (Ball.applyForce _ _ b)).
  assert (Hticked : sameSettings b ticked /\ speed ticked <= Ball.maxSpeed b).
  { split.
    - apply (tick_sameSettings (gravity_x moved, gravity_y moved) b).
    - apply (ticks_bounded [] (gravity_x moved, gravity_y moved) b);
        assumption. }
  set (withBall := set_ball (Some ticked) moved).
  unfold checkCollisions.
  change (ball withBall) with (Some ticked). cbv iota beta.
  destruct (forEachObstacle_ball
              (fun b' => sameSettings b b' /\ speed b' <= Ball.maxSpeed b)
              (obstacles withBall)) with (this := withBall) (b := ticked)
    as (b' & Hb' & HP); [| reflexivity | exact Hticked |].
  { intros o c (Hs & Hv). split.
    - eapply sameSettings_trans;
        [exact Hs | apply handleObstacleCollision_sameSettings].
    - destruct Hs as (_ & _ & _ & _ & _ & HMc & _).
      destruct (handleObstacleCollision_speed c o) as [-> | ->];
        rewrite ?HMc; lra. }
  set (checked := forEachObstacle game (obstacles withBall) withBall) in *.
  exists b'. split; [| exact HP].
  rewrite Hb'.
  destruct (goal checked) as [g |] eqn:Hg; [| exact Hb'].
  destruct (Ball.checkGoalCollision g b') as [[|] ?]; [| exact Hb'].
  unfold onGoalReached, dispatchEvent. rewrite Hg. exact Hb'.
Qed.
End EngineSpeed.

(** * Keys, and ticks without a hit *)

Section KeysAndTicks.
Context {num : Type} {N : Number num}.
Variables Math_sin Math_cos : num -> num.
Import PhysicsEngine.

Local Notation "'game'" := TiltRunnerGame.listeners.

(** What the constructor of the controls leaves, by what the browser
    offers: on a desktop, and on a mobile without the sensor, keyboard
    controls; on a mobile whose sensor needs no permission, the sensor at
    once; on a mobile that has to ask, the sensor once the answer is
    ['granted'] and keyboard controls otherwise. *)
Lemma new_controls (mobile : bool) :
  let fresh := @ControlsManager.new num N in
  (ControlsManager.isMobile (fresh false ControlsManager.available),
   ControlsManager.hasOrientationPermission
     (fresh false ControlsManager.available)) = (false, false)
  /\ fresh mobile ControlsManager.unsupported
     = fresh false ControlsManager.unsupported
  /\ (ControlsManager.isMobile (fresh true ControlsManager.available),
      ControlsManager.hasOrientationPermission
        (fresh true ControlsManager.available)) = (true, true)
  /\ (ControlsManager.isMobile (fresh true ControlsManager.needsPermission),
      ControlsManager.hasOrientationPermission
        (fresh true ControlsManager.needsPermission)) = (true, false)
  /\ ControlsManager.permissionAnswered true
       (fresh true ControlsManager.needsPermission)
     = fresh true ControlsManager.available
  /\ ControlsManager.permissionAnswered false
       (fresh true ControlsManager.needsPermission)
     = fresh false ControlsManager.available.
Proof. destruct mobile; repeat split. Qed.

(** X27. Letting go of a key is always seen, pressing it only while the
    controls are enabled: after a press and a release of the same key the
    key is up whether the controls are enabled or not, and every other key
    is as it was. *)
Theorem keyup_undoes_keydown
    (c k : ControlsManager.Code) (this : ControlsManager.t num) :
  let this' :=
    ControlsManager.onKeyUp (Some c)
      (ControlsManager.onKeyDown (Some c) this) in
  ControlsManager.keys this' k
  = (if ControlsManager.sameCode k c then false
     else ControlsManager.keys this k)
  /\ ControlsManager.isEnabled this' = ControlsManager.isEnabled this
  /\ ControlsManager.keys
       (ControlsManager.onKeyDown (Some c) (ControlsManager.disable this)) k
     = false.
Proof.
  intros this'. unfold this', ControlsManager.onKeyUp,
    ControlsManager.onKeyDown.
  destruct (ControlsManager.isEnabled this) eqn:Hon; cbn;
    rewrite ?Hon; destruct (ControlsManager.sameCode k c);
    repeat split.
Qed.

Lemma forEachObstacle_no_hit (array : list (Obstacle.t num))
    (this : PhysicsEngine.t num) (b : Ball.t num) :
  ball this = Some b ->
  Forall (fun o => fst (Ball.checkObstacleCollision o b) = false) array ->
  forEachObstacle game array this = this.
Proof.
  intros Hb Hall. induction Hall as [| o array Ho _ IH]; [reflexivity |].
  rewrite forEachObstacle_cons, Hb, Ho. exact IH.
Qed.

(** X28. A tick of the engine in which the ball, once moved, touches none
    of the obstacles where the clock has put them leaves the ball as the
    force of gravity and [Ball.update] made it, and dispatches no
    [obstacleHit]. *)
Theorem engine_tick_without_hits
    (currentTime now : num) (this : PhysicsEngine.t num) (b : Ball.t num) :
  isRunning this = true ->
  ball this = Some b ->
  let ticked := tick (gravity_x this, gravity_y this) b in
  let after :=
    PhysicsEngine.update Math_sin Math_cos game currentTime now this in
  Forall (fun o => fst (Ball.checkObstacleCollision o ticked) = false)
    (obstacles (updateMovingObstacles Math_sin Math_cos now this)) ->
  ball after = Some ticked
  /\ hitEvents after = hitEvents this
  /\ obstacleShakes after = obstacleShakes this.
Proof.
  intros Hrun Hb ticked after Hclear.
  unfold after, PhysicsEngine.update. rewrite Hrun. cbn [negb].
  set (moved := updateMovingObstacles Math_sin Math_cos now _).
  change (ball moved) with (ball this). rewrite Hb.
  change (Ball.update (Ball.applyForce (gravity_x moved) (gravity_y moved) b))
    with ticked.
  set (withBall := set_ball (Some ticked) moved).
  unfold checkCollisions.
  change (ball withBall) with (Some ticked). cbv iota beta.
  rewrite (forEachObstacle_no_hit (obstacles withBall) withBall ticked)
    by (try reflexivity; exact Hclear).
  change (ball withBall) with (Some ticked).
  destruct (goal withBall) as [g |] eqn:Hg; [| repeat split].
  destruct (Ball.checkGoalCollision g ticked) as [[|] ?]; [| repeat split].
  unfold onGoalReached, dispatchEvent. rewrite Hg. repeat split.
Qed.
End KeysAndTicks.

(** * The further properties at the sample data *)

Section FurtherInstances.
Local Open Scope R_scope.
Import PhysicsEngine.

Ltac literal := cbn; unfold Q2R; cbn; lra.

Local Notation "'game'" := TiltRunnerGame.listeners.

Lemma velocity_comes_to_rest_rollingBall :
  Ball.vx (updates 84 rollingBall) = 0 /\ Ball.vy (updates 84 rollingBall) = 0.
Proof.
  apply (velocity_comes_to_rest rollingBall 7 83 83).
  - literal.
  - literal.
  - apply Rabs_le. literal.
  - apply Rabs_le. literal.
  - literal.
  - lia.
Defined.

Lemma update_bounces_cornerBall :
  let b' := Ball.update (@cornerBall R real) in
  Ball.x b' = Ball.right (Ball.bounds cornerBall)
  /\ Ball.vx b' = snap (- (Ball.vx cornerBall * Ball.friction cornerBall)
                         * Ball.bounce cornerBall)
  /\ Ball.isColliding b' = true
  /\ Ball.shakes b'
     = (Ball.shakes cornerBall + fires (Ball.isColliding cornerBall) true)%nat.
Proof.
  apply (update_bounces_off_vertical_edges cornerBall); literal.
Defined.

Lemma sampleBall_off_sideObstacle :
  center sampleBall <> obstacleCenter sideObstacle.
Proof.
  unfold center, obstacleCenter. intros Heq.
  apply (f_equal fst) in Heq. revert Heq. literal.
Qed.

Lemma handleObstacleCollision_sideObstacle :
  let b : Ball.t R := sampleBall in
  let o : Obstacle.t R := sideObstacle in
  let cx := fst (obstacleCenter o) in
  let cy := snd (obstacleCenter o) in
  let d := distance (center b) (obstacleCenter o) in
  let reach :=
    Ball.radius b + Rmax (Obstacle.width o) (Obstacle.height o) / 2 + 5 in
  let b' := Ball.handleObstacleCollision o b in
  speed b' = 0.8 * Ball.maxSpeed b
  /\ distance (center b') (obstacleCenter o) = reach
  /\ 0 < reach / d
  /\ Ball.x b' - cx = reach / d * (Ball.x b - cx)
  /\ Ball.y b' - cy = reach / d * (Ball.y b - cy)
  /\ Ball.vx b' = 0.8 * Ball.maxSpeed b / d * (Ball.x b - cx)
  /\ Ball.vy b' = 0.8 * Ball.maxSpeed b / d * (Ball.y b - cy).
Proof.
  apply (handleObstacleCollision_off_center sampleBall sideObstacle);
    [apply sampleBall_off_sideObstacle | literal ..].
Defined.

Lemma handleObstacleCollision_clears_sideObstacle :
  fst (Ball.checkObstacleCollision sideObstacle
         (Ball.handleObstacleCollision sideObstacle (@sampleBall R real)))
  = false.
Proof.
  apply (handleObstacleCollision_clears_obstacle sampleBall sideObstacle);
    [apply sampleBall_off_sideObstacle | literal | literal | literal |].
  replace (Obstacle.width (@sideObstacle R real)) with 20 by literal.
  replace (Obstacle.height (@sideObstacle R real)) with 40 by literal.
  replace (Rmax 20 40) with 40 by (symmetry; apply Rmax_right; lra).
  lra.
Defined.

Lemma checkObstacleCollision_centredObstacle :
  fst (Ball.checkObstacleCollision centredObstacle (@sampleBall R real))
  = true.
Proof.
  apply (checkObstacleCollision_inside_and_apart sampleBall centredObstacle);
    literal.
Defined.

Lemma ball_stays_in_container_sample :
  let b := ticks [(1, 0); (0, 1)] (Ball.new 300 400 50 50 12) in
  12 <= Ball.x b <= 300 - 12 /\ 12 <= Ball.y b <= 400 - 12.
Proof.
  apply (ball_stays_in_container 300 400 50 50 12 (1, 0) [(0, 1)]); lra.
Defined.

Lemma speed_stays_below_maxSpeed_rollingBall :
  speed (ticks [(1, 1)] rollingBall) <= Ball.maxSpeed rollingBall
  /\ speed (Ball.update rollingBall) <= speed rollingBall.
Proof.
  apply (speed_stays_below_maxSpeed rollingBall (1, 1) []); literal.
Defined.

Lemma updateGravity_sampleEngine :
  let s := sensitivity_mobile sampleEngine in
  let this' := updateGravity true 60 (-9) sampleEngine in
  (- s <= gravity_x this' <= s /\ - s <= gravity_y this' <= s)
  /\ (-45 <= -9 <= 45 -> gravity_x this' = -9 / 45 * s)
  /\ (-45 <= 60 <= 45 -> gravity_y this' = 60 / 45 * s).
Proof.
  apply (updateGravity_within_sensitivity true 60 (-9) sampleEngine);
    cbn; lra.
Defined.

Lemma update_skips_goallessEngine :
  let after := PhysicsEngine.update sin cos game 16 16 goallessEngine in
  (ball goallessEngine = None ->
     after
     = requestAnimationFrame
         (updateMovingObstacles sin cos 16
            (set_times 16 (16 - lastTime goallessEngine) goallessEngine))
     /\ dispatched after = dispatched goallessEngine)
  /\ (goal goallessEngine = None ->
      isRunning after = true
      /\ goalEvents after = goalEvents goallessEngine
      /\ pendingFrames after = S (pendingFrames goallessEngine)).
Proof.
  exact (update_skips_what_is_missing sin cos 16 16 goallessEngine eq_refl).
Defined.

Lemma halves_in_range (k : nat) : 0 <= halves k < 1.
Proof. unfold halves. lra. Qed.

Lemma updateObstacles_samplePage :
  let this' := updateObstacles PI halves samplePage sampleEngine in
  length (obstacles this') = length (DOM.obstacleElements samplePage)
  /\ Forall (fun o => 1 <= Obstacle.moveSpeed o < 3
                      /\ 0 <= Obstacle.moveDirection o < 2 * PI
                      /\ 10 <= Obstacle.moveRadius o < 30)
       (obstacles this')
  /\ forall now,
       Forall (fun o => Rabs (Obstacle.x o - Obstacle.originalX o) < 30
                        /\ Rabs (Obstacle.y o - Obstacle.originalY o) < 15)
         (obstacles (updateMovingObstacles sin cos now this')).
Proof.
  apply (updateObstacles_draws_in_range halves samplePage
           {| DOM.left := 10; DOM.top := 20;
              DOM.width := 300; DOM.height := 400 |} sampleEngine).
  - reflexivity.
  - apply halves_in_range.
Defined.

Lemma missing_container_emptyPage :
  obstacles (updateObstacles PI halves emptyPage sampleEngine) = []
  /\ updateGoal emptyPage sampleEngine = sampleEngine
  /\ goal (initializeGameElements PI halves emptyPage sampleEngine)
     = goal sampleEngine
  /\ resize PI halves emptyPage sampleEngine
     = match ball sampleEngine with
       | Some _ => None
       | None => Some (set_obstacles [] sampleEngine)
       end.
Proof.
  apply (missing_container PI halves emptyPage sampleEngine). reflexivity.
Defined.

Lemma resize_samplePage :
  let b : Ball.t R := sampleBall in
  exists this' b',
    resize PI halves samplePage sampleEngine = Some this'
    /\ ball this' = Some b'
    /\ (Ball.x b', Ball.y b', Ball.vx b', Ball.vy b')
       = (Ball.x b, Ball.y b, Ball.vx b, Ball.vy b)
    /\ Ball.radius b <= Ball.x (Ball.update b') <= 300 - Ball.radius b
    /\ Ball.radius b <= Ball.y (Ball.update b') <= 400 - Ball.radius b.
Proof.
  destruct (resize_then_update_contains halves samplePage
              {| DOM.left := 10; DOM.top := 20;
                 DOM.width := 300; DOM.height := 400 |}
              sampleEngine sampleBall eq_refl eq_refl)
    as (this' & b' & Hresize & Hball & _ & Hsame & Hin).
  exists this', b'.
  split; [exact Hresize |]. split; [exact Hball |]. split; [exact Hsame |].
  apply Hin; literal.
Defined.

Lemma tilt_becomes_gravity_sample :
  let k := ControlsManager.sensitivity_mobile tiltControls
           * engineSensitivity true sampleEngine in
  let tiltX := 9 - ControlsManager.calibration_gamma tiltControls in
  let tiltY := 60 - ControlsManager.calibration_beta tiltControls in
  exists this' e',
    ControlsManager.onDeviceOrientation true
      None (Some 60) (Some 9) tiltControls (Some sampleEngine)
    = (this', Some e')
    /\ (-45 <= tiltX <= 45 -> gravity_x e' = tiltX / 45 * k)
    /\ (45 <= tiltX -> gravity_x e' = k)
    /\ (tiltX <= -45 -> gravity_x e' = - k)
    /\ (-45 <= tiltY <= 45 -> gravity_y e' = tiltY / 45 * k)
    /\ (45 <= tiltY -> gravity_y e' = k)
    /\ (tiltY <= -45 -> gravity_y e' = - k).
Proof.
  apply (tilt_becomes_gravity true None 60 9 tiltControls sampleEngine).
  - reflexivity.
  - cbn. lra.
Defined.

Lemma calibrate_levels_sample :
  let seen :=
    fst (ControlsManager.onDeviceOrientation true
           None (Some 30) (Some 9) tiltControls (Some sampleEngine)) in
  let calibrated := ControlsManager.calibrate seen in
  exists this' e',
    ControlsManager.onDeviceOrientation true
      None (Some 30) (Some 9) calibrated (Some sampleEngine)
    = (this', Some e')
    /\ gravity_x e' = 0 /\ gravity_y e' = 0.
Proof.
  apply (calibrate_levels_current_tilt true None None 30 9 tiltControls
           (Some sampleEngine) sampleEngine); reflexivity.
Defined.

(** The controls of the phone are those its constructor leaves, once they
    are enabled. *)
Lemma tiltControls_constructed :
  tiltControls
  = ControlsManager.enable
      (ControlsManager.new true ControlsManager.available).
Proof.
  unfold tiltControls, ControlsManager.enable, ControlsManager.new,
    ControlsManager.initializeControls,
    ControlsManager.initializeMobileControls.
  unfold ControlsManager.set_isEnabled,
    ControlsManager.set_hasOrientationPermission.
  cbn. unfold Q2R. cbn. f_equal; lra.
Qed.

Lemma keys_become_gravity_sample :
  let k := ControlsManager.sensitivity_desktop keyboardControls
           * engineSensitivity false sampleEngine in
  exists e',
    ControlsManager.updateKeyboard false keyboardControls (Some sampleEngine)
    = Some e'
    /\ gravity_x e'
       = (pressed keyboardControls
            ControlsManager.ArrowRight ControlsManager.KeyD
          - pressed keyboardControls
              ControlsManager.ArrowLeft ControlsManager.KeyA) * k
    /\ gravity_y e'
       = (pressed keyboardControls
            ControlsManager.ArrowDown ControlsManager.KeyS
          - pressed keyboardControls
              ControlsManager.ArrowUp ControlsManager.KeyW) * k.
Proof.
  apply (keys_become_gravity false keyboardControls sampleEngine).
  - reflexivity.
  - literal.
Defined.

Lemma trails_of_rollingBall :
  let after :=
    TiltRunnerGame.visualEffectsLoop TiltRunnerGame.playing
      1000 1016 true 10 (Some (@rollingBall R real)) [] in
  (length after <= 10)%nat
  /\ Forall (fun trail => (1016 - TiltRunnerGame.timestamp trail <= 500)%Z)
       after.
Proof.
  apply (trails_stay_few_and_fresh TiltRunnerGame.playing
           1000 1016 true 10 (Some rollingBall) []).
  cbn. lia.
Defined.

Lemma sampleBall_rests :
  let ticked := Ball.update (Ball.applyForce 0 0 sampleBall) in
  Ball.x ticked = 50 /\ Ball.y ticked = 50 /\ Ball.radius ticked = 12.
Proof.
  destruct (rest_stays sampleBall) as (Hx & Hy & Hr); try literal.
  cbv zeta. rewrite Hx, Hy, Hr. repeat split; literal.
Qed.

(** Wherever the clock has put the far obstacle, the resting ball is to
    the left of it. *)
Lemma courseEngine_clear (now : R) :
  Forall
    (fun o =>
       fst (Ball.checkObstacleCollision o
              (Ball.update (Ball.applyForce 0 0 sampleBall))) = false)
    (obstacles (updateMovingObstacles sin cos now courseEngine)).
Proof.
  unfold updateMovingObstacles, courseEngine.
  cbn [obstacles set_obstacles map farObstacle Obstacle.originalX
       Obstacle.originalY Obstacle.moveRadius Obstacle.moveSpeed
       Obstacle.width Obstacle.height].
  constructor; [| constructor].
  rewrite checkObstacleCollision_R. cbv zeta.
  destruct sampleBall_rests as (Hx & Hy & Hr). rewrite Hx, Hy, Hr.
  cbn [Obstacle.x Obstacle.y Obstacle.width Obstacle.height].
  change (@add R real) with Rplus. change (@mul R real) with Rmult.
  set (a := sin _). set (c := cos _ * 10 * _).
  pose proof (SIN_bound (now * @lit R real 0.001 * 2)) as Ha.
  fold a in Ha.
  pose proof (clamp_between (200 + a * 10) (200 + a * 10 + 20) 50
                ltac:(lra)) as Hpx.
  set (px := Rmax (200 + a * 10) _) in *.
  set (py := Rmax (300 + c) _).
  apply Rltb_false.
  pose proof (Rle_0_sqr (50 - py)) as Hpy. unfold Rsqr in Hpy.
  nra.
Qed.

Lemma goalReached_stops_courseEngine :
  let after :=
    PhysicsEngine.update sin cos game 16 16 courseEngine in
  let alone :=
    PhysicsEngine.update sin cos noListeners 16 16 courseEngine in
  (goalEvents after = S (goalEvents courseEngine)
   /\ isRunning after = false
   /\ pendingFrames after = S (pendingFrames courseEngine))
  /\ (forall t1 t2, PhysicsEngine.update sin cos game t1 t2 after = after)
  /\ (forall t1 t2,
        PhysicsEngine.runFrame sin cos game t1 t2 after
        = set_pendingFrames (pendingFrames courseEngine) after)
  /\ (forall t0 t1 t2,
        pendingFrames (PhysicsEngine.start sin cos game t0 t1 t2 after)
        = S (pendingFrames after))
  /\ (goalEvents alone = S (goalEvents courseEngine)
      /\ isRunning alone = true
      /\ pendingFrames alone = S (pendingFrames courseEngine)).
Proof.
  apply (goalReached_stops_through_listener sin cos 16 16 courseEngine).
  - reflexivity.
  - unfold atGoalTest.
    set (moved := updateMovingObstacles sin cos 16 _).
    change (ball moved) with (Some (@sampleBall R real)).
    cbv iota beta zeta.
    change (gravity_x moved) with 0. change (gravity_y moved) with 0.
    rewrite (forEachObstacle_no_hit _ _
               (Ball.update (Ball.applyForce 0 0 sampleBall)));
      [| reflexivity | exact (courseEngine_clear 16)].
    exact sampleBall_on_goal.
Defined.

Lemma engine_tick_without_hits_courseEngine :
  let ticked :=
    tick (gravity_x courseEngine, gravity_y courseEngine) sampleBall in
  let after := PhysicsEngine.update sin cos game 16 16 courseEngine in
  ball after = Some ticked
  /\ hitEvents after = hitEvents courseEngine
  /\ obstacleShakes after = obstacleShakes courseEngine.
Proof.
  apply (engine_tick_without_hits sin cos 16 16 courseEngine sampleBall).
  - reflexivity.
  - reflexivity.
  - exact (courseEngine_clear 16).
Defined.

Lemma engine_tick_bounds_speed_sample :
  exists b',
    ball (PhysicsEngine.update sin cos game 16 16 sampleEngine) = Some b'
    /\ sameSettings sampleBall b'
    /\ speed b' <= Ball.maxSpeed sampleBall.
Proof.
  apply (engine_tick_bounds_speed sin cos 16 16 sampleEngine sampleBall);
    try reflexivity; literal.
Defined.
End FurtherInstances.
